(** * f1-clustering: telemetry feature engineering, balancing, driver
    profiles and similarity

    A shallow embedding of [processing.py], [clustering.py], [main.py] and
    [config.py], with the data of the radar chart of [visualisation.py] and
    the file names of [data_collection.py].

    - A Python [float] is an IEEE binary64 value: Rocq's primitive [float],
      with its NaN and infinities.  Integer-typed columns (gear, brake flag)
      are held by their float values.
    - A pandas [Series] is a [list float] in index order; a [DataFrame] read
      from a CSV file is a row count together with a finite map from column
      names to columns.
    - [print] appends a [message] to a log, which also records the figures
      saved and shown; exceptions are an [outcome].
    - pandas, numpy and scikit-learn are libraries outside the repository:
      their operations are written out here from their documented behaviour,
      without their rounding order.  The random generator behind
      [DataFrame.sample], the DBSCAN implementation and the plot renderer are
      parameters of the sections that use them. *)

From Stdlib Require Import ZArith List String Bool Floats Reals Lra Lia Sorted Ascii.
From stdpp Require Import base gmap strings.
Import ListNotations.

Set Warnings "-inexact-float".
Local Open Scope float_scope.

(** ** Floats *)

Definition of_nat (n : nat) : float := PrimFloat.of_uint63 (Uint63.of_Z (Z.of_nat n)).

(** [int(x)] of a finite float: the integral part, rounding toward zero. *)
Definition trunc (x : float) : float :=
  match Prim2SF x with
  | S754_finite s m e =>
      if (e <? 0)%Z then
        let z := PrimFloat.of_uint63 (Uint63.of_Z (Z.shiftr (Z.pos m) (- e))) in
        if s then - z else z
      else x
  | _ => x
  end.

(** ** Series *)

Definition Series : Type := list float.

Fixpoint map2 {A B C} (f : A -> B -> C) (l : list A) (l' : list B) : list C :=
  match l, l' with
  | a :: t, b :: t' => f a b :: map2 f t t'
  | _, _ => []
  end.

(** [s[i]] by position; a missing cell reads as NaN. *)
Definition iloc (s : Series) (i : nat) : float := nth i s nan.

Definition fsum (s : Series) : float := fold_left PrimFloat.add s 0.

(** [Series.diff()] *)
Definition diff (s : Series) : Series :=
  match s with
  | [] => []
  | _ :: t => nan :: map2 PrimFloat.sub t s
  end.

(** [Series.abs()] *)
Definition Series_abs (s : Series) : Series := map PrimFloat.abs s.

(** [Series.fillna(v)] *)
Definition fill (v x : float) : float := if is_nan x then v else x.

Definition fillna (v : float) (s : Series) : Series := map (fill v) s.

(** An infinity read as a missing value. *)
Definition inf_to_nan (x : float) : float := if is_infinity x then nan else x.

(** [pd.isna] on the observations of a series *)
Definition notna (s : Series) : Series := List.filter (fun x => negb (is_nan x)) s.

(** Variance of the observations [obs] with [ddof] delta degrees of freedom
    (pandas [nanvar] and the rolling variance): undefined when there are no
    more than [ddof] observations. *)
Definition var (ddof : nat) (obs : Series) : float :=
  let n := length obs in
  if (n <=? ddof)%nat then nan
  else
    let avg := fsum obs / of_nat n in
    fsum (map (fun x => (x - avg) * (x - avg)) obs) / of_nat (n - ddof).

Definition std (ddof : nat) (obs : Series) : float := PrimFloat.sqrt (var ddof obs).

(** The trailing window of [w] positions that ends at position [i]. *)
Definition window (w : nat) (s : Series) (i : nat) : Series :=
  skipn (S i - w) (firstn (S i) s).

(** [Series.rolling(w, min_periods=mp).std()]: pandas first replaces
    infinities by NaN, counts the remaining observations of each window
    and needs [mp] of them. *)
Definition rolling_obs (w : nat) (s : Series) (i : nat) : Series :=
  notna (map inf_to_nan (window w s i)).

Definition rolling_std (w min_periods : nat) (s : Series) : Series :=
  map (fun i =>
         let obs := rolling_obs w s i in
         if (length obs <? min_periods)%nat then nan else std 1 obs)
      (seq 0 (length s)).

(** ** Messages, exceptions and the output log *)

Inductive exn : Type :=
| ValueError (msg : string)
| IntCastingNaNError
| IndexError
| KeyError (key : string).

Inductive message : Type :=
| MissingColumns (missing_cols : list string) (driver_code : string)
| DriverNotFound (driver_code : string)
| ErrorProcessing (driver_code : string) (e : exn)
| Loaded (samples : nat) (driver_code : string)
| FailedToProcess (driver_code : string)
| LoadedDrivers (drivers samples : nat)
| NoValidData (race_location : string)
| ClusteringReport (track_name : string) (n_clusters n_noise : nat)
| NotEnoughDrivers
| Analyzing (track_name : string)
| DataLoaded (samples : nat)
| InsufficientData (track_name : string)
| AnalysisHeader (track_name : string)
| DriversAnalyzed (n : nat)
| InsufficientInsights
| MostSimilar (a b : string) (similarity : float)
| MostAggressive (drivers : list string)
| Smoothest (drivers : list string)
| ErrorGeneratingInsights (e : exn)
| LookingFor (race_location : string)
| PathDoesNotExist (race_location : string)
| NoCsvFiles (race_location : string)
| LoadingTelemetry (race_location : string) (files : list string)
| Processing (driver_code : string)
| SavedFigure (output_dir track_name : string)
| ErrorLoading (race_location : string) (e : exn)
| ShowPlots.

Inductive outcome (A : Type) : Type :=
| Returns (a : A)
| Raises (e : exn).
Arguments Returns {A} a.
Arguments Raises {A} e.

(** A computation: what it printed, and how it ended. *)
Definition M (A : Type) : Type := list message * outcome A.

Definition ret {A} (a : A) : M A := ([], Returns a).
Definition raise {A} (e : exn) : M A := ([], Raises e).
Definition print (m : message) : M unit := ([m], Returns tt).

Definition bind {A B} (c : M A) (k : A -> M B) : M B :=
  match c with
  | (out, Returns a) => let (out', r) := k a in (out ++ out', r)
  | (out, Raises e) => (out, Raises e)
  end.

(** [try: c  except Exception as e: h e] *)
Definition try_except {A} (c : M A) (h : exn -> M A) : M A :=
  match c with
  | (out, Raises e) => let (out', r) := h e in (out ++ out', r)
  | _ => c
  end.

Notation "'let*' x ':=' c 'in' k" := (bind c (fun x => k))
  (at level 10, x name, c at level 100, k at level 200).
Notation "c '>>' k" := (bind c (fun _ => k))
  (at level 100, k at level 200, right associativity).

Definition output {A} (c : M A) : list message := fst c.
Definition result {A} (c : M A) : outcome A := snd c.

(** ** config.py *)

Definition TEAMS : list (string * list string) :=
  [ ("Williams", ["ALB"; "SAI"]);
    ("Mercedes", ["ANT"; "RUS"]);
    ("Ferrari", ["HAM"; "LEC"]);
    ("RedBull", ["VER"; "TSU"]);
    ("McLaren", ["PIA"; "NOR"]) ]%string.

Record clustering_params : Type := { eps : float; min_samples : nat }.

Definition TRACK_CLUSTERING_PARAMS : list (string * clustering_params) :=
  [ ("Australia", {| eps := 0.4; min_samples := 40 |});
    ("Bahrain", {| eps := 0.35; min_samples := 50 |});
    ("China", {| eps := 0.45; min_samples := 45 |});
    ("Japan", {| eps := 0.4; min_samples := 35 |}) ]%string.

Definition DEFAULT_CLUSTERING_PARAMS : clustering_params :=
  {| eps := 0.4; min_samples := 45 |}.

(** [d.get(key, default)] on a dict written as its items *)
Fixpoint dict_get {V} (d : list (string * V)) (key : string) (default : V) : V :=
  match d with
  | [] => default
  | (k, v) :: d' => if String.eqb k key then v else dict_get d' key default
  end.

(** ** processing.py *)

Fixpoint find_team (teams : list (string * list string)) (driver_code : string)
  : option string :=
  match teams with
  | [] => None
  | (team, drivers) :: rest =>
      if existsb (String.eqb driver_code) drivers then Some team
      else find_team rest driver_code
  end.

Definition get_driver_team (driver_code : string) : M string :=
  match find_team TEAMS driver_code with
  | Some team => ret team
  | None => print (DriverNotFound driver_code) >> ret "Unknown"%string
  end.

(** A column of a parsed CSV file: numbers, or booleans. *)
Inductive column : Type :=
| Float64 (s : Series)
| Boolean (b : list bool).

Record DataFrame : Type := { nrows : nat; columns : gmap string column }.

Definition to_numeric (c : column) : Series :=
  match c with
  | Float64 s => s
  | Boolean b => map (fun x : bool => if x then 1 else 0) b
  end.

(** [Series.astype(int)]: pandas refuses NaN and infinities. *)
Definition astype_int (c : column) : M column :=
  match c with
  | Boolean b => ret (Float64 (to_numeric c))
  | Float64 s =>
      if forallb is_finite s then ret (Float64 (map trunc s))
      else raise IntCastingNaNError
  end.

(** The ten numeric columns of the [features] frame. *)
Record Features : Type := mkFeatures {
  RPM : float;
  Speed : float;
  nGear : float;
  Throttle : float;
  nBrake : float;
  ThrottleRate : float;
  BrakeIntensity : float;
  GearEfficiency : float;
  SpeedVariability : float;
  Acceleration : float
}.

(** A row of the returned frame: the features and the metadata. *)
Record FeatureRow : Type := mkFeatureRow {
  feats : Features;
  Driver : string;
  Team : string
}.

Definition values (r : Features) : list float :=
  [ RPM r; Speed r; nGear r; Throttle r; nBrake r; ThrottleRate r;
    BrakeIntensity r; GearEfficiency r; SpeedVariability r; Acceleration r ].

Definition Features_map (f : float -> float) (r : Features) : Features :=
  {| RPM := f (RPM r); Speed := f (Speed r); nGear := f (nGear r);
     Throttle := f (Throttle r); nBrake := f (nBrake r);
     ThrottleRate := f (ThrottleRate r); BrakeIntensity := f (BrakeIntensity r);
     GearEfficiency := f (GearEfficiency r);
     SpeedVariability := f (SpeedVariability r);
     Acceleration := f (Acceleration r) |}.

(** [features.replace([np.inf, -np.inf], np.nan)] *)
Definition replace_inf (rows : list Features) : list Features :=
  map (Features_map inf_to_nan) rows.

(** [features.dropna()] *)
Definition dropna (rows : list Features) : list Features :=
  List.filter (fun r => forallb (fun x => negb (is_nan x)) (values r)) rows.

(** The [features] frame of [process_driver_telemetry] before the filter:
    five raw columns and five derived ones, row [i] reading position [i]
    of each column. *)
Definition derive (n : nat) (rpm speed gear throttle brake : Series) : list Features :=
  let throttle_rate := fillna 0 (Series_abs (diff throttle)) in
  let brake_intensity := map2 PrimFloat.mul brake speed in
  let gear_efficiency := map2 PrimFloat.div rpm (map (fun g => g + 1) gear) in
  let speed_variability := fillna 0 (rolling_std 10 1 speed) in
  let acceleration := fillna 0 (diff speed) in
  map (fun i =>
         {| RPM := iloc rpm i; Speed := iloc speed i; nGear := iloc gear i;
            Throttle := iloc throttle i; nBrake := iloc brake i;
            ThrottleRate := iloc throttle_rate i;
            BrakeIntensity := iloc brake_intensity i;
            GearEfficiency := iloc gear_efficiency i;
            SpeedVariability := iloc speed_variability i;
            Acceleration := iloc acceleration i |})
      (seq 0 n).

Definition required_cols : list string := ["RPM"; "Speed"; "nGear"; "Throttle"]%string.
Definition columns_to_drop : list string := ["Date"; "Time"; "SessionTime"; "Source"]%string.

Definition has_column (cols : gmap string column) (c : string) : bool :=
  match cols !! c with Some _ => true | None => false end.

Definition get_column (cols : gmap string column) (c : string) : Series :=
  match cols !! c with Some x => to_numeric x | None => [] end.

(** The brake column: [Brake] converted to integers and renamed, or
    [nBrake] as it is, or a column of zeros. *)
Definition brake_step (df : DataFrame) : M (gmap string column) :=
  match columns df !! "Brake"%string with
  | Some b =>
      let* nb := astype_int b in
      ret (delete "Brake"%string (<["nBrake"%string := nb]> (columns df)))
  | None =>
      if negb (has_column (columns df) "nBrake")
      then ret (<["nBrake"%string := Float64 (repeat 0 (nrows df))]> (columns df))
      else ret (columns df)
  end.

(** [for col in columns_to_drop: if col in df_clean.columns: drop it] *)
Definition drop_optional (cols : gmap string column) : gmap string column :=
  fold_left (fun d col => if has_column d col then delete col d else d)
            columns_to_drop cols.

Definition features_frame (n : nat) (df_clean : gmap string column) : list Features :=
  derive n (get_column df_clean "RPM") (get_column df_clean "Speed")
           (get_column df_clean "nGear") (get_column df_clean "Throttle")
           (get_column df_clean "nBrake").

Definition process_driver_telemetry (df : DataFrame) (driver_code : string)
  : M (option (list FeatureRow)) :=
  try_except
    (let* df1 := brake_step df in
     let df_clean := drop_optional df1 in
     let missing_cols :=
       List.filter (fun col => negb (has_column df_clean col)) required_cols in
     match missing_cols with
     | _ :: _ => print (MissingColumns missing_cols driver_code) >> ret None
     | [] =>
         let features := features_frame (nrows df) df_clean in
         let features := dropna (replace_inf features) in
         let* team := get_driver_team driver_code in
         ret (Some (map (fun f => mkFeatureRow f driver_code team) features))
     end)
    (fun e => print (ErrorProcessing driver_code e) >> ret None).

(** An entry of [driver_stats]. *)
Record driver_stat : Type := {
  samples : nat;
  team : string;
  stat_avg_speed : float;
  stat_max_speed : float;
  avg_throttle : float;
  brake_usage : float
}.

(** [Series.mean()], [Series.std()] and [Series.max()] skip NaN. *)
Definition Series_mean (s : Series) : float :=
  match notna s with
  | [] => nan
  | obs => fsum obs / of_nat (length obs)
  end.

Definition Series_std (s : Series) : float := std 1 (notna s).

Definition Series_max (s : Series) : float :=
  match notna s with
  | [] => nan
  | x :: obs => fold_left (fun m y => if m <? y then y else m) obs x
  end.

Definition col (f : Features -> float) (rows : list FeatureRow) : Series :=
  map (fun r => f (feats r)) rows.

(** The body of the loop over the CSV files of a track. *)
Definition load_step (acc : list (list FeatureRow) * gmap string driver_stat)
    (file : string * DataFrame) : M (list (list FeatureRow) * gmap string driver_stat) :=
  let '(all_data, driver_stats) := acc in
  let '(driver_code, df) := file in
  print (Processing driver_code) >>
  let* driver_data := process_driver_telemetry df driver_code in
  match driver_data with
  | Some (r :: rows) =>
      let driver_data := r :: rows in
      let* team := get_driver_team driver_code in
      let stat := {| samples := length driver_data; team := team;
                     stat_avg_speed := Series_mean (col Speed driver_data);
                     stat_max_speed := Series_max (col Speed driver_data);
                     avg_throttle := Series_mean (col Throttle driver_data);
                     brake_usage := Series_mean (col nBrake driver_data) |} in
      print (Loaded (length driver_data) driver_code) >>
      ret (all_data ++ [driver_data], <[driver_code := stat]> driver_stats)
  | _ => print (FailedToProcess driver_code) >> ret (all_data, driver_stats)
  end.

Fixpoint foldM {A B} (f : A -> B -> M A) (a : A) (l : list B) : M A :=
  match l with
  | [] => ret a
  | b :: l' => let* a' := f a b in foldM f a' l'
  end.

(** [load_track_data] sees the track directory as the list of its CSV files,
    each a driver code (read off the file name) and the parsed frame, or as
    nothing when the directory does not exist. *)
Definition load_track_data (race_location : string)
    (track_dir : option (list (string * DataFrame)))
  : M (option (list FeatureRow) * option (gmap string driver_stat)) :=
  try_except
    (print (LookingFor race_location) >>
     match track_dir with
     | None => print (PathDoesNotExist race_location) >> ret (None, None)
     | Some [] => print (NoCsvFiles race_location) >> ret (None, None)
     | Some csv_files =>
         print (LoadingTelemetry race_location (map fst csv_files)) >>
         let* loaded := foldM load_step ([], ∅) csv_files in
         let '(all_data, driver_stats) := loaded in
         match all_data with
         | _ :: _ =>
             let combined_data := concat all_data in
             print (LoadedDrivers (length all_data) (length combined_data)) >>
             ret (Some combined_data, Some driver_stats)
         | [] => print (NoValidData race_location) >> ret (None, None)
         end
     end)
    (fun e => print (ErrorLoading race_location e) >> ret (None, None)).

(** ** scikit-learn: scaling, cosine similarity, Euclidean distance

    Written once over the arithmetic they use, so that the floats of the
    program and the real numbers they approximate share the definitions. *)

Class Arith (F : Type) : Type := {
  f_zero : F;
  f_one : F;
  f_add : F -> F -> F;
  f_sub : F -> F -> F;
  f_mul : F -> F -> F;
  f_div : F -> F -> F;
  f_sqrt : F -> F;
  f_max : F -> F -> F;
  f_is_zero : F -> bool;
  f_of_nat : nat -> F
}.

Section Sklearn.
Context {F : Type} `{Arith F}.

Definition total (x : list F) : F := fold_right f_add f_zero x.

Definition dot (x y : list F) : F := total (map2 f_mul x y).

Definition column_of (X : list (list F)) (k : nat) : list F :=
  map (fun row => nth k row f_zero) X.

Definition mean_ (c : list F) : F := f_div (total c) (f_of_nat (length c)).

Definition var_ (c : list F) : F :=
  mean_ (map (fun x => f_mul (f_sub x (mean_ c)) (f_sub x (mean_ c))) c).

(** A scale of zero (a constant feature, a zero vector) is replaced by one. *)
Definition handle_zeros_in_scale (s : F) : F := if f_is_zero s then f_one else s.

Definition scale_ (c : list F) : F := handle_zeros_in_scale (f_sqrt (var_ c)).

Definition enumerate {A} (l : list A) : list (nat * A) := combine (seq 0 (length l)) l.

(** [StandardScaler().fit_transform(X)] *)
Definition fit_transform (X : list (list F)) : list (list F) :=
  map (fun row =>
         map (fun kx => f_div (f_sub (snd kx) (mean_ (column_of X (fst kx))))
                              (scale_ (column_of X (fst kx))))
             (enumerate row))
      X.

(** [normalize(X)]: each row divided by its Euclidean norm. *)
Definition row_norm (x : list F) : F := handle_zeros_in_scale (f_sqrt (dot x x)).

Definition normalize (X : list (list F)) : list (list F) :=
  map (fun x => map (fun v => f_div v (row_norm x)) x) X.

(** [cosine_similarity(X)] *)
Definition cosine_similarity (X : list (list F)) : list (list F) :=
  let Xn := normalize X in
  map (fun a => map (fun b => dot a b) Xn) Xn.

(** [euclidean_distances(X)]: from the expansion
    [-2 x.y + x.x + y.y], clipped at zero, with the diagonal set to zero. *)
Definition euclidean_distances (X : list (list F)) : list (list F) :=
  let minus_two := f_sub f_zero (f_add f_one f_one) in
  map (fun ia =>
         map (fun jb =>
                if (fst ia =? fst jb)%nat then f_zero
                else f_sqrt (f_max
                       (f_add (f_add (f_mul minus_two (dot (snd ia) (snd jb)))
                                     (dot (snd ia) (snd ia)))
                              (dot (snd jb) (snd jb)))
                       f_zero))
             (enumerate X))
      (enumerate X).
End Sklearn.

#[export] Instance float_arith : Arith float := {|
  f_zero := 0;
  f_one := 1;
  f_add := PrimFloat.add;
  f_sub := PrimFloat.sub;
  f_mul := PrimFloat.mul;
  f_div := PrimFloat.div;
  f_sqrt := PrimFloat.sqrt;
  f_max := fun a b => if is_nan a then a else if is_nan b then b
                      else if a <? b then b else a;
  f_is_zero := fun x => x =? 0;
  f_of_nat := of_nat
|}.


(** [np.nan_to_num(X, nan=0.0, posinf=999999, neginf=-999999)] *)
Definition nan_to_num (X : list (list float)) : list (list float) :=
  map (map (fun x => if is_nan x then 0
                     else if x =? infinity then 999999
                     else if x =? neg_infinity then -999999
                     else x)) X.

(** ** clustering.py *)

(** [Series.unique()]: the distinct values, in order of first appearance. *)
Fixpoint unique (l : list string) : list string :=
  match l with
  | [] => []
  | x :: t => x :: List.filter (fun y => negb (String.eqb y x)) (unique t)
  end.

(** [data[data['Driver'] == driver]] *)
Definition rows_of {A} (driver_of : A -> string) (driver : string) (data : list A) : list A :=
  List.filter (fun r => String.eqb (driver_of r) driver) data.

(** [df.take(locs)] *)
Definition take {A} (locs : list nat) (rows : list A) : list A :=
  flat_map (fun i => match nth_error rows i with Some r => [r] | None => [] end) locs.

(** A row of the Track Feature Table: a feature row and its cluster label. *)
Record ClusteredRow : Type := mkClusteredRow {
  row : FeatureRow;
  Cluster : Z
}.

(** [len(set(clusters))] *)
Fixpoint distinct (l : list Z) : list Z :=
  match l with
  | [] => []
  | x :: t => x :: List.filter (fun y => negb (Z.eqb y x)) (distinct t)
  end.

Section Clustering.
(** [choice N n] stands for
    [np.random.RandomState(42).choice(N, size=n, replace=False)], the draw
    behind [DataFrame.sample(n, random_state=42)];
    [dbscan eps min_samples X] for
    [DBSCAN(eps=eps, min_samples=min_samples).fit_predict(X)]. *)
Variable choice : nat -> nat -> list nat.
Variable dbscan : float -> nat -> list (list float) -> list Z.

(** [driver_data.sample(n, random_state=42)] *)
Definition sample {A} (n : Z) (driver_data : list A) : M (list A) :=
  if (n <? 0)%Z then
    raise (ValueError "A negative number of rows requested. Please provide `n` >= 0.")
  else if (Z.of_nat (length driver_data) <? n)%Z then
    raise (ValueError "Cannot take a larger sample than population when 'replace=False'")
  else ret (take (choice (length driver_data) (Z.to_nat n)) driver_data).

Definition driver_sample (data : list FeatureRow) (n_samples_per_driver : Z)
    (driver : string) : M (list FeatureRow) :=
  let driver_data := rows_of Driver driver data in
  if (n_samples_per_driver <? Z.of_nat (length driver_data))%Z
  then sample n_samples_per_driver driver_data
  else ret driver_data.

Fixpoint mapM {A B} (f : A -> M B) (l : list A) : M (list B) :=
  match l with
  | [] => ret []
  | a :: l' => let* b := f a in let* bs := mapM f l' in ret (b :: bs)
  end.

(** [pd.concat(frames, ignore_index=True)] *)
Definition pd_concat {A} (frames : list (list A)) : M (list A) :=
  match frames with
  | [] => raise (ValueError "No objects to concatenate")
  | _ => ret (concat frames)
  end.

(** [StandardScaler().fit_transform(X)] on an array that may be empty *)
Definition scaler_fit_transform (X : list (list float)) : M (list (list float)) :=
  match X with
  | [] => raise (ValueError "Found array with 0 sample(s) while a minimum of 1 is required by StandardScaler.")
  | _ => ret (fit_transform X)
  end.

(** [clustered_data['Cluster'] = clusters] *)
Definition set_Cluster (clustered_data : list FeatureRow) (clusters : list Z)
  : M (list ClusteredRow) :=
  if (length clusters =? length clustered_data)%nat
  then ret (map2 mkClusteredRow clustered_data clusters)
  else raise (ValueError "Length of values does not match length of index").

Definition cluster_track_data (data : list FeatureRow) (track_name : string)
    (n_samples_per_driver : Z) : M (list ClusteredRow) :=
  let* sampled_data :=
    mapM (driver_sample data n_samples_per_driver) (unique (map Driver data)) in
  let* clustered_data := pd_concat sampled_data in
  let features_matrix := map (fun r => values (feats r)) clustered_data in
  let features_matrix := nan_to_num features_matrix in
  let* features_scaled := scaler_fit_transform features_matrix in
  let params := dict_get TRACK_CLUSTERING_PARAMS track_name DEFAULT_CLUSTERING_PARAMS in
  let clusters := dbscan (eps params) (min_samples params) features_scaled in
  let* clustered_data := set_Cluster clustered_data clusters in
  let n_clusters :=
    (length (distinct clusters) - (if existsb (Z.eqb (-1)) clusters then 1 else 0))%nat in
  let n_noise := length (List.filter (Z.eqb (-1)) clusters) in
  print (ClusteringReport track_name n_clusters n_noise) >>
  ret clustered_data.

(** The default of the keyword argument [n_samples_per_driver]. *)
Definition default_n_samples_per_driver : Z := 800.
End Clustering.

(** *** Driver profiles *)

Fixpoint insert_sorted (x : float) (l : list float) : list float :=
  match l with
  | [] => [x]
  | y :: t => if x <=? y then x :: l else y :: insert_sorted x t
  end.

Definition sort (l : list float) : list float := fold_right insert_sorted [] l.

(** [Series.quantile(num/den)] with linear interpolation between the two
    nearest order statistics of the observations; NaN when there are none. *)
Definition quantile (num den : nat) (s : Series) : float :=
  match sort (notna s) with
  | [] => nan
  | obs =>
      let pos := (num * (length obs - 1))%nat in
      let lo := iloc obs (pos / den) in
      let hi := iloc obs (Nat.min (S (pos / den)) (length obs - 1)) in
      lo + (hi - lo) * (of_nat (pos mod den) / of_nat den)
  end.

Definition ccol (f : Features -> float) (rows : list ClusteredRow) : Series :=
  map (fun r => f (feats (row r))) rows.

Definition low_speed_data (driver_data : list ClusteredRow) : list ClusteredRow :=
  List.filter (fun r => Speed (feats (row r)) <? quantile 3 10 (ccol Speed driver_data))
              driver_data.

Definition high_speed_data (driver_data : list ClusteredRow) : list ClusteredRow :=
  List.filter (fun r => quantile 7 10 (ccol Speed driver_data) <? Speed (feats (row r)))
              driver_data.

(** [for key, value in profile.items(): if pd.isna(value): profile[key] = 0.0] *)
Definition replace_nan (profile : list (string * float)) : list (string * float) :=
  map (fun kv => (fst kv, fill 0 (snd kv))) profile.

(** The body of the loop over drivers: one driver's profile, a dict written
    as its items in insertion order. *)
Definition driver_profile (driver_data : list ClusteredRow) : list (string * float) :=
  let profile :=
    [ ("avg_speed", Series_mean (ccol Speed driver_data));
      ("speed_variability", Series_std (ccol Speed driver_data));
      ("max_speed", Series_max (ccol Speed driver_data));
      ("throttle_aggression", Series_mean (ccol Throttle driver_data));
      ("throttle_smoothness", 1 / (Series_mean (ccol ThrottleRate driver_data) + 0.001));
      ("brake_frequency", Series_mean (ccol nBrake driver_data));
      ("brake_intensity", Series_mean (ccol BrakeIntensity driver_data));
      ("gear_efficiency", Series_mean (ccol GearEfficiency driver_data));
      ("acceleration_pattern", Series_mean (ccol Acceleration driver_data));
      ("acceleration_variability", Series_std (ccol Acceleration driver_data)) ]%string in
  let low := low_speed_data driver_data in
  let high := high_speed_data driver_data in
  let profile :=
    profile ++
    [ ("cornering_style"%string,
       if (0 <? length low)%nat then Series_mean (ccol Throttle low)
       else Series_mean (ccol Throttle driver_data)) ] in
  let profile :=
    profile ++
    [ ("straight_line_style"%string,
       if (0 <? length high)%nat then Series_mean (ccol Throttle high)
       else Series_mean (ccol Throttle driver_data)) ] in
  replace_nan profile.

(** [d[key] = value] on a dict written as its items *)
Fixpoint dict_set {V} (d : list (string * V)) (key : string) (value : V)
  : list (string * V) :=
  match d with
  | [] => [(key, value)]
  | (k, v) :: d' =>
      if String.eqb k key then (k, value) :: d' else (k, v) :: dict_set d' key value
  end.

Definition build_profiles (clustered_data : list ClusteredRow)
  : list (string * list (string * float)) :=
  fold_left
    (fun driver_profiles driver =>
       let driver_data := rows_of (fun r => Driver (row r)) driver clustered_data in
       if (length driver_data =? 0)%nat then driver_profiles
       else dict_set driver_profiles driver (driver_profile driver_data))
    (unique (map (fun r => Driver (row r)) clustered_data))
    [].

Definition profile_matrix (driver_profiles : list (string * list (string * float)))
  : list (list float) :=
  let drivers := map fst driver_profiles in
  let features := match driver_profiles with
                  | [] => []
                  | (_, profile) :: _ => map fst profile
                  end in
  map (fun driver =>
         map (fun feature => dict_get (dict_get driver_profiles driver []) feature nan)
             features)
      drivers.

(** [analyze_driving_style_similarity(clustered_data, track_name)]; the
    track name is not used by the function. *)
Definition analyze_driving_style_similarity (clustered_data : list ClusteredRow)
  : M (list (list float) * list (list float) * list string
       * list (string * list (string * float))) :=
  let driver_profiles := build_profiles clustered_data in
  if (length driver_profiles <? 2)%nat then
    print NotEnoughDrivers >>
    ret ([], [], map fst driver_profiles, driver_profiles)
  else
    let drivers := map fst driver_profiles in
    let profile_matrix := nan_to_num (profile_matrix driver_profiles) in
    let profile_matrix_scaled := fit_transform profile_matrix in
    let similarity_matrix := cosine_similarity profile_matrix_scaled in
    let distance_matrix := euclidean_distances profile_matrix_scaled in
    ret (similarity_matrix, distance_matrix, drivers, driver_profiles).

(** ** main.py *)

(** [similarity_matrix[i][j]] *)
Definition getitem2 (m : list (list float)) (i j : nat) : M float :=
  match nth_error m i with
  | Some r => match nth_error r j with
              | Some x => ret x
              | None => raise IndexError
              end
  | None => raise IndexError
  end.

(** The pairs [(i, j)] with [i < j < n], in the order of the two loops. *)
Definition pairs (n : nat) : list (nat * nat) :=
  flat_map (fun i => map (fun j => (i, j)) (seq (S i) (n - S i))) (seq 0 n).

Definition similar_step (similarity_matrix : list (list float)) (drivers : list string)
    (st : float * option (string * string)) (ij : nat * nat)
  : M (float * option (string * string)) :=
  let '(max_similarity, most_similar_pair) := st in
  let* similarity := getitem2 similarity_matrix (fst ij) (snd ij) in
  if max_similarity <? similarity
  then ret (similarity, Some (nth (fst ij) drivers EmptyString, nth (snd ij) drivers EmptyString))
  else ret (max_similarity, most_similar_pair).

(** The loop of [print_analysis_insights] under [# Find most similar pair]. *)
Definition find_most_similar_pair (similarity_matrix : list (list float))
    (drivers : list string) : M (float * option (string * string)) :=
  foldM (similar_step similarity_matrix drivers) (0, None) (pairs (length drivers)).

(** [sorted(drivers, key=key, reverse=True)]: stable, largest key first. *)
Fixpoint insert_desc (key : string -> float) (d : string) (l : list string) : list string :=
  match l with
  | [] => [d]
  | y :: t => if key d <? key y then y :: insert_desc key d t else d :: l
  end.

Definition sorted_desc (key : string -> float) (l : list string) : list string :=
  fold_right (insert_desc key) [] l.

Definition has_key {V} (d : list (string * V)) (key : string) : bool :=
  existsb (fun kv => String.eqb (fst kv) key) d.

Definition archetypes (drivers : list string)
    (driver_profiles : list (string * list (string * float))) : M unit :=
  try_except
    (match List.filter (fun d => negb (has_key driver_profiles d)) drivers with
     | d :: _ => raise (KeyError d)
     | [] =>
         let by_field field d := dict_get (dict_get driver_profiles d []) field 0 in
         let aggressive_drivers :=
           firstn 2 (sorted_desc (by_field "throttle_aggression"%string) drivers) in
         let smooth_drivers :=
           firstn 2 (sorted_desc (by_field "throttle_smoothness"%string) drivers) in
         print (MostAggressive aggressive_drivers) >>
         print (Smoothest smooth_drivers)
     end)
    (fun e => print (ErrorGeneratingInsights e)).

Definition print_analysis_insights (similarity_matrix : list (list float))
    (drivers : list string) (driver_profiles : list (string * list (string * float)))
  : M unit :=
  print (DriversAnalyzed (length drivers)) >>
  if (length (concat similarity_matrix) =? 0)%nat || (length drivers <? 2)%nat then
    print InsufficientInsights
  else
    let* found := find_most_similar_pair similarity_matrix drivers in
    let '(max_similarity, most_similar_pair) := found in
    (match most_similar_pair with
     | Some (a, b) => print (MostSimilar a b max_similarity)
     | None => ret tt
     end) >>
    match driver_profiles with
    | [] => ret tt
    | _ => archetypes drivers driver_profiles
    end.

Section Orchestrator.
Variable choice : nat -> nat -> list nat.
Variable dbscan : float -> nat -> list (list float) -> list Z.

(** Rendering ([visualisation.py], matplotlib and seaborn) is kept
    abstract: a figure, and the projection returned with it. *)
Variable Figure : Type.
Variable create_driving_style_visualizations :
  list (list float) -> list (list float) -> list string ->
  list (string * list (string * float)) -> list ClusteredRow -> string ->
  M (Figure * list (list float)).

Definition analyze_track_driving_styles (clustered_data : list ClusteredRow)
    (track_name : string) (output_dir : option string)
  : M (Figure * list (string * list (string * float))) :=
  print (AnalysisHeader track_name) >>
  let* analysis := analyze_driving_style_similarity clustered_data in
  let '(similarity_matrix, distance_matrix, drivers, driver_profiles) := analysis in
  let* visual :=
    create_driving_style_visualizations similarity_matrix distance_matrix drivers
      driver_profiles clustered_data track_name in
  let '(fig, pca_result) := visual in
  (match output_dir with
   | Some dir => if String.eqb dir EmptyString then ret tt else print (SavedFigure dir track_name)
   | None => ret tt
   end) >>
  print_analysis_insights similarity_matrix drivers driver_profiles >>
  ret (fig, driver_profiles).

(** [analyze_single_track]; the directory listing printed by
    [debug_directory_structure] is left out of the log. *)
Definition analyze_single_track (track_name : string)
    (track_dir : option (list (string * DataFrame)))
    (output_dir : option string) (show_plots : bool)
  : M (option Figure * option (list (string * list (string * float)))) :=
  print (Analyzing track_name) >>
  let* loaded := load_track_data track_name track_dir in
  let '(track_data, driver_stats) := loaded in
  match track_data with
  | Some data =>
      if (100 <? length data)%nat then
        print (DataLoaded (length data)) >>
        let* clustered_data :=
          cluster_track_data choice dbscan data track_name default_n_samples_per_driver in
        let* analysis := analyze_track_driving_styles clustered_data track_name output_dir in
        let '(fig, driver_profiles) := analysis in
        (if show_plots then print ShowPlots else ret tt) >>
        ret (Some fig, Some driver_profiles)
      else print (InsufficientData track_name) >> ret (None, None)
  | None => print (InsufficientData track_name) >> ret (None, None)
  end.
End Orchestrator.

(** * Statements of the specification *)

(** ** Feature rows *)

Definition all_finite (r : Features) : bool := forallb is_finite (values r).






(** Three samples, the second with an undefined throttle. *)
Definition telemetry_gap : DataFrame :=
  {| nrows := 3;
     columns := list_to_map
       [ ("RPM"%string, Float64 [10000; 11000; 12000]);
         ("Speed"%string, Float64 [100; 150; 200]);
         ("nGear"%string, Float64 [3; 4; 5]);
         ("Throttle"%string, Float64 [50; nan; 70]);
         ("Brake"%string, Boolean [false; false; true]) ] |}.


(** The rows returned for [telemetry_gap] and [telemetry_two]. *)
Definition returned_rows (df : DataFrame) (driver_code : string) : list FeatureRow :=
  match result (process_driver_telemetry df driver_code) with
  | Returns (Some rows) => rows
  | _ => []
  end.

Definition telemetry_gap_rows : list FeatureRow :=
  Eval vm_compute in returned_rows telemetry_gap "VER".


(** ** Missing columns *)

Definition lacks_required (df : DataFrame) : Prop :=
  exists c, In c required_cols /\ columns df !! c = None.

Definition missing_in (df : DataFrame) : list string :=
  List.filter (fun c => negb (has_column (columns df) c)) required_cols.

Definition missing_reported (df : DataFrame) (driver_code : string) : Prop :=
  lacks_required df ->
  process_driver_telemetry df driver_code =
    ([MissingColumns (missing_in df) driver_code], Returns None).

(** No RPM column, and a numeric brake column with an empty cell. *)
Definition telemetry_no_rpm : DataFrame :=
  {| nrows := 2;
     columns := list_to_map
       [ ("Speed"%string, Float64 [100; 200]);
         ("nGear"%string, Float64 [3; 4]);
         ("Throttle"%string, Float64 [50; 60]);
         ("Brake"%string, Float64 [nan; 1]) ] |}.

(** Neither [Brake] nor [nBrake]. *)
Definition telemetry_no_brake : DataFrame :=
  {| nrows := 2;
     columns := list_to_map
       [ ("RPM"%string, Float64 [10000; 11000]);
         ("Speed"%string, Float64 [100; 200]);
         ("nGear"%string, Float64 [3; 4]);
         ("Throttle"%string, Float64 [50; 60]) ] |}.

(** The columns still required after the brake step and the drops. *)
Definition missing_after (df1 : gmap string column) : list string :=
  List.filter (fun col => negb (has_column (drop_optional df1) col)) required_cols.

(** ** Balancing and clustering *)

(** The matrix handed to the scaler, and the labels DBSCAN gives it. *)
Definition features_of (rows : list FeatureRow) : list (list float) :=
  nan_to_num (map (fun r => values (feats r)) rows).

Definition labels_of (dbscan : float -> nat -> list (list float) -> list Z)
    (track_name : string) (rows : list FeatureRow) : list Z :=
  let params := dict_get TRACK_CLUSTERING_PARAMS track_name DEFAULT_CLUSTERING_PARAMS in
  dbscan (eps params) (min_samples params) (fit_transform (features_of rows)).

(** A draw that takes the first [n] positions, and a clustering that finds
    only noise: one instance of the two parameters. *)
Definition first_rows (N n : nat) : list nat := seq 0 n.

Definition all_noise (eps : float) (min_samples : nat) (X : list (list float)) : list Z :=
  map (fun _ => (-1)%Z) X.

(** The two drivers of the specification's end-to-end scenario. *)
Definition telemetry_A : DataFrame :=
  {| nrows := 5;
     columns := list_to_map
       [ ("RPM"%string, Float64 [9000; 10000; 11000; 10500; 11500]);
         ("Speed"%string, Float64 [100; 150; 200; 180; 220]);
         ("nGear"%string, Float64 [3; 4; 5; 5; 6]);
         ("Throttle"%string, Float64 [50; 70; 90; 80; 95]);
         ("Brake"%string, Boolean [false; false; false; true; false]) ] |}.

Definition telemetry_B : DataFrame :=
  {| nrows := 5;
     columns := list_to_map
       [ ("RPM"%string, Float64 [9000; 9000; 9000; 9000; 9000]);
         ("Speed"%string, Float64 [100; 100; 100; 100; 100]);
         ("nGear"%string, Float64 [3; 3; 3; 3; 3]);
         ("Throttle"%string, Float64 [10; 10; 10; 10; 10]);
         ("Brake"%string, Boolean [false; false; false; false; false]) ] |}.

Definition track_rows : list FeatureRow :=
  Eval vm_compute in returned_rows telemetry_A "VER" ++ returned_rows telemetry_B "HAM".

Definition returned_table (c : M (list ClusteredRow)) : list ClusteredRow :=
  match result c with
  | Returns table => table
  | Raises _ => []
  end.

(** [track_rows] balanced with a cap of 3 rows per driver. *)
Definition track_table : list ClusteredRow :=
  Eval vm_compute in
    returned_table (cluster_track_data first_rows all_noise track_rows "Japan" 3).

(** What balancing keeps of one driver's rows under a cap. *)
Definition balanced (cap : Z) (driver_data kept : list FeatureRow) : Prop :=
  length kept = Nat.min (length driver_data) (Z.to_nat cap) /\
  if (cap <? Z.of_nat (length driver_data))%Z
  then exists locs,
      List.NoDup locs /\ length locs = Z.to_nat cap /\
      Forall (fun i => (i < length driver_data)%nat) locs /\
      kept = take locs driver_data
  else kept = driver_data.

(** ** Driver profiles *)

Definition driver_of (r : ClusteredRow) : string := Driver (row r).

Definition profile_fields : list string :=
  [ "avg_speed"; "speed_variability"; "max_speed"; "throttle_aggression";
    "throttle_smoothness"; "brake_frequency"; "brake_intensity"; "gear_efficiency";
    "acceleration_pattern"; "acceleration_variability"; "cornering_style";
    "straight_line_style" ]%string.


(** One driver only. *)
Definition single_driver_table : list ClusteredRow :=
  Eval vm_compute in
    returned_table (cluster_track_data first_rows all_noise
                      (returned_rows telemetry_A "VER") "Japan" 800).

(** ** Similarity and distance matrices *)

(** [m[i][j]] *)
Definition entry {F} (m : list (list F)) (i j : nat) (d : F) : F := nth j (nth i m []) d.

Definition square {F} (n : nat) (m : list (list F)) : Prop :=
  length m = n /\ Forall (fun r => length r = n) m.






(** ** Insights and orchestration *)

(** The end-to-end scenario, clustered with the default cap. *)
Definition scenario_table : list ClusteredRow :=
  Eval vm_compute in
    returned_table (cluster_track_data first_rows all_noise track_rows "Japan" 800).

(** The condition under which [analyze_single_track] goes on. *)
Definition sufficient (track_data : option (list FeatureRow)) : bool :=
  match track_data with
  | Some data => (100 <? length data)%nat
  | None => false
  end.

(** The stages behind the condition: clustering, then the analysis. *)
Definition downstream (choice : nat -> nat -> list nat)
    (dbscan : float -> nat -> list (list float) -> list Z) (Figure : Type)
    (render : list (list float) -> list (list float) -> list string ->
              list (string * list (string * float)) -> list ClusteredRow -> string ->
              M (Figure * list (list float)))
    (data : list FeatureRow) (track_name : string) (output_dir : option string)
    (show_plots : bool)
  : M (option Figure * option (list (string * list (string * float)))) :=
  let* clustered_data :=
    cluster_track_data choice dbscan data track_name default_n_samples_per_driver in
  let* analysis :=
    analyze_track_driving_styles Figure render clustered_data track_name output_dir in
  let '(fig, driver_profiles) := analysis in
  (if show_plots then print ShowPlots else ret tt) >>
  ret (Some fig, Some driver_profiles).

(** A renderer that draws nothing. *)
Definition no_figure (S D : list (list float)) (drivers : list string)
    (driver_profiles : list (string * list (string * float)))
    (clustered_data : list ClusteredRow) (track_name : string)
  : M (unit * list (list float)) := ret (tt, []).


(** * Further parts of the code *)

(** ** main.py: all tracks *)

(** [analyze_all_tracks_driving_styles] prints, after the lines of the
    tracks, its closing banner; an exception of a track is not caught and
    ends the loop. *)
Inductive session_message : Type :=
| TrackOutput (m : message)
| AnalysisComplete.

Definition available_tracks : list string :=
  ["Australia"; "Bahrain"; "China"; "Japan"]%string.

Section AllTracks.
Variable choice : nat -> nat -> list nat.
Variable dbscan : float -> nat -> list (list float) -> list Z.
Variable Figure : Type.
Variable create_driving_style_visualizations :
  list (list float) -> list (list float) -> list string ->
  list (string * list (string * float)) -> list ClusteredRow -> string ->
  M (Figure * list (list float)).

(** The telemetry directory of each track, as [load_track_data] sees it. *)
Variable track_dirs : string -> option (list (string * DataFrame)).

Definition track_result : Type :=
  (option Figure * option (list (string * list (string * float))))%type.

(** [analyze_single_track(track, output_dir, show_plots)] *)
Definition track_run (output_dir : option string) (show_plots : bool) (track : string)
  : M track_result :=
  analyze_single_track choice dbscan Figure create_driving_style_visualizations
    track (track_dirs track) output_dir show_plots.

(** The body of the loop over the tracks. *)
Definition all_tracks_step (output_dir : option string) (show_plots : bool)
    (results : list (string * track_result)) (track : string)
  : M (list (string * track_result)) :=
  let* result := track_run output_dir show_plots track in
  match fst result with
  | Some _ => ret (dict_set results track result)
  | None => ret results
  end.

Definition analyze_all_tracks_driving_styles (output_dir : option string)
    (show_plots : bool)
  : list session_message * outcome (list (string * track_result)) :=
  match foldM (all_tracks_step output_dir show_plots) [] available_tracks with
  | (out, Returns results) => (map TrackOutput out ++ [AnalysisComplete], Returns results)
  | (out, Raises e) => (map TrackOutput out, Raises e)
  end.

(** The single-track run of a track returned a figure. *)
Definition has_figure (output_dir : option string) (show_plots : bool)
    (track : string) : bool :=
  match result (track_run output_dir show_plots track) with
  | Returns (Some _, _) => true
  | _ => false
  end.

(** The load of a track returned more than 100 rows. *)
Definition sufficient_track (track : string) : bool :=
  match result (load_track_data track (track_dirs track)) with
  | Returns (track_data, _) => sufficient track_data
  | Raises _ => false
  end.
End AllTracks.

(** ** visualisation.py: the data of the radar chart *)

Definition radar_metrics : list string :=
  [ "throttle_aggression"; "throttle_smoothness"; "brake_intensity";
    "speed_variability"; "acceleration_pattern" ]%string.

(** [driver_profiles[driver]] *)
Definition profile_of (driver_profiles : list (string * list (string * float)))
    (driver : string) : M (list (string * float)) :=
  if has_key driver_profiles driver then ret (dict_get driver_profiles driver [])
  else raise (KeyError driver).

(** [min(values)] and [max(values)] of a list whose first value is [x]: the
    first of the smallest, and of the largest, values. *)
Definition py_min (x : float) (rest : list float) : float :=
  fold_left (fun m y => if y <? m then y else m) rest x.

Definition py_max (x : float) (rest : list float) : float :=
  fold_left (fun m y => if m <? y then y else m) rest x.

(** [[driver_profiles[d][metric] for d in drivers
      if metric in driver_profiles[d] and not pd.isna(driver_profiles[d][metric])]] *)
Definition all_values (drivers : list string)
    (driver_profiles : list (string * list (string * float))) (metric : string)
  : M (list float) :=
  let* found :=
    mapM (fun d =>
            let* profile := profile_of driver_profiles d in
            if has_key profile metric && negb (is_nan (dict_get profile metric nan))
            then ret [dict_get profile metric nan]
            else ret [])
         drivers in
  ret (concat found).

(** The body of the loop over the metrics: one value of one driver. *)
Definition radar_value (drivers : list string)
    (driver_profiles : list (string * list (string * float)))
    (driver metric : string) : M float :=
  let* profile := profile_of driver_profiles driver in
  let* normalized :=
    if has_key profile metric then
      let value := dict_get profile metric nan in
      let* all_values := all_values drivers driver_profiles metric in
      match all_values with
      | x :: (_ :: _) as rest =>
          let min_val := py_min x rest in
          let max_val := py_max x rest in
          ret (if negb (max_val =? min_val)
               then (value - min_val) / (max_val - min_val)
               else 0.5)
      | _ => ret 0.5
      end
    else ret 0.5 in
  ret (if is_nan normalized || is_infinity normalized then 0.5 else normalized).

(** [radar_data], one row per driver; the chart computes it when there is
    at least one profile, inside a [try] whose handler writes the error on
    the chart. *)
Definition radar_data (drivers : list string)
    (driver_profiles : list (string * list (string * float)))
  : M (list (list float)) :=
  mapM (fun driver => mapM (radar_value drivers driver_profiles driver) radar_metrics)
       drivers.

(** ** processing.py: the driver code of a file name, the second driver *)

(** File names are taken as ASCII strings, one character per byte. *)

(** [s.split(sep)] for a separator of one character. *)
Fixpoint split (sep : Ascii.ascii) (s : string) : list string :=
  match s with
  | EmptyString => [EmptyString]
  | String a s' =>
      if Ascii.eqb a sep then EmptyString :: split sep s'
      else match split sep s' with
           | p :: ps => String a p :: ps
           | [] => [String a EmptyString]
           end
  end.

(** [os.path.basename(filename)], with [/] as the separator *)
Definition basename (filename : string) : string :=
  List.last (split "/"%char filename) EmptyString.

(** [s.endswith(suffix)] *)
Definition endswith (s suffix : string) : bool :=
  (String.length suffix <=? String.length s)%nat
  && String.eqb (substring (String.length s - String.length suffix)
                           (String.length suffix) s) suffix.

(** [s.replace('.csv', '')] *)
Fixpoint replace_csv (s : string) : string :=
  match s with
  | EmptyString => EmptyString
  | String a s1 =>
      match s1 with
      | String b (String c (String d rest)) =>
          if Ascii.eqb a "."%char && Ascii.eqb b "c"%char
             && Ascii.eqb c "s"%char && Ascii.eqb d "v"%char
          then replace_csv rest
          else String a (replace_csv s1)
      | _ => String a (replace_csv s1)
      end
  end.

Definition is_upper_char (a : Ascii.ascii) : bool :=
  (65 <=? Ascii.nat_of_ascii a)%nat && (Ascii.nat_of_ascii a <=? 90)%nat.

Definition is_lower_char (a : Ascii.ascii) : bool :=
  (97 <=? Ascii.nat_of_ascii a)%nat && (Ascii.nat_of_ascii a <=? 122)%nat.

(** [s.isupper()]: some capital letter, and no lowercase letter. *)
Definition isupper (s : string) : bool :=
  existsb is_upper_char (list_ascii_of_string s)
  && forallb (fun a => negb (is_lower_char a)) (list_ascii_of_string s).

(** [len(part) == 3 and part.isupper()] *)
Definition is_code (part : string) : bool :=
  (String.length part =? 3)%nat && isupper part.

(** The driver code [load_track_data] reads off the name of a CSV file;
    nothing when the name does not end in [.csv] (the loop then assigns no
    code). *)
Definition driver_code_of (filename : string) : option string :=
  let base_filename := basename filename in
  if endswith base_filename ".csv" then
    let driver_code := replace_csv base_filename in
    if is_code driver_code then Some driver_code
    else
      let parts := split "-"%char driver_code in
      let potential_codes := List.filter is_code parts in
      match potential_codes with
      | code :: _ => Some code
      | [] => Some (replace_csv base_filename)
      end
  else None.

(** [is_second_driver]: [TEAMS.get(team, [])], then the comparison with the
    second entry. *)
Definition is_second_driver (driver_code team : string) : bool :=
  let team_drivers := dict_get TEAMS team [] in
  (1 <? length team_drivers)%nat && String.eqb driver_code (nth 1 team_drivers EmptyString).

(** ** data_collection.py: the files written *)


(** * Further statements *)

(** The team [get_driver_team] returns for a driver code. *)
Definition team_of (driver_code : string) : string :=
  match find_team TEAMS driver_code with
  | Some team => team
  | None => "Unknown"%string
  end.

(** The ten values of a row are finite. *)
Definition finite_row (r : FeatureRow) : Prop :=
  Forall (fun x => is_finite x = true) (values (feats r)).

(** The [driver_stats] entry [load_track_data] writes for a driver whose
    file gave the rows [driver_data]. *)
Definition stat_of (driver_code : string) (driver_data : list FeatureRow) : driver_stat :=
  {| samples := length driver_data;
     team := team_of driver_code;
     stat_avg_speed := Series_mean (col Speed driver_data);
     stat_max_speed := Series_max (col Speed driver_data);
     avg_throttle := Series_mean (col Throttle driver_data);
     brake_usage := Series_mean (col nBrake driver_data) |}.

(** The two files of the end-to-end scenario. *)
Definition scenario_files : list (string * DataFrame) :=
  [("VER"%string, telemetry_A); ("HAM"%string, telemetry_B)].

(** What the loop keeps true of its accumulators: the frames collected so
    far, paired with the driver codes of the files they came from. *)
Definition loaded_from (seen : list string) (codes : list string)
    (acc : list (list FeatureRow) * gmap string driver_stat) : Prop :=
  incl codes seen /\
  Forall2 (fun code frame =>
             frame <> [] /\ Forall finite_row frame /\
             Forall (fun r => Driver r = code) frame /\
             exists st, snd acc !! code = Some st /\ (0 < samples st)%nat /\
                        team st = team_of code)
          codes (fst acc) /\
  (forall d, is_Some (snd acc !! d) -> In d codes).

(** The same with distinct driver codes: each driver has one frame, and its
    statistics are those of that frame. *)
Definition loaded_distinct (seen : list string) (codes : list string)
    (acc : list (list FeatureRow) * gmap string driver_stat) : Prop :=
  incl codes seen /\
  List.NoDup codes /\
  Forall2 (fun code frame =>
             frame <> [] /\ Forall (fun r => Driver r = code) frame /\
             snd acc !! code = Some (stat_of code frame))
          codes (fst acc) /\
  (forall d, is_Some (snd acc !! d) -> In d codes).

(** The statistics of the two drivers of the scenario. *)
Definition scenario_stats : gmap string driver_stat :=
  <["HAM"%string := stat_of "HAM" (rows_of Driver "HAM"%string track_rows)]>
    (<["VER"%string := stat_of "VER" (rows_of Driver "VER"%string track_rows)]> ∅).

(** What the loop under [# Find most similar pair] keeps true after the
    pairs [seen]: no entry seen exceeds the running maximum, which is the
    initial 0 while no pair is named and otherwise the positive entry of the
    named pair. *)
Definition most_similar_so_far (similarity_matrix : list (list float))
    (drivers : list string) (seen : list (nat * nat))
    (st : float * option (string * string)) : Prop :=
  (forall i j, In (i, j) seen -> (fst st <? entry similarity_matrix i j 0) = false) /\
  match snd st with
  | None => fst st = 0
  | Some (a, b) =>
      exists i j, In (i, j) seen /\
        a = nth i drivers EmptyString /\ b = nth j drivers EmptyString /\
        fst st = entry similarity_matrix i j 0 /\
        (0 <? fst st) = true
  end.

(** The key of the two rankings of [print_analysis_insights]:
    [driver_profiles[d].get(field, 0)]. *)
Definition by_field (driver_profiles : list (string * list (string * float)))
    (field d : string) : float :=
  dict_get (dict_get driver_profiles d []) field 0.

(** No later driver has a greater key than an earlier one. *)
Definition descending (key : string -> float) : list string -> Prop :=
  StronglySorted (fun a b => (key a <? key b) = false).

(** No value of any profile is NaN. *)
Definition profiles_defined (driver_profiles : list (string * list (string * float))) : Prop :=
  Forall (fun dp => Forall (fun kv => is_nan (snd kv) = false) (snd dp)) driver_profiles.

(** Three drivers and two fields of their profiles. *)
Definition three_profiles : list (string * list (string * float)) :=
  [ ("VER", [("throttle_aggression", 70); ("throttle_smoothness", 0.5)]);
    ("HAM", [("throttle_aggression", 90); ("throttle_smoothness", 0.25)]);
    ("LEC", [("throttle_aggression", 80); ("throttle_smoothness", 0.75)]) ]%string.


(** No character of [s] is [a]. *)
Definition without (a : Ascii.ascii) (s : string) : Prop :=
  ~ In a (list_ascii_of_string s).


(** What the similarity analysis reads of a row: the features and the
    driver. *)
Definition analysed (r : ClusteredRow) : Features * string :=
  (feats (row r), Driver (row r)).

(** A table with every label replaced by 0. *)
Definition unlabelled (table : list ClusteredRow) : list ClusteredRow :=
  map (fun r => mkClusteredRow (row r) 0%Z) table.

(** The file of a driver gave at least one row. *)
Definition yields_rows (file : string * DataFrame) : bool :=
  match result (process_driver_telemetry (snd file) (fst file)) with
  | Returns (Some (_ :: _)) => true
  | _ => false
  end.

(** The frames collected by the loop of [load_track_data], each of the
    driver of its file. *)
Definition frames_of (codes : list string) (frames : list (list FeatureRow)) : Prop :=
  Forall2 (fun code frame => frame <> [] /\ Forall (fun r => Driver r = code) frame)
          codes frames.

(** Sixty clean samples of one lap, and a track directory of two such
    files. *)
Definition telemetry_lap (offset : nat) : DataFrame :=
  {| nrows := 60;
     columns := list_to_map
       [ ("RPM"%string, Float64 (map (fun i => 9000 + of_nat (10 * i + offset)) (seq 0 60)));
         ("Speed"%string, Float64 (map (fun i => of_nat (100 + i + offset)) (seq 0 60)));
         ("nGear"%string, Float64 (map (fun i => of_nat (1 + i / 10)) (seq 0 60)));
         ("Throttle"%string, Float64 (map (fun i => of_nat (i + offset)) (seq 0 60)));
         ("Brake"%string, Boolean (map Nat.even (seq 0 60))) ] |}.

Definition lap_files : list (string * DataFrame) :=
  [("VER"%string, telemetry_lap 0); ("HAM"%string, telemetry_lap 7)].

Definition lap_profiles : list (string * list (string * float)) :=
  Eval vm_compute in
    match result (analyze_single_track first_rows all_noise unit no_figure "Japan"
                    (Some lap_files) None false) with
    | Returns (_, Some driver_profiles) => driver_profiles
    | _ => []
    end.


(** * Properties *)

(** ** Floats, lists and the monad *)

Lemma fill_zero_defined x : is_nan (fill 0 x) = false.
Proof.
  unfold fill. destruct (is_nan x) eqn:E; [reflexivity | exact E].
Qed.


Lemma inf_to_nan_finite x : negb (is_nan (inf_to_nan x)) = is_finite x.
Proof.
  unfold inf_to_nan, is_finite. destruct (is_infinity x).
  - rewrite orb_true_r. reflexivity.
  - rewrite orb_false_r. reflexivity.
Qed.

Lemma inf_to_nan_id x : is_finite x = true -> inf_to_nan x = x.
Proof.
  unfold inf_to_nan, is_finite. destruct (is_infinity x); [|reflexivity].
  rewrite orb_true_r. discriminate.
Qed.







Lemma nth_map_seq {A} (f : nat -> A) n i d :
  (i < n)%nat -> nth i (map f (seq 0 n)) d = f i.
Proof.
  intros Hi.
  rewrite (nth_indep _ d (f 0%nat)) by (rewrite length_map, length_seq; exact Hi).
  rewrite (map_nth f), seq_nth by exact Hi. reflexivity.
Qed.




Lemma bind_returns {A B} (c : M A) (k : A -> M B) b :
  result (bind c k) = Returns b ->
  exists a, result c = Returns a /\ result (k a) = Returns b.
Proof.
  destruct c as [out [a|e]]; simpl.
  - destruct (k a) as [out' r] eqn:E. simpl. intros ->.
    exists a. rewrite E. auto.
  - discriminate.
Qed.

Lemma bind_result {A B} (c : M A) (k : A -> M B) a :
  result c = Returns a -> result (bind c k) = result (k a).
Proof.
  destruct c as [out r]; simpl. intros ->. destruct (k a); reflexivity.
Qed.


Lemma bind_raises {A B} (c : M A) (k : A -> M B) e :
  result c = Raises e -> bind c k = (output c, Raises e).
Proof. destruct c as [out r]; simpl. intros ->. reflexivity. Qed.


(** ** The feature engineer *)

Lemma values_Features_map f r : values (Features_map f r) = map f (values r).
Proof. destruct r; reflexivity. Qed.

Lemma Features_map_id f r :
  Forall (fun x => f x = x) (values r) -> Features_map f r = r.
Proof.
  destruct r; unfold values, Features_map; simpl. intros H.
  repeat match goal with
         | H : Forall _ (_ :: _) |- _ =>
             let E := fresh "E" in
             apply Forall_cons_iff in H; destruct H as [E H]; rewrite E
         end.
  reflexivity.
Qed.

Lemma dropna_replace_inf rows :
  dropna (replace_inf rows) = List.filter all_finite rows.
Proof.
  unfold dropna, replace_inf.
  induction rows as [|r rows IH]; [reflexivity|]. cbn [map List.filter].
  assert (Hb : forallb (fun x => negb (is_nan x)) (values (Features_map inf_to_nan r))
               = all_finite r).
  { rewrite values_Features_map. unfold all_finite.
    induction (values r) as [|x l IHl]; simpl; [reflexivity|].
    rewrite inf_to_nan_finite, IHl. reflexivity. }
  rewrite Hb, IH. destruct (all_finite r) eqn:E; [|reflexivity].
  f_equal. apply Features_map_id.
  unfold all_finite in E. rewrite forallb_forall in E.
  apply List.Forall_forall. intros x Hx. apply inf_to_nan_id, E, Hx.
Qed.

Lemma all_finite_spec r :
  all_finite r = true <-> Forall (fun x => is_finite x = true) (values r).
Proof.
  unfold all_finite. rewrite forallb_forall, List.Forall_forall. reflexivity.
Qed.

Lemma brake_step_output df : output (brake_step df) = [].
Proof.
  unfold brake_step. destruct (columns df !! "Brake"%string) as [b|].
  - destruct b as [s|b]; simpl; [destruct (forallb is_finite s)|]; reflexivity.
  - destruct (negb (has_column (columns df) "nBrake")); reflexivity.
Qed.

(** The three ways through [process_driver_telemetry]. *)
Lemma process_brake_error df code e :
  result (brake_step df) = Raises e ->
  process_driver_telemetry df code = ([ErrorProcessing code e], Returns None).
Proof.
  intros Hb. unfold process_driver_telemetry.
  pose proof (brake_step_output df) as Ho.
  destruct (brake_step df) as [out r]. simpl in Hb, Ho. subst. reflexivity.
Qed.

Lemma process_missing df code df1 :
  result (brake_step df) = Returns df1 ->
  missing_after df1 <> [] ->
  process_driver_telemetry df code =
    ([MissingColumns (missing_after df1) code], Returns None).
Proof.
  intros Hb Hm. unfold process_driver_telemetry.
  pose proof (brake_step_output df) as Ho.
  destruct (brake_step df) as [out r]. simpl in Hb, Ho. subst.
  cbv beta iota zeta delta [bind try_except]. fold (missing_after df1).
  destruct (missing_after df1) as [|m ms]; [congruence | reflexivity].
Qed.

Lemma process_complete df code df1 :
  result (brake_step df) = Returns df1 ->
  missing_after df1 = [] ->
  exists team,
    result (get_driver_team code) = Returns team /\
    process_driver_telemetry df code =
      (output (get_driver_team code),
       Returns (Some (map (fun f => mkFeatureRow f code team)
                          (List.filter all_finite
                             (features_frame (nrows df) (drop_optional df1)))))).
Proof.
  intros Hb Hm. unfold process_driver_telemetry.
  pose proof (brake_step_output df) as Ho.
  destruct (brake_step df) as [out r]. simpl in Hb, Ho. subst.
  cbv beta iota zeta delta [bind try_except]. fold (missing_after df1).
  rewrite Hm, dropna_replace_inf.
  unfold get_driver_team. destruct (find_team TEAMS code) as [team|];
    eexists; split; reflexivity.
Qed.

(** What a successful call returns: the finite rows of the features frame,
    with the driver and the team attached. *)
Lemma process_returns df code rows :
  result (process_driver_telemetry df code) = Returns (Some rows) ->
  exists df1 team,
    result (brake_step df) = Returns df1 /\
    missing_after df1 = [] /\
    rows = map (fun f => mkFeatureRow f code team)
               (List.filter all_finite (features_frame (nrows df) (drop_optional df1))).
Proof.
  intros H. destruct (result (brake_step df)) as [df1|e] eqn:Hb.
  - destruct (missing_after df1) as [|m ms] eqn:Hm.
    + destruct (process_complete df code df1 Hb Hm) as (team & _ & E).
      rewrite E in H. simpl in H. inversion H. eauto.
    + rewrite (process_missing df code df1 Hb) in H by congruence.
      rewrite Hm in H. discriminate H.
  - rewrite (process_brake_error df code e Hb) in H. discriminate H.
Qed.

Lemma process_never_raises df code :
  exists r, result (process_driver_telemetry df code) = Returns r.
Proof.
  destruct (result (brake_step df)) as [df1|e] eqn:Hb.
  - destruct (missing_after df1) as [|m ms] eqn:Hm.
    + destruct (process_complete df code df1 Hb Hm) as (team & _ & E).
      rewrite E. simpl. eauto.
    + rewrite (process_missing df code df1 Hb) by congruence. simpl. eauto.
  - rewrite (process_brake_error df code e Hb). simpl. eauto.
Qed.

(** ** Columns through the brake step and the optional drops *)

Lemma drop_fold_lookup (l : list string) (cols : gmap string column) k :
  ~ In k l ->
  fold_left (fun d col => if has_column d col then delete col d else d) l cols !! k
  = cols !! k.
Proof.
  revert cols. induction l as [|a l IH]; intros cols Hk; simpl; [reflexivity|].
  rewrite IH by (intros Hin; apply Hk; right; exact Hin).
  destruct (has_column cols a); [|reflexivity].
  apply lookup_delete_ne. intros ->. apply Hk. left. reflexivity.
Qed.


Lemma drop_optional_lookup cols k :
  ~ In k columns_to_drop -> drop_optional cols !! k = cols !! k.
Proof. apply drop_fold_lookup. Qed.


Lemma astype_int_raises c e :
  result (astype_int c) = Raises e <->
  e = IntCastingNaNError /\ exists s, c = Float64 s /\ forallb is_finite s = false.
Proof.
  destruct c as [s|b]; simpl.
  - destruct (forallb is_finite s) eqn:E; simpl; split.
    + discriminate.
    + intros (_ & s' & Hs & Hf). inversion Hs; subst. congruence.
    + intros H. inversion H. eauto.
    + intros (-> & _). reflexivity.
  - split; [discriminate|]. intros (_ & s & Hs & _). discriminate.
Qed.

(** The brake step fails only on a numeric [Brake] column holding a NaN or
    an infinity. *)
Lemma brake_step_raises df e :
  result (brake_step df) = Raises e <->
  e = IntCastingNaNError /\
  exists s, columns df !! "Brake"%string = Some (Float64 s) /\ forallb is_finite s = false.
Proof.
  unfold brake_step. destruct (columns df !! "Brake"%string) as [b|] eqn:Eb.
  - destruct (result (astype_int b)) as [nb|e'] eqn:Ea.
    + rewrite (bind_result _ _ nb Ea). simpl. split; [discriminate|].
      intros (-> & s & Hs & Hf). inversion Hs; subst.
      assert (Hr : result (astype_int (Float64 s)) = Raises IntCastingNaNError)
        by (apply astype_int_raises; eauto).
      congruence.
    + rewrite (bind_raises _ _ e' Ea). simpl.
      apply astype_int_raises in Ea. destruct Ea as (-> & s & -> & Hf).
      split; [intros H; inversion H; eauto | intros (-> & _); reflexivity].
  - destruct (negb (has_column (columns df) "nBrake")); simpl;
      (split; [discriminate | intros (_ & s & Hs & _); discriminate]).
Qed.

Lemma brake_step_lookup df df1 k :
  result (brake_step df) = Returns df1 ->
  k <> "Brake"%string -> k <> "nBrake"%string ->
  df1 !! k = columns df !! k.
Proof.
  unfold brake_step. intros H Hk Hk'.
  destruct (columns df !! "Brake"%string) as [b|].
  - apply bind_returns in H. destruct H as (nb & _ & H). simpl in H.
    inversion H. rewrite lookup_delete_ne, lookup_insert_ne by congruence. reflexivity.
  - destruct (negb (has_column (columns df) "nBrake")); simpl in H; inversion H;
      [rewrite lookup_insert_ne by congruence|]; reflexivity.
Qed.


Lemma missing_after_in df df1 :
  result (brake_step df) = Returns df1 -> missing_after df1 = missing_in df.
Proof.
  intros Hb. unfold missing_after, missing_in. apply filter_ext_in.
  intros c Hc. unfold has_column.
  rewrite drop_optional_lookup, (brake_step_lookup df df1 c Hb); auto.
  - intros ->. vm_compute in Hc. intuition discriminate.
  - intros ->. vm_compute in Hc. intuition discriminate.
  - intros Hd. unfold required_cols, columns_to_drop in *. simpl in Hc, Hd.
    intuition (subst; discriminate).
Qed.

Lemma lacks_required_missing df : lacks_required df <-> missing_in df <> [].
Proof.
  unfold lacks_required, missing_in. split.
  - intros (c & Hc & Hn) E.
    assert (Hin : In c (List.filter (fun c => negb (has_column (columns df) c)) required_cols)).
    { apply filter_In. split; [exact Hc|]. unfold has_column. rewrite Hn. reflexivity. }
    rewrite E in Hin. exact Hin.
  - intros Hne.
    destruct (List.filter _ required_cols) as [|c l] eqn:E; [congruence|].
    assert (Hin : In c (c :: l)) by (left; reflexivity).
    rewrite <- E in Hin. apply filter_In in Hin. destruct Hin as [Hc Hh].
    exists c. split; [exact Hc|]. unfold has_column in Hh.
    destruct (columns df !! c); [discriminate | reflexivity].
Qed.


(** ** The derived fields, position by position *)

Lemma nth_error_map_seq {A} (f : nat -> A) n i r :
  nth_error (map f (seq 0 n)) i = Some r -> (i < n)%nat /\ r = f i.
Proof.
  intros H.
  assert (Hi : (i < n)%nat).
  { assert (Hl : (i < length (map f (seq 0 n)))%nat)
      by (apply List.nth_error_Some; congruence).
    rewrite length_map, length_seq in Hl. exact Hl. }
  split; [exact Hi|].
  apply (nth_error_nth _ _ r) in H. rewrite nth_map_seq in H by exact Hi. congruence.
Qed.




(** ** Claims on the feature engineer *)



Lemma telemetry_gap_returns :
  result (process_driver_telemetry telemetry_gap "VER") = Returns (Some telemetry_gap_rows).
Proof. vm_compute. reflexivity. Qed.






Lemma telemetry_no_rpm_lacks : lacks_required telemetry_no_rpm.
Proof. exists "RPM"%string. split; [left; reflexivity | reflexivity]. Qed.

Lemma telemetry_no_brake_complete :
  ~ lacks_required telemetry_no_brake /\
  columns telemetry_no_brake !! "Brake"%string = None /\
  columns telemetry_no_brake !! "nBrake"%string = None.
Proof.
  split; [|split; reflexivity].
  intros (c & Hc & Hn). simpl in Hc.
  destruct Hc as [<-|[<-|[<-|[<-|[]]]]]; vm_compute in Hn; discriminate Hn.
Qed.

Lemma load_step_skips acc code df :
  result (process_driver_telemetry df code) = Returns None ->
  load_step acc (code, df) =
    (Processing code :: output (process_driver_telemetry df code) ++ [FailedToProcess code],
     Returns acc).
Proof.
  intros H. destruct acc as [all_data driver_stats]. unfold load_step.
  destruct (process_driver_telemetry df code) as [out r]. simpl in H. subst r.
  reflexivity.
Qed.

(** C7 (amended): missing columns.  When the parsed data lacks any of RPM,
    Speed, nGear or Throttle, [process_driver_telemetry] returns None after
    one report: the missing columns or, when a numeric Brake column holds a
    NaN or an infinity and cannot be converted to integers, that error;
    [load_track_data]'s loop reports the failure, leaves its accumulators as
    they are and goes on with the next file.  When only the brake column is
    missing (neither Brake nor nBrake), rows are returned and every one has
    nBrake = 0. *)
Theorem C7_missing_columns df driver_code :
  (lacks_required df ->
     result (process_driver_telemetry df driver_code) = Returns None /\
     (forall df1, result (brake_step df) = Returns df1 ->
        output (process_driver_telemetry df driver_code)
        = [MissingColumns (missing_in df) driver_code]) /\
     (forall e, result (brake_step df) = Raises e ->
        output (process_driver_telemetry df driver_code)
        = [ErrorProcessing driver_code e] /\
        exists s, columns df !! "Brake"%string = Some (Float64 s) /\
                  forallb is_finite s = false) /\
     forall acc rest,
       load_step acc (driver_code, df) =
         (Processing driver_code
            :: output (process_driver_telemetry df driver_code)
            ++ [FailedToProcess driver_code],
          Returns acc) /\
       result (foldM load_step acc ((driver_code, df) :: rest))
       = result (foldM load_step acc rest)) /\
  (~ lacks_required df ->
   columns df !! "Brake"%string = None ->
   columns df !! "nBrake"%string = None ->
   exists rows,
     result (process_driver_telemetry df driver_code) = Returns (Some rows) /\
     Forall (fun r => nBrake (feats r) = 0) rows).
Proof.
  split.
  - intros Hlack.
    assert (Hnone : result (process_driver_telemetry df driver_code) = Returns None).
    { destruct (result (brake_step df)) as [df1|e] eqn:Hb.
      - rewrite (process_missing df driver_code df1 Hb); [reflexivity|].
        rewrite (missing_after_in df df1 Hb). apply lacks_required_missing, Hlack.
      - rewrite (process_brake_error df driver_code e Hb). reflexivity. }
    split; [exact Hnone|]. split; [|split].
    + intros df1 Hb. rewrite (process_missing df driver_code df1 Hb).
      * rewrite (missing_after_in df df1 Hb). reflexivity.
      * rewrite (missing_after_in df df1 Hb). apply lacks_required_missing, Hlack.
    + intros e Hb. rewrite (process_brake_error df driver_code e Hb).
      split; [reflexivity|]. apply brake_step_raises in Hb. tauto.
    + intros acc rest. pose proof (load_step_skips acc driver_code df Hnone) as Hs.
      split; [exact Hs|]. cbn [foldM].
      rewrite (bind_result _ _ acc); [reflexivity | rewrite Hs; reflexivity].
  - intros Hcomplete HB HnB.
    assert (Hb : brake_step df
                 = ret (<["nBrake"%string := Float64 (repeat 0 (nrows df))]> (columns df))).
    { unfold brake_step, has_column. rewrite HB, HnB. reflexivity. }
    set (df1 := <["nBrake"%string := Float64 (repeat 0 (nrows df))]> (columns df)) in *.
    assert (Hr : result (brake_step df) = Returns df1) by (rewrite Hb; reflexivity).
    assert (Hm : missing_after df1 = []).
    { rewrite (missing_after_in df df1 Hr).
      destruct (missing_in df) eqn:E; [reflexivity|].
      exfalso. apply Hcomplete, lacks_required_missing. congruence. }
    destruct (process_complete df driver_code df1 Hr Hm) as (team & _ & E).
    eexists. rewrite E. split; [reflexivity|].
    apply List.Forall_forall. intros r Hin.
    apply in_map_iff in Hin. destruct Hin as (f & <- & Hf). cbn [feats].
    apply filter_In in Hf. destruct Hf as [Hf _].
    apply In_nth_error in Hf. destruct Hf as [i Hi].
    unfold features_frame, derive in Hi. apply nth_error_map_seq in Hi.
    destruct Hi as [Hlt ->]. cbn [nBrake].
    unfold get_column. rewrite drop_optional_lookup by (vm_compute; intuition discriminate).
    unfold df1. rewrite lookup_insert_eq. cbn [to_numeric]. unfold iloc.
    rewrite (nth_indep _ nan 0) by (rewrite repeat_length; exact Hlt).
    apply nth_repeat.
Qed.

Lemma C7_missing_columns_witness :
  result (process_driver_telemetry telemetry_no_rpm "VER") = Returns None /\
  exists rows,
    result (process_driver_telemetry telemetry_no_brake "VER") = Returns (Some rows) /\
    Forall (fun r => nBrake (feats r) = 0) rows.
Proof.
  split.
  - exact (proj1 (proj1 (C7_missing_columns telemetry_no_rpm "VER")
                        telemetry_no_rpm_lacks)).
  - exact (proj2 (C7_missing_columns telemetry_no_brake "VER")
                  (proj1 telemetry_no_brake_complete)
                  (proj1 (proj2 telemetry_no_brake_complete))
                  (proj2 (proj2 telemetry_no_brake_complete))).
Defined.

(** C7, as stated, fails: [telemetry_no_rpm] lacks RPM, and what is
    reported is the failed conversion of its Brake column, not the missing
    column. *)
Lemma C7_counterexample : ~ missing_reported telemetry_no_rpm "VER".
Proof.
  intros H. specialize (H telemetry_no_rpm_lacks).
  apply (f_equal fst) in H. vm_compute in H. discriminate H.
Qed.

(** ** Balancing and clustering *)


Lemma unique_In l x : In x (unique l) <-> In x l.
Proof.
  induction l as [|a l IH]; simpl; [tauto|].
  rewrite filter_In, IH. split.
  - intros [->|[H _]]; auto.
  - intros [->|H]; [auto|].
    destruct (String.eqb x a) eqn:E.
    + apply String.eqb_eq in E. auto.
    + right. split; [exact H | reflexivity].
Qed.

Lemma unique_NoDup l : List.NoDup (unique l).
Proof.
  induction l as [|a l IH]; simpl; [constructor|].
  apply List.NoDup_cons.
  - rewrite filter_In. intros [_ H]. cbv beta in H.
    rewrite String.eqb_refl in H. discriminate.
  - apply List.NoDup_filter, IH.
Qed.

Lemma take_In {A} locs (rows : list A) r : In r (take locs rows) -> In r rows.
Proof.
  unfold take. rewrite in_flat_map. intros (i & _ & H).
  destruct (nth_error rows i) as [x|] eqn:E; simpl in H; [|tauto].
  destruct H as [<-|[]]. eapply nth_error_In, E.
Qed.

Lemma take_length {A} locs (rows : list A) :
  Forall (fun i => (i < length rows)%nat) locs -> length (take locs rows) = length locs.
Proof.
  unfold take. induction 1 as [|i locs Hi _ IH]; simpl; [reflexivity|].
  destruct (nth_error rows i) eqn:E.
  - simpl. f_equal. exact IH.
  - apply nth_error_None in E. lia.
Qed.

Lemma rows_of_In {A} (driver_of : A -> string) d data r :
  In r (rows_of driver_of d data) <-> In r data /\ driver_of r = d.
Proof. unfold rows_of. rewrite filter_In, String.eqb_eq. reflexivity. Qed.

Lemma rows_of_map {A B} (g : A -> B) (driver_of : B -> string) d (l : list A) :
  map g (rows_of (fun a => driver_of (g a)) d l) = rows_of driver_of d (map g l).
Proof.
  unfold rows_of. induction l as [|a l IH]; simpl; [reflexivity|].
  destruct (String.eqb (driver_of (g a)) d); simpl; rewrite IH; reflexivity.
Qed.

Lemma rows_of_all {A} (driver_of : A -> string) d l :
  Forall (fun r => driver_of r = d) l -> rows_of driver_of d l = l.
Proof.
  unfold rows_of. induction 1 as [|r l Hr _ IH]; simpl; [reflexivity|].
  rewrite Hr, String.eqb_refl, IH. reflexivity.
Qed.

Lemma rows_of_none {A} (driver_of : A -> string) d l :
  Forall (fun r => driver_of r <> d) l -> rows_of driver_of d l = [].
Proof.
  unfold rows_of. induction 1 as [|r l Hr _ IH]; simpl; [reflexivity|].
  destruct (String.eqb_spec (driver_of r) d); [contradiction | exact IH].
Qed.

Lemma rows_of_app {A} (driver_of : A -> string) d l l' :
  rows_of driver_of d (l ++ l') = rows_of driver_of d l ++ rows_of driver_of d l'.
Proof. unfold rows_of. apply List.filter_app. Qed.

(** In a concatenation of per-driver frames, over distinct drivers, the rows
    of one driver are that driver's frame. *)
Lemma rows_of_concat {A} (driver_of : A -> string) drivers (frames : list (list A)) d s :
  List.NoDup drivers ->
  Forall2 (fun d' s' => Forall (fun r => driver_of r = d') s') drivers frames ->
  Forall2 (fun d' s' => d' = d -> s' = s) drivers frames ->
  In d drivers ->
  rows_of driver_of d (concat frames) = s.
Proof.
  intros Hnd Hown. revert Hnd.
  induction Hown as [|d' s' drivers frames Hs' Hown IH]; intros Hnd Hsel Hin;
    [destruct Hin|].
  inversion Hnd as [|? ? Hnotin Hnd']; subst.
  inversion Hsel as [|? ? ? ? Hsel1 Hsel']; subst.
  simpl. rewrite rows_of_app. destruct Hin as [->|Hin].
  - rewrite (Hsel1 eq_refl) in *. rewrite (rows_of_all _ _ _ Hs').
    assert (Hrest : rows_of driver_of d (concat frames) = []).
    { apply rows_of_none. apply Forall_concat.
      clear - Hown Hnotin. induction Hown as [|d2 s2 ds fs H2 _ IH2]; constructor.
      - eapply List.Forall_impl; [|exact H2]. simpl. intros r -> ->. apply Hnotin. left. reflexivity.
      - apply IH2. intros H. apply Hnotin. right. exact H. }
    rewrite Hrest. apply app_nil_r.
  - assert (Hne : d' <> d) by (intros ->; contradiction).
    rewrite rows_of_none.
    + simpl. apply IH; assumption.
    + eapply List.Forall_impl; [|exact Hs']. simpl. intros r -> . exact Hne.
Qed.

Lemma mapM_returns {A B} (f : A -> M B) l bs :
  result (mapM f l) = Returns bs -> Forall2 (fun a b => result (f a) = Returns b) l bs.
Proof.
  revert bs. induction l as [|a l IH]; intros bs H; simpl in H.
  - inversion H. constructor.
  - apply bind_returns in H. destruct H as (b & Hb & H).
    apply bind_returns in H. destruct H as (bs' & Hbs & H).
    simpl in H. inversion H. constructor; auto.
Qed.

Lemma mapM_total {A B} (f : A -> M B) l :
  Forall (fun a => exists b, result (f a) = Returns b) l ->
  exists bs, result (mapM f l) = Returns bs.
Proof.
  induction 1 as [|a l [b Hb] _ [bs Hbs]]; simpl; [eexists; reflexivity|].
  exists (b :: bs). rewrite (bind_result _ _ b Hb), (bind_result _ _ bs Hbs). reflexivity.
Qed.

Lemma map2_rows (cd : list FeatureRow) (clusters : list Z) :
  length clusters = length cd ->
  map row (map2 mkClusteredRow cd clusters) = cd /\
  map Cluster (map2 mkClusteredRow cd clusters) = clusters.
Proof.
  revert clusters. induction cd as [|r cd IH]; intros [|c clusters] H; simpl in *;
    try discriminate; [auto|].
  destruct (IH clusters) as [H1 H2]; [lia|]. rewrite H1, H2. auto.
Qed.

Lemma length_fit_transform (X : list (list float)) : length (fit_transform X) = length X.
Proof. unfold fit_transform. apply length_map. Qed.

Lemma length_nan_to_num X : length (nan_to_num X) = length X.
Proof. unfold nan_to_num. apply length_map. Qed.

Section ClusteringProperties.
Variable choice : nat -> nat -> list nat.
Variable dbscan : float -> nat -> list (list float) -> list Z.

(** What a returned table is made of. *)
Lemma cluster_track_data_inv data track_name cap table :
  result (cluster_track_data choice dbscan data track_name cap) = Returns table ->
  exists sampled_data,
    Forall2 (fun d s => result (driver_sample choice data cap d) = Returns s)
            (unique (map Driver data)) sampled_data /\
    map row table = concat sampled_data /\
    map Cluster table = labels_of dbscan track_name (concat sampled_data).
Proof using Type.
  unfold cluster_track_data, labels_of. cbv zeta.
  generalize (dict_get TRACK_CLUSTERING_PARAMS track_name DEFAULT_CLUSTERING_PARAMS).
  intros params H.
  apply bind_returns in H. destruct H as (sampled & Hs & H).
  apply bind_returns in H. destruct H as (cd & Hcd & H).
  apply bind_returns in H. destruct H as (scaled & Hsc & H).
  apply bind_returns in H. destruct H as (tbl & Htbl & H).
  apply bind_returns in H. destruct H as (u & _ & H).
  cbv [ret result snd] in H. injection H as <-.
  exists sampled. split; [apply mapM_returns, Hs|].
  assert (cd = concat sampled) as ->.
  { unfold pd_concat in Hcd. destruct sampled; simpl in Hcd; inversion Hcd. reflexivity. }
  assert (scaled = fit_transform (features_of (concat sampled))) as ->.
  { unfold scaler_fit_transform in Hsc. fold (features_of (concat sampled)) in Hsc.
    destruct (features_of (concat sampled)); simpl in Hsc; inversion Hsc. reflexivity. }
  unfold set_Cluster in Htbl.
  match type of Htbl with
  | context [Nat.eqb ?a ?b] => destruct (Nat.eqb_spec a b) as [E|E]
  end; cbv [ret raise result snd] in Htbl; [|discriminate Htbl].
  injection Htbl as <-.
  destruct (map2_rows _ _ E) as [Hr1 Hr2]. rewrite Hr1, Hr2. auto.
Qed.

Lemma driver_sample_rows data cap d s :
  result (driver_sample choice data cap d) = Returns s ->
  Forall (fun r => In r data /\ Driver r = d) s.
Proof using Type.
  unfold driver_sample, sample. intros H. apply List.Forall_forall. intros r Hr.
  apply (rows_of_In Driver).
  destruct (cap <? _)%Z.
  - destruct (cap <? 0)%Z; [discriminate|].
    destruct (_ <? cap)%Z; [discriminate|].
    simpl in H. inversion H; subst. eapply take_In, Hr.
  - simpl in H. inversion H; subst. exact Hr.
Qed.
End ClusteringProperties.

Lemma first_rows_without_replacement N n :
  (n <= N)%nat ->
  length (first_rows N n) = n /\ List.NoDup (first_rows N n) /\
  Forall (fun i => (i < N)%nat) (first_rows N n).
Proof.
  intros Hn. unfold first_rows. split; [apply length_seq|]. split; [apply List.seq_NoDup|].
  apply List.Forall_forall. intros i Hi. apply in_seq in Hi. lia.
Qed.

Lemma all_noise_labels e m X : length (all_noise e m X) = length X.
Proof. apply length_map. Qed.

Lemma track_table_returned :
  result (cluster_track_data first_rows all_noise track_rows "Japan" 3)
  = Returns track_table.
Proof. vm_compute. reflexivity. Qed.

Section Balancing.
Variable choice : nat -> nat -> list nat.
Variable dbscan : float -> nat -> list (list float) -> list Z.

(** What [DataFrame.sample] promises of its draw without replacement, and
    [fit_predict] of its labels. *)
Hypothesis choice_without_replacement : forall N n,
  (n <= N)%nat ->
  length (choice N n) = n /\ List.NoDup (choice N n) /\
  Forall (fun i => (i < N)%nat) (choice N n).
Hypothesis dbscan_labels : forall e m X, length (dbscan e m X) = length X.

Lemma driver_sample_balanced data cap d :
  (0 <= cap)%Z ->
  exists s, result (driver_sample choice data cap d) = Returns s /\
            balanced cap (rows_of Driver d data) s.
Proof using choice_without_replacement.
  intros Hcap. unfold driver_sample, sample, balanced.
  set (dd := rows_of Driver d data).
  destruct (Z.ltb_spec cap (Z.of_nat (length dd))) as [Hlt|Hge].
  - destruct (Z.ltb_spec cap 0); [lia|].
    destruct (Z.ltb_spec (Z.of_nat (length dd)) cap); [lia|].
    destruct (choice_without_replacement (length dd) (Z.to_nat cap)) as (Hl & Hnd & Hb);
      [lia|].
    eexists. split; [reflexivity|]. split.
    + rewrite take_length, Hl by exact Hb. lia.
    + eexists. repeat split; eauto.
  - eexists. split; [reflexivity|]. split; [lia | reflexivity].
Qed.

Lemma cluster_track_data_total data track_name cap :
  data <> [] -> (0 < cap)%Z ->
  exists table,
    result (cluster_track_data choice dbscan data track_name cap) = Returns table.
Proof using choice_without_replacement dbscan_labels.
  intros Hne Hcap.
  destruct (mapM_total (driver_sample choice data cap) (unique (map Driver data)))
    as [sampled Hs].
  { apply List.Forall_forall. intros d _.
    destruct (driver_sample_balanced data cap d) as (s & Hr & _); [lia | eauto]. }
  pose proof (mapM_returns _ _ _ Hs) as Hall.
  destruct data as [|r0 data']; [congruence|]. set (data := r0 :: data') in *.
  assert (Hd0 : unique (map Driver data) =
                Driver r0 :: List.filter (fun y => negb (String.eqb y (Driver r0)))
                                         (unique (map Driver data'))) by reflexivity.
  rewrite Hd0 in Hall. inversion Hall as [|? s0 ? sampled' H0 Hrest]; subst.
  assert (Hs0 : s0 <> []).
  { destruct (driver_sample_balanced data cap (Driver r0)) as (s & Hr & Hlen & _); [lia|].
    rewrite Hr in H0. inversion H0; subst s0.
    assert (Hin : In r0 (rows_of Driver (Driver r0) data))
      by (apply rows_of_In; split; [left|]; reflexivity).
    destruct (rows_of Driver (Driver r0) data); [destruct Hin|].
    intros ->. cbn [length] in Hlen. lia. }
  set (cd := concat (s0 :: sampled')).
  assert (Hcd : cd <> []).
  { unfold cd. simpl. destruct s0; [congruence | discriminate]. }
  unfold cluster_track_data.
  rewrite (bind_result _ _ _ Hs).
  rewrite (bind_result _ _ cd) by reflexivity.
  rewrite (bind_result _ _ (fit_transform (features_of cd))).
  2:{ unfold scaler_fit_transform, features_of.
      destruct cd; [congruence | reflexivity]. }
  fold (features_of cd).
  set (clusters := dbscan _ _ _).
  assert (Hlen : length clusters = length cd).
  { unfold clusters. rewrite dbscan_labels, length_fit_transform.
    unfold features_of. rewrite length_nan_to_num, length_map. reflexivity. }
  rewrite (bind_result _ _ (map2 mkClusteredRow cd clusters)).
  2:{ unfold set_Cluster. rewrite Hlen, Nat.eqb_refl. reflexivity. }
  eexists. reflexivity.
Qed.

(** C2: the balancing invariant.  For a non-empty table and a positive cap,
    [cluster_track_data] returns a table in which every driver of the input
    keeps min(row count, cap) rows: all of them when the count does not
    exceed the cap, and otherwise the rows at [cap] distinct positions of
    that driver's rows, drawn by the seeded sampler; the cap defaults to
    800. *)
Theorem C2_balancing data track_name cap :
  data <> [] -> (0 < cap)%Z ->
  default_n_samples_per_driver = 800%Z /\
  exists table,
    result (cluster_track_data choice dbscan data track_name cap) = Returns table /\
    forall driver, In driver (map Driver data) ->
      let driver_data := rows_of Driver driver data in
      let kept := rows_of (fun r => Driver (row r)) driver table in
      length kept = Nat.min (length driver_data) (Z.to_nat cap) /\
      balanced cap driver_data (map row kept).
Proof using choice_without_replacement dbscan_labels.
  intros Hne Hcap. split; [reflexivity|].
  destruct (cluster_track_data_total data track_name cap Hne Hcap) as [table Ht].
  exists table. split; [exact Ht|]. intros driver Hin. cbv zeta.
  destruct (cluster_track_data_inv choice dbscan _ _ _ _ Ht) as (sampled & Hall & Hrow & _).
  destruct (driver_sample_balanced data cap driver) as (s & Hr & Hbal); [lia|].
  assert (Hkept : map row (rows_of (fun r => Driver (row r)) driver table) = s).
  { rewrite (rows_of_map row Driver), Hrow.
    apply (rows_of_concat Driver (unique (map Driver data))).
    - apply unique_NoDup.
    - eapply Forall2_impl; [exact Hall|]. simpl. intros d' s' H'.
      eapply List.Forall_impl; [|apply (driver_sample_rows choice data cap d' s' H')].
      simpl. tauto.
    - eapply Forall2_impl; [exact Hall|]. simpl. intros d' s' H' ->. congruence.
    - apply unique_In, Hin. }
  rewrite Hkept. split; [|exact Hbal].
  rewrite <- (length_map row), Hkept. apply Hbal.
Qed.
End Balancing.

Lemma C2_balancing_witness :
  default_n_samples_per_driver = 800%Z /\
  exists table,
    result (cluster_track_data first_rows all_noise track_rows "Japan" 3) = Returns table /\
    forall driver, In driver (map Driver track_rows) ->
      let driver_data := rows_of Driver driver track_rows in
      let kept := rows_of (fun r => Driver (row r)) driver table in
      length kept = Nat.min (length driver_data) (Z.to_nat 3) /\
      balanced 3 driver_data (map row kept).
Proof.
  apply (C2_balancing first_rows all_noise first_rows_without_replacement
           all_noise_labels track_rows "Japan" 3).
  - discriminate.
  - lia.
Defined.

(** C9: the frame property of clustering.  Every row of a returned table is
    a row of the input with its features, driver and team as they were, and
    the one added column holds the labels DBSCAN gave to the table's own
    rows. *)
Theorem C9_clustering_frame choice dbscan data track_name cap table :
  result (cluster_track_data choice dbscan data track_name cap) = Returns table ->
  Forall (fun cr => exists r, In r data /\ feats (row cr) = feats r /\
                              Driver (row cr) = Driver r /\ Team (row cr) = Team r)
         table /\
  map Cluster table = labels_of dbscan track_name (map row table).
Proof.
  intros H.
  destruct (cluster_track_data_inv choice dbscan _ _ _ _ H) as (sampled & Hall & Hrow & Hcl).
  split; [|rewrite Hrow; exact Hcl].
  apply List.Forall_forall. intros cr Hcr.
  assert (Hin : In (row cr) (concat sampled)) by (rewrite <- Hrow; apply in_map, Hcr).
  apply in_concat in Hin. destruct Hin as (s & Hs & Hr).
  exists (row cr). split; [|auto].
  clear - Hall Hs Hr. induction Hall as [|d s' ds ss Hd _ IH]; [destruct Hs|].
  destruct Hs as [->|Hs]; [|auto].
  pose proof (driver_sample_rows choice data cap d s Hd) as Hf.
  rewrite List.Forall_forall in Hf. apply (Hf _ Hr).
Qed.

Lemma C9_clustering_frame_witness :
  Forall (fun cr => exists r, In r track_rows /\ feats (row cr) = feats r /\
                              Driver (row cr) = Driver r /\ Team (row cr) = Team r)
         track_table /\
  map Cluster track_table = labels_of all_noise "Japan" (map row track_table).
Proof.
  exact (C9_clustering_frame first_rows all_noise track_rows "Japan" 3 track_table
           track_table_returned).
Defined.

(** ** Driver profiles *)

Lemma dict_set_fresh {V} (d : list (string * V)) key value :
  ~ In key (map fst d) -> dict_set d key value = d ++ [(key, value)].
Proof.
  induction d as [|[k v] d IH]; simpl; [reflexivity|]. intros Hk.
  destruct (String.eqb_spec k key) as [->|_]; [tauto|].
  rewrite IH by tauto. reflexivity.
Qed.

Lemma rows_of_nonempty {A} (driver_of : A -> string) d data :
  In d (map driver_of data) -> rows_of driver_of d data <> [].
Proof.
  intros Hin. apply in_map_iff in Hin. destruct Hin as (r & Hr & Hin).
  assert (H : In r (rows_of driver_of d data)) by (apply rows_of_In; auto).
  intros E. rewrite E in H. exact H.
Qed.

(** One profile per distinct driver, in order of first appearance. *)
Lemma build_profiles_eq data :
  build_profiles data =
  map (fun d => (d, driver_profile (rows_of driver_of d data)))
      (unique (map driver_of data)).
Proof.
  unfold build_profiles. fold driver_of.
  assert (Hgen : forall l acc,
             List.NoDup (map fst acc ++ l) ->
             (forall d, In d l -> rows_of driver_of d data <> []) ->
             fold_left
               (fun driver_profiles driver =>
                  let driver_data := rows_of driver_of driver data in
                  if (length driver_data =? 0)%nat then driver_profiles
                  else dict_set driver_profiles driver (driver_profile driver_data))
               l acc
             = acc ++ map (fun d => (d, driver_profile (rows_of driver_of d data))) l).
  { induction l as [|d l IH]; intros acc Hnd Hne; simpl; [symmetry; apply app_nil_r|].
    assert (Hd : rows_of driver_of d data <> []) by (apply Hne; left; reflexivity).
    destruct (rows_of driver_of d data) as [|r dd] eqn:E; [congruence|].
    cbn [length Nat.eqb]. rewrite dict_set_fresh.
    - rewrite IH.
      + rewrite <- app_assoc. reflexivity.
      + rewrite map_app. simpl. rewrite <- app_assoc. exact Hnd.
      + intros d' Hd'. apply Hne. right. exact Hd'.
    - apply List.NoDup_remove_2 in Hnd. intros Hin. apply Hnd, in_or_app. left. exact Hin. }
  rewrite (Hgen _ []); [reflexivity | apply unique_NoDup |].
  intros d Hd. apply rows_of_nonempty, unique_In, Hd.
Qed.

Lemma build_profiles_keys data :
  map fst (build_profiles data) = unique (map driver_of data).
Proof.
  rewrite build_profiles_eq, map_map. simpl. apply map_id.
Qed.

Lemma build_profiles_In data d p :
  In (d, p) (build_profiles data) ->
  In d (map driver_of data) /\ p = driver_profile (rows_of driver_of d data).
Proof.
  rewrite build_profiles_eq, in_map_iff. intros (d' & E & Hin). inversion E; subst.
  split; [apply unique_In, Hin | reflexivity].
Qed.

Lemma replace_nan_defined p :
  Forall (fun kv => is_nan (snd kv) = false) (replace_nan p).
Proof.
  unfold replace_nan. apply List.Forall_forall. intros kv Hin.
  apply in_map_iff in Hin. destruct Hin as (x & <- & _). apply fill_zero_defined.
Qed.

Lemma driver_profile_fields dd : map fst (driver_profile dd) = profile_fields.
Proof. reflexivity. Qed.

Lemma driver_profile_defined dd :
  Forall (fun kv => is_nan (snd kv) = false) (driver_profile dd).
Proof. unfold driver_profile. apply replace_nan_defined. Qed.



Lemma analyze_returns data :
  exists S D,
    result (analyze_driving_style_similarity data)
    = Returns (S, D, map fst (build_profiles data), build_profiles data).
Proof.
  unfold analyze_driving_style_similarity.
  destruct (length (build_profiles data) <? 2)%nat; eexists _, _; reflexivity.
Qed.

(** C1: no invalid value reaches the outputs.  The rows returned by the
    feature engineer are exactly the rows of the features frame whose ten
    values are all finite (the others are dropped, none is changed), so
    every field of a returned row is finite; and each of the twelve fields
    of every driver profile returned by the aggregator is defined, an
    undefined aggregate having been replaced by 0.0. *)
Theorem C1_no_invalid_values :
  (forall df driver_code rows,
      result (process_driver_telemetry df driver_code) = Returns (Some rows) ->
      Forall (fun r => Forall (fun x => is_finite x = true) (values (feats r))) rows /\
      exists df1,
        result (brake_step df) = Returns df1 /\
        map feats rows
        = List.filter all_finite (features_frame (nrows df) (drop_optional df1))) /\
  (forall data,
      exists S D drivers driver_profiles,
        result (analyze_driving_style_similarity data)
        = Returns (S, D, drivers, driver_profiles) /\
        Forall (fun dp =>
                  map fst (snd dp) = profile_fields /\
                  Forall (fun kv => is_nan (snd kv) = false) (snd dp) /\
                  exists aggregates,
                    map fst aggregates = profile_fields /\
                    snd dp = replace_nan aggregates)
               driver_profiles).
Proof.
  split.
  - intros df code rows H.
    destruct (process_returns df code rows H) as (df1 & team & Hb & _ & ->).
    split.
    + apply List.Forall_forall. intros r Hr.
      apply in_map_iff in Hr. destruct Hr as (f & <- & Hf).
      apply filter_In in Hf. apply all_finite_spec, Hf.
    + exists df1. split; [exact Hb|]. rewrite map_map. simpl. apply map_id.
  - intros data. destruct (analyze_returns data) as (S & D & E).
    exists S, D, (map fst (build_profiles data)), (build_profiles data).
    split; [exact E|].
    apply List.Forall_forall. intros [d p] Hin.
    apply build_profiles_In in Hin. destruct Hin as [_ ->]. cbn [snd].
    split; [apply driver_profile_fields|]. split; [apply driver_profile_defined|].
    unfold driver_profile. eexists. split; [|reflexivity]. reflexivity.
Qed.

Lemma C1_no_invalid_values_witness :
  Forall (fun r => Forall (fun x => is_finite x = true) (values (feats r)))
         telemetry_gap_rows.
Proof.
  exact (proj1 (proj1 C1_no_invalid_values telemetry_gap "VER" telemetry_gap_rows
                      telemetry_gap_returns)).
Defined.

(** C4: the insufficient-data guard.  A table with fewer than two distinct
    drivers yields that many profiles, and [analyze_driving_style_similarity]
    then prints its warning and returns two empty matrices with the driver
    list and the profiles; on every table it returns and raises nothing. *)
Theorem C4_insufficient_data data :
  (exists v, result (analyze_driving_style_similarity data) = Returns v) /\
  map fst (build_profiles data) = unique (map driver_of data) /\
  ((length (unique (map driver_of data)) < 2)%nat ->
   analyze_driving_style_similarity data =
     ([NotEnoughDrivers],
      Returns ([], [], unique (map driver_of data), build_profiles data))).
Proof.
  split; [|split].
  - destruct (analyze_returns data) as (S & D & E). eauto.
  - apply build_profiles_keys.
  - intros Hlt. unfold analyze_driving_style_similarity.
    assert (Hlen : length (build_profiles data) = length (unique (map driver_of data)))
      by (rewrite <- build_profiles_keys; symmetry; apply length_map).
    destruct (Nat.ltb_spec (length (build_profiles data)) 2) as [_|Hge]; [|lia].
    rewrite build_profiles_keys. reflexivity.
Qed.

Lemma C4_insufficient_data_witness :
  analyze_driving_style_similarity single_driver_table =
    ([NotEnoughDrivers],
     Returns ([], [], unique (map driver_of single_driver_table),
              build_profiles single_driver_table)).
Proof.
  apply (proj2 (proj2 (C4_insufficient_data single_driver_table))).
  vm_compute. lia.
Defined.





(** ** Similarity and distance matrices *)




Section MatrixShape.
Context {F : Type} `{Arith F}.

Lemma cosine_similarity_square (X : list (list F)) :
  square (length X) (cosine_similarity X).
Proof using Type.
  unfold square, cosine_similarity, normalize. cbv zeta. split.
  - rewrite !length_map. reflexivity.
  - apply List.Forall_forall. intros r Hr. apply in_map_iff in Hr.
    destruct Hr as (a & <- & _). rewrite !length_map. reflexivity.
Qed.




End MatrixShape.

(** *** Over the real numbers *)

Local Open Scope R_scope.












Local Close Scope R_scope.



(** ** Insights *)

(** C8 (code defect): the most similar pair.  In the specification's
    end-to-end scenario there are two drivers, hence one pair [i < j], and
    its similarity is negative, as it is for any two distinct standardized
    profiles; the loop starts from [max_similarity = 0], never updates, and
    [print_analysis_insights] reports no most similar pair at all. *)
Theorem C8_most_similar_pair_unreported :
  exists S D driver_profiles,
    result (analyze_driving_style_similarity scenario_table)
    = Returns (S, D, ["VER"; "HAM"]%string, driver_profiles) /\
    pairs 2 = [(0, 1)]%nat /\
    (entry S 0 1 nan <? 0) = true /\
    find_most_similar_pair S ["VER"; "HAM"]%string = ([], Returns (0, None)) /\
    forall a b similarity,
      ~ In (MostSimilar a b similarity)
           (output (print_analysis_insights S ["VER"; "HAM"]%string driver_profiles)).
Proof.
  eexists _, _, _. split; [vm_compute; reflexivity|].
  split; [reflexivity|]. split; [vm_compute; reflexivity|].
  split; [vm_compute; reflexivity|].
  intros a b similarity Hin. vm_compute in Hin.
  repeat (destruct Hin as [Hin|Hin]; [discriminate Hin|]). exact Hin.
Qed.

(** ** Orchestration *)

Lemma bind_eq {A B} (c : M A) (k : A -> M B) out a :
  c = (out, Returns a) -> bind c k = (out ++ output (k a), result (k a)).
Proof. intros ->. unfold bind. destruct (k a). reflexivity. Qed.

Lemma try_except_returns {A} (c : M A) (h : exn -> M A) :
  (forall e, exists v, result (h e) = Returns v) ->
  exists v, result (try_except c h) = Returns v.
Proof.
  intros Hh. destruct c as [out [a|e]]; simpl; [eauto|].
  destruct (Hh e) as [v Hv]. destruct (h e) as [out' r]. simpl in *. eauto.
Qed.

Lemma load_track_data_returns race_location track_dir :
  exists v, result (load_track_data race_location track_dir) = Returns v.
Proof.
  unfold load_track_data. apply try_except_returns. intros e. eexists. reflexivity.
Qed.

Section Threshold.
Variable choice : nat -> nat -> list nat.
Variable dbscan : float -> nat -> list (list float) -> list Z.
Variable Figure : Type.
Variable render :
  list (list float) -> list (list float) -> list string ->
  list (string * list (string * float)) -> list ClusteredRow -> string ->
  M (Figure * list (list float)).

Lemma downstream_result data track_name output_dir show_plots :
  result (downstream choice dbscan Figure render data track_name output_dir show_plots)
  <> Returns (None, None).
Proof using Type.
  unfold downstream. intros H.
  apply bind_returns in H. destruct H as (cd & _ & H).
  apply bind_returns in H. destruct H as ([fig profiles] & _ & H).
  apply bind_returns in H. destruct H as (u & _ & H). discriminate H.
Qed.

(** C10: the sufficiency threshold.  [analyze_single_track] goes on to
    clustering and the analysis exactly when the load returned a table of
    more than 100 rows: it then announces the row count and runs the
    downstream stages on that table with the default cap; otherwise (no
    table, or 100 rows or fewer) it reports insufficient data and returns
    (None, None), with nothing else printed after the load. *)
Theorem C10_sufficiency_threshold track_name track_dir output_dir show_plots :
  let run :=
    analyze_single_track choice dbscan Figure render track_name track_dir
      output_dir show_plots in
  let loaded := load_track_data track_name track_dir in
  exists track_data driver_stats,
    result loaded = Returns (track_data, driver_stats) /\
    (sufficient track_data = false ->
     run = (Analyzing track_name :: output loaded ++ [InsufficientData track_name],
            Returns (None, None))) /\
    (forall data, track_data = Some data -> (100 < length data)%nat ->
     let stages :=
       downstream choice dbscan Figure render data track_name output_dir show_plots in
     run = (Analyzing track_name :: output loaded
              ++ DataLoaded (length data) :: output stages,
            result stages)) /\
    (result run = Returns (None, None) <-> sufficient track_data = false).
Proof using Type.
  cbv zeta.
  destruct (load_track_data_returns track_name track_dir) as [[track_data stats] Hl].
  exists track_data, stats. split; [exact Hl|].
  assert (Hdef : analyze_single_track choice dbscan Figure render track_name track_dir
                   output_dir show_plots
                 = bind (print (Analyzing track_name))
                     (fun _ =>
                        bind (load_track_data track_name track_dir)
                          (fun loaded =>
                             let '(track_data, driver_stats) := loaded in
                             match track_data with
                             | Some data =>
                                 if (100 <? length data)%nat then
                                   bind (print (DataLoaded (length data)))
                                     (fun _ => downstream choice dbscan Figure render
                                                 data track_name output_dir show_plots)
                                 else bind (print (InsufficientData track_name))
                                        (fun _ => ret (None, None))
                             | None => bind (print (InsufficientData track_name))
                                         (fun _ => ret (None, None))
                             end))) by reflexivity.
  assert (Hload : load_track_data track_name track_dir
                  = (output (load_track_data track_name track_dir),
                     Returns (track_data, stats))).
  { destruct (load_track_data track_name track_dir) as [out r]. simpl in *.
    rewrite Hl. reflexivity. }
  assert (Hlow : sufficient track_data = false ->
            analyze_single_track choice dbscan Figure render track_name track_dir
              output_dir show_plots
            = (Analyzing track_name :: output (load_track_data track_name track_dir)
                 ++ [InsufficientData track_name],
               Returns (None, None))).
  { intros Hs. rewrite Hdef.
    rewrite (bind_eq (print (Analyzing track_name)) _ [Analyzing track_name] tt)
      by reflexivity.
    rewrite (bind_eq _ _ _ _ Hload).
    destruct track_data as [data|]; simpl in Hs; [rewrite Hs|]; reflexivity. }
  assert (Hhigh : forall data, track_data = Some data -> (100 < length data)%nat ->
            analyze_single_track choice dbscan Figure render track_name track_dir
              output_dir show_plots
            = (Analyzing track_name :: output (load_track_data track_name track_dir)
                 ++ DataLoaded (length data)
                 :: output (downstream choice dbscan Figure render data track_name
                              output_dir show_plots),
               result (downstream choice dbscan Figure render data track_name
                         output_dir show_plots))).
  { intros data -> Hlen. rewrite Hdef.
    rewrite (bind_eq (print (Analyzing track_name)) _ [Analyzing track_name] tt)
      by reflexivity.
    rewrite (bind_eq _ _ _ _ Hload).
    destruct (Nat.ltb_spec 100 (length data)) as [_|Hle]; [|lia].
    rewrite (bind_eq (print (DataLoaded (length data))) _ [DataLoaded (length data)] tt)
      by reflexivity.
    reflexivity. }
  split; [exact Hlow|]. split; [exact Hhigh|]. split.
  - intros Hr. destruct (sufficient track_data) eqn:Hs; [|reflexivity].
    destruct track_data as [data|]; simpl in Hs; [|discriminate Hs].
    apply Nat.ltb_lt in Hs. rewrite (Hhigh data eq_refl Hs) in Hr.
    exfalso. exact (downstream_result _ _ _ _ Hr).
  - intros Hs. rewrite (Hlow Hs). reflexivity.
Qed.
End Threshold.

Lemma C10_sufficiency_threshold_witness :
  analyze_single_track first_rows all_noise unit no_figure "Monaco" None None true
  = ([Analyzing "Monaco"; LookingFor "Monaco"; PathDoesNotExist "Monaco";
      InsufficientData "Monaco"],
     Returns (None, None)).
Proof.
  destruct (C10_sufficiency_threshold first_rows all_noise unit no_figure
              "Monaco" None None true) as (track_data & stats & Hl & Hlow & _).
  vm_compute in Hl. injection Hl as <- <-. exact (Hlow eq_refl).
Defined.

(** * Further properties of the code *)

(** ** Computations that print nothing *)

Lemma result_bind_raises {A B} (c : M A) (k : A -> M B) e :
  result c = Raises e -> result (bind c k) = Raises e.
Proof. intros H. rewrite (bind_raises c k e H). reflexivity. Qed.

Lemma pair_eta {A} (c : M A) : c = (output c, result c).
Proof. destruct c. reflexivity. Qed.

Lemma silent_bind {A B} (c : M A) (k : A -> M B) :
  output c = [] -> (forall a, output (k a) = []) -> output (bind c k) = [].
Proof.
  destruct c as [out [a|e]]; simpl; intros -> Hk; [|reflexivity].
  specialize (Hk a). destruct (k a). simpl in *. exact Hk.
Qed.

Lemma silent_mapM {A B} (f : A -> M B) l :
  (forall a, output (f a) = []) -> output (mapM f l) = [].
Proof.
  intros Hf. induction l as [|a l IH]; [reflexivity|]. cbn [mapM].
  apply silent_bind; [apply Hf|]. intros b.
  apply silent_bind; [exact IH|]. reflexivity.
Qed.

Lemma silent_driver_sample choice data cap d :
  output (driver_sample choice data cap d) = [].
Proof.
  unfold driver_sample, sample.
  destruct (cap <? _)%Z; [|reflexivity].
  destruct (cap <? 0)%Z; [reflexivity|].
  destruct (_ <? cap)%Z; reflexivity.
Qed.

(** ** Clustering: when it returns, and what it reports *)

Lemma distinct_In l x : In x (distinct l) <-> In x l.
Proof.
  induction l as [|a l IH]; simpl; [tauto|].
  rewrite filter_In, IH. split.
  - intros [->|[H _]]; auto.
  - intros [->|H]; [auto|].
    destruct (Z.eqb_spec x a) as [->|Hne]; [auto|].
    right. split; [exact H | reflexivity].
Qed.

Lemma distinct_NoDup l : List.NoDup (distinct l).
Proof.
  induction l as [|a l IH]; simpl; [constructor|].
  apply List.NoDup_cons.
  - rewrite filter_In. intros [_ H]. rewrite Z.eqb_refl in H. discriminate.
  - apply List.NoDup_filter, IH.
Qed.

Lemma filter_filter_comm {A} (P Q : A -> bool) l :
  List.filter P (List.filter Q l) = List.filter Q (List.filter P l).
Proof.
  induction l as [|a l IH]; simpl; [reflexivity|].
  destruct (P a) eqn:EP, (Q a) eqn:EQ; simpl; rewrite ?EP, ?EQ, IH; reflexivity.
Qed.

Lemma filter_all {A} (f : A -> bool) l :
  (forall x, In x l -> f x = true) -> List.filter f l = l.
Proof.
  induction l as [|a l IH]; simpl; intros H; [reflexivity|].
  rewrite (H a) by (left; reflexivity). f_equal. apply IH. intros x Hx. apply H. right. exact Hx.
Qed.

Lemma distinct_filter (P : Z -> bool) l :
  distinct (List.filter P l) = List.filter P (distinct l).
Proof.
  induction l as [|a l IH]; simpl; [reflexivity|].
  destruct (P a) eqn:EP; simpl; rewrite ?EP, IH, filter_filter_comm; [reflexivity|].
  symmetry. apply filter_all. intros y Hy. apply filter_In in Hy. destruct Hy as [_ Hy].
  destruct (Z.eqb_spec y a) as [->|_]; [congruence | reflexivity].
Qed.

Lemma filter_split_length {A} (f : A -> bool) l :
  length l = (length (List.filter f l) + length (List.filter (fun x => negb (f x)) l))%nat.
Proof.
  induction l as [|a l IH]; simpl; [reflexivity|].
  destruct (f a); simpl; lia.
Qed.

Lemma filter_none {A} (f : A -> bool) l :
  (forall x, In x l -> f x = false) -> List.filter f l = [].
Proof.
  induction l as [|a l IH]; simpl; intros H; [reflexivity|].
  rewrite (H a) by (left; reflexivity). apply IH. intros x Hx. apply H. right. exact Hx.
Qed.

Lemma count_in_NoDup (x : Z) l :
  List.NoDup l ->
  length (List.filter (fun c => Z.eqb c x) l) = if existsb (Z.eqb x) l then 1%nat else 0%nat.
Proof.
  induction 1 as [|a l Hnot _ IH]; simpl; [reflexivity|].
  rewrite (Z.eqb_sym x a). destruct (Z.eqb_spec a x) as [->|Hne]; simpl.
  - rewrite filter_none; [reflexivity|].
    intros y Hy. destruct (Z.eqb_spec y x) as [->|_]; [contradiction | reflexivity].
  - exact IH.
Qed.

(** The number of clusters printed is the number of distinct labels other
    than the noise label. *)
Lemma n_clusters_spec (clusters : list Z) :
  (length (distinct clusters) - (if existsb (Z.eqb (-1)) clusters then 1 else 0))%nat
  = length (distinct (List.filter (fun c => negb (Z.eqb c (-1))) clusters)).
Proof.
  rewrite distinct_filter.
  rewrite (filter_split_length (fun c => negb (Z.eqb c (-1))) (distinct clusters)).
  assert (Hn : List.filter (fun x => negb (negb (Z.eqb x (-1)))) (distinct clusters)
               = List.filter (fun c => Z.eqb c (-1)) (distinct clusters)).
  { apply List.filter_ext. intros c. apply negb_involutive. }
  rewrite Hn, (count_in_NoDup (-1) _ (distinct_NoDup clusters)).
  assert (He : existsb (Z.eqb (-1)) (distinct clusters) = existsb (Z.eqb (-1)) clusters).
  { apply eq_true_iff_eq. rewrite !existsb_exists.
    split; intros (y & Hy & E); exists y; (split; [apply distinct_In, Hy | exact E]). }
  rewrite He. destruct (existsb (Z.eqb (-1)) clusters); lia.
Qed.

Lemma filter_map_comm {A B} (g : A -> B) (f : B -> bool) l :
  List.filter f (map g l) = map g (List.filter (fun a => f (g a)) l).
Proof.
  induction l as [|a l IH]; simpl; [reflexivity|].
  destruct (f (g a)); simpl; rewrite IH; reflexivity.
Qed.

(** X1: what [cluster_track_data] prints.  Whenever it returns a table, the
    call has printed exactly one report, whose noise count is the number of
    rows of the table labelled -1 and whose cluster count is the number of
    distinct labels of the table other than -1. *)
Theorem clustering_report_counts_table choice dbscan data track_name cap table :
  result (cluster_track_data choice dbscan data track_name cap) = Returns table ->
  output (cluster_track_data choice dbscan data track_name cap)
  = [ClusteringReport track_name
       (length (distinct (List.filter (fun c => negb (Z.eqb c (-1))) (map Cluster table))))
       (length (List.filter (fun r => Z.eqb (Cluster r) (-1)) table))].
Proof.
  unfold cluster_track_data. cbv zeta.
  generalize (dict_get TRACK_CLUSTERING_PARAMS track_name DEFAULT_CLUSTERING_PARAMS).
  intros params Hret.
  set (c1 := mapM (driver_sample choice data cap) (unique (map Driver data))) in *.
  assert (Ho1 : output c1 = []) by (apply silent_mapM; intros; apply silent_driver_sample).
  apply bind_returns in Hret. destruct Hret as (sampled' & Hs & Hret).
  rewrite (bind_eq c1 _ [] sampled') by (rewrite (pair_eta c1), Ho1, Hs; reflexivity).
  apply bind_returns in Hret. destruct Hret as (cd & Hcd & Hret).
  rewrite (bind_eq (pd_concat sampled') _ [] cd).
  2:{ unfold pd_concat in *. destruct sampled'; [discriminate Hcd|].
      cbv [ret result snd] in Hcd. injection Hcd as <-. reflexivity. }
  apply bind_returns in Hret. destruct Hret as (scaled & Hsc & Hret).
  rewrite (bind_eq (scaler_fit_transform _) _ [] scaled).
  2:{ unfold scaler_fit_transform in *. destruct (nan_to_num _); [discriminate Hsc|].
      cbv [ret result snd] in Hsc. injection Hsc as <-. reflexivity. }
  apply bind_returns in Hret. destruct Hret as (tbl & Htbl & Hret).
  rewrite (bind_eq (set_Cluster cd _) _ [] tbl).
  2:{ unfold set_Cluster in *. destruct (_ =? _)%nat; [|discriminate Htbl].
      cbv [ret result snd] in Htbl. injection Htbl as <-. reflexivity. }
  apply bind_returns in Hret. destruct Hret as (u & _ & Hret).
  cbv [ret result snd] in Hret. injection Hret as ->.
  cbn [app output fst bind print ret].
  assert (Hlab : dbscan (eps params) (min_samples params) scaled = map Cluster table).
  { unfold set_Cluster in Htbl.
    match type of Htbl with
    | context [Nat.eqb ?a ?b] => destruct (Nat.eqb_spec a b) as [E|E]
    end; cbv [ret raise result snd] in Htbl; [|discriminate Htbl].
    injection Htbl as <-. destruct (map2_rows _ _ E) as [_ H2]. symmetry. exact H2. }
  rewrite Hlab, n_clusters_spec.
  rewrite (filter_map_comm Cluster (Z.eqb (-1))), length_map.
  do 3 f_equal. apply List.filter_ext. intros r. apply Z.eqb_sym.
Qed.

Lemma clustering_report_counts_table_witness :
  output (cluster_track_data first_rows all_noise track_rows "Japan" 3)
  = [ClusteringReport "Japan"
       (length (distinct (List.filter (fun c => negb (Z.eqb c (-1)))
                                      (map Cluster track_table))))
       (length (List.filter (fun r => Z.eqb (Cluster r) (-1)) track_table))].
Proof.
  exact (clustering_report_counts_table first_rows all_noise track_rows "Japan" 3
           track_table track_table_returned).
Defined.

Section ClusteringEdges.
Variable choice : nat -> nat -> list nat.
Variable dbscan : float -> nat -> list (list float) -> list Z.

Hypothesis choice_without_replacement : forall N n,
  (n <= N)%nat ->
  length (choice N n) = n /\ List.NoDup (choice N n) /\
  Forall (fun i => (i < N)%nat) (choice N n).
Hypothesis dbscan_labels : forall e m X, length (dbscan e m X) = length X.

Lemma cluster_empty_raises track_name cap :
  result (cluster_track_data choice dbscan [] track_name cap)
  = Raises (ValueError "No objects to concatenate").
Proof using Type. reflexivity. Qed.

Lemma cluster_negative_cap_raises data track_name cap :
  data <> [] -> (cap < 0)%Z ->
  result (cluster_track_data choice dbscan data track_name cap)
  = Raises (ValueError "A negative number of rows requested. Please provide `n` >= 0.").
Proof using Type.
  intros Hne Hcap. destruct data as [|r0 data']; [congruence|].
  unfold cluster_track_data. apply result_bind_raises.
  cbn [map unique mapM]. apply result_bind_raises.
  unfold driver_sample, sample.
  assert (Hin : In r0 (rows_of Driver (Driver r0) (r0 :: data')))
    by (apply rows_of_In; split; [left|]; reflexivity).
  destruct (rows_of Driver (Driver r0) (r0 :: data')) as [|x dd]; [destruct Hin|].
  destruct (Z.ltb_spec cap (Z.of_nat (length (x :: dd)))) as [_|Hge];
    [|cbn [length] in Hge; lia].
  destruct (Z.ltb_spec cap 0); [reflexivity | lia].
Qed.

Lemma cluster_zero_cap_raises data track_name :
  data <> [] ->
  result (cluster_track_data choice dbscan data track_name 0)
  = Raises (ValueError "Found array with 0 sample(s) while a minimum of 1 is required by StandardScaler.").
Proof using choice_without_replacement.
  intros Hne.
  destruct (mapM_total (driver_sample choice data 0) (unique (map Driver data)))
    as [sampled Hs].
  { apply List.Forall_forall. intros d _.
    destruct (driver_sample_balanced choice choice_without_replacement data 0 d)
      as (s & Hr & _); [lia | eauto]. }
  pose proof (mapM_returns _ _ _ Hs) as Hall.
  assert (Hempty : Forall (fun s => s = []) sampled).
  { clear Hs. induction Hall as [|d s ds ss Hd _ IH]; constructor; [|exact IH].
    destruct (driver_sample_balanced choice choice_without_replacement data 0 d)
      as (s' & Hr & Hlen & _); [lia|].
    rewrite Hr in Hd. injection Hd as <-. rewrite Nat.min_0_r in Hlen.
    destruct s'; [reflexivity | discriminate Hlen]. }
  assert (Hconcat : concat sampled = []).
  { clear - Hempty. induction Hempty as [|s ss -> _ IH]; [reflexivity | exact IH]. }
  assert (Hsne : sampled <> []).
  { destruct data as [|r0 data']; [congruence|]. cbn [map unique] in Hall.
    inversion Hall. discriminate. }
  unfold cluster_track_data.
  rewrite (bind_result _ _ _ Hs).
  rewrite (bind_result _ _ (concat sampled))
    by (unfold pd_concat; destruct sampled; [congruence | reflexivity]).
  rewrite Hconcat. reflexivity.
Qed.

(** X2: when [cluster_track_data] returns.  With a sampler that draws
    without replacement and a clustering that labels every row, the call
    returns a table exactly when the input table is non-empty and the cap is
    positive.  An empty table raises ValueError (nothing to concatenate), a
    negative cap raises ValueError (from the sampler), and a cap of 0 raises
    ValueError (the scaler is given no sample). *)
Theorem cluster_track_data_returns_iff data track_name cap :
  ((exists table,
       result (cluster_track_data choice dbscan data track_name cap) = Returns table)
   <-> data <> [] /\ (0 < cap)%Z) /\
  (data = [] \/ (cap <= 0)%Z ->
   exists msg,
     result (cluster_track_data choice dbscan data track_name cap)
     = Raises (ValueError msg)).
Proof using choice_without_replacement dbscan_labels.
  assert (Hraise : data = [] \/ (cap <= 0)%Z ->
            exists msg,
              result (cluster_track_data choice dbscan data track_name cap)
              = Raises (ValueError msg)).
  { intros Hbad. destruct data as [|r0 data'] eqn:Ed.
    - eexists. apply cluster_empty_raises.
    - destruct Hbad as [Hbad|Hbad]; [discriminate Hbad|].
      destruct (Z.eq_dec cap 0%Z) as [->|Hnz].
      + eexists. apply cluster_zero_cap_raises. discriminate.
      + eexists. apply cluster_negative_cap_raises; [discriminate | lia]. }
  split; [|exact Hraise]. split.
  - intros [table Ht].
    destruct data as [|r0 data'] eqn:Ed.
    + rewrite cluster_empty_raises in Ht. discriminate Ht.
    + split; [discriminate|].
      destruct (Z.ltb_spec 0 cap) as [Hpos|Hle]; [exact Hpos|].
      destruct (Hraise (or_intror Hle)) as [msg Hm]. rewrite Hm in Ht. discriminate Ht.
  - intros [Hne Hcap].
    apply (cluster_track_data_total choice dbscan choice_without_replacement dbscan_labels);
      assumption.
Qed.
End ClusteringEdges.

Lemma cluster_track_data_returns_iff_witness :
  exists msg,
    result (cluster_track_data first_rows all_noise track_rows "Japan" 0)
    = Raises (ValueError msg).
Proof.
  apply (proj2 (cluster_track_data_returns_iff first_rows all_noise
                  first_rows_without_replacement all_noise_labels track_rows "Japan" 0)).
  right. lia.
Defined.

(** X3: the unknown-track fallback.  For every track name other than the
    four configured ones, the labels of the returned table are those of
    DBSCAN run with the default parameters (eps 0.4, at least 45 samples)
    on the standardized features of the table's own rows. *)
Theorem unknown_track_uses_defaults choice dbscan data track_name cap table :
  ~ In track_name ["Australia"; "Bahrain"; "China"; "Japan"]%string ->
  result (cluster_track_data choice dbscan data track_name cap) = Returns table ->
  dict_get TRACK_CLUSTERING_PARAMS track_name DEFAULT_CLUSTERING_PARAMS
  = DEFAULT_CLUSTERING_PARAMS /\
  map Cluster table
  = dbscan 0.4 45%nat (fit_transform (features_of (map row table))).
Proof.
  intros Hnot Hret.
  assert (Hd : dict_get TRACK_CLUSTERING_PARAMS track_name DEFAULT_CLUSTERING_PARAMS
               = DEFAULT_CLUSTERING_PARAMS).
  { unfold TRACK_CLUSTERING_PARAMS. cbn [dict_get].
    repeat match goal with
           | |- context [String.eqb ?k track_name] =>
               destruct (String.eqb_spec k track_name) as [E|_];
               [exfalso; apply Hnot; rewrite <- E; simpl; tauto|]
           end.
    reflexivity. }
  split; [exact Hd|].
  destruct (cluster_track_data_inv choice dbscan _ _ _ _ Hret) as (sampled & _ & Hrow & Hl).
  rewrite Hl, Hrow. unfold labels_of. cbv zeta. rewrite Hd. reflexivity.
Qed.

Lemma monaco_table_returned :
  result (cluster_track_data first_rows all_noise track_rows "Monaco" 3)
  = Returns track_table.
Proof. vm_compute. reflexivity. Qed.

Lemma unknown_track_uses_defaults_witness :
  dict_get TRACK_CLUSTERING_PARAMS "Monaco" DEFAULT_CLUSTERING_PARAMS
  = DEFAULT_CLUSTERING_PARAMS /\
  map Cluster track_table
  = all_noise 0.4 45%nat (fit_transform (features_of (map row track_table))).
Proof.
  apply (unknown_track_uses_defaults first_rows all_noise track_rows "Monaco" 3).
  - simpl. intuition discriminate.
  - exact monaco_table_returned.
Defined.

(** ** The feature engineer: outcomes *)

Lemma get_driver_team_spec driver_code :
  get_driver_team driver_code
  = (match find_team TEAMS driver_code with
     | Some _ => []
     | None => [DriverNotFound driver_code]
     end,
     Returns (team_of driver_code)).
Proof.
  unfold get_driver_team, team_of. destruct (find_team TEAMS driver_code); reflexivity.
Qed.

(** X4: the outcomes of [process_driver_telemetry].  The call never raises.
    It returns None exactly when a required column is missing or the Brake
    column cannot be converted to integers.  Otherwise it returns at most
    one row per input sample, every row carrying the driver code and the
    driver's team (or Unknown), and prints nothing but the unknown-driver
    warning. *)
Theorem process_driver_telemetry_outcomes df driver_code :
  (exists r, result (process_driver_telemetry df driver_code) = Returns r) /\
  (result (process_driver_telemetry df driver_code) = Returns None <->
   lacks_required df \/ exists e, result (brake_step df) = Raises e) /\
  (forall rows,
      result (process_driver_telemetry df driver_code) = Returns (Some rows) ->
      (length rows <= nrows df)%nat /\
      Forall (fun r => Driver r = driver_code /\ Team r = team_of driver_code) rows /\
      output (process_driver_telemetry df driver_code)
      = match find_team TEAMS driver_code with
        | Some _ => []
        | None => [DriverNotFound driver_code]
        end).
Proof.
  split; [apply process_never_raises|]. split.
  - split.
    + intros Hnone. destruct (result (brake_step df)) as [df1|e] eqn:Hb; [|eauto].
      left. apply lacks_required_missing. rewrite <- (missing_after_in df df1 Hb).
      intros Hm. destruct (process_complete df driver_code df1 Hb Hm) as (team & _ & E).
      rewrite E in Hnone. discriminate Hnone.
    + intros [Hlack|[e He]].
      * destruct (result (brake_step df)) as [df1|e] eqn:Hb.
        -- rewrite (process_missing df driver_code df1 Hb); [reflexivity|].
           rewrite (missing_after_in df df1 Hb). apply lacks_required_missing, Hlack.
        -- rewrite (process_brake_error df driver_code e Hb). reflexivity.
      * rewrite (process_brake_error df driver_code e He). reflexivity.
  - intros rows Hret.
    destruct (result (brake_step df)) as [df1|e] eqn:Hb.
    2:{ rewrite (process_brake_error df driver_code e Hb) in Hret. discriminate Hret. }
    destruct (missing_after df1) as [|m ms] eqn:Hm.
    2:{ rewrite (process_missing df driver_code df1 Hb) in Hret by congruence.
        discriminate Hret. }
    destruct (process_complete df driver_code df1 Hb Hm) as (team & Hteam & E).
    rewrite E in Hret |- *. cbn [result snd output fst] in Hret |- *.
    injection Hret as <-.
    rewrite get_driver_team_spec in Hteam |- *. cbn [result snd fst] in Hteam |- *.
    injection Hteam as <-.
    split; [|split; [|reflexivity]].
    + rewrite length_map.
      etransitivity; [apply List.filter_length_le|].
      unfold features_frame, derive. rewrite length_map, length_seq. reflexivity.
    + apply List.Forall_forall. intros r Hr. apply in_map_iff in Hr.
      destruct Hr as (f & <- & _). split; reflexivity.
Qed.

Lemma process_driver_telemetry_outcomes_witness :
  (length telemetry_gap_rows <= nrows telemetry_gap)%nat /\
  Forall (fun r => Driver r = "VER"%string /\ Team r = team_of "VER") telemetry_gap_rows.
Proof.
  destruct (proj2 (proj2 (process_driver_telemetry_outcomes telemetry_gap "VER"))
              telemetry_gap_rows telemetry_gap_returns) as (H1 & H2 & _).
  exact (conj H1 H2).
Defined.

(** ** Loading a track *)

Lemma load_step_spec all_data driver_stats code df :
  match result (process_driver_telemetry df code) with
  | Returns (Some (r :: rows)) =>
      result (load_step (all_data, driver_stats) (code, df))
      = Returns (all_data ++ [r :: rows],
                 <[code := stat_of code (r :: rows)]> driver_stats)
  | _ => result (load_step (all_data, driver_stats) (code, df))
         = Returns (all_data, driver_stats)
  end.
Proof.
  destruct (process_never_raises df code) as [v Hv]. rewrite Hv.
  unfold load_step.
  rewrite (bind_result (print (Processing code)) _ tt) by reflexivity.
  rewrite (bind_result _ _ v Hv).
  destruct v as [[|r rows]|]; try reflexivity.
  rewrite (bind_result _ _ (team_of code))
    by (rewrite get_driver_team_spec; reflexivity).
  reflexivity.
Qed.

Lemma foldM_load_returns files acc :
  exists acc', result (foldM load_step acc files) = Returns acc'.
Proof.
  revert acc. induction files as [|[code df] files IH]; intros [all_data stats]; cbn [foldM].
  - eexists. reflexivity.
  - pose proof (load_step_spec all_data stats code df) as Hs.
    destruct (result (process_driver_telemetry df code)) as [[[|r rows]|]|e];
      rewrite (bind_result _ _ _ Hs); apply IH.
Qed.

Lemma process_rows_finite df code rows :
  result (process_driver_telemetry df code) = Returns (Some rows) ->
  Forall finite_row rows /\ Forall (fun r => Driver r = code) rows.
Proof.
  intros H. destruct (process_returns df code rows H) as (df1 & team & _ & _ & ->).
  split; apply List.Forall_forall; intros r Hr; apply in_map_iff in Hr;
    destruct Hr as (f & <- & Hf); [|reflexivity].
  apply filter_In in Hf. apply all_finite_spec, Hf.
Qed.

Lemma foldM_load_invariant files seen codes acc acc' :
  loaded_from seen codes acc ->
  result (foldM load_step acc files) = Returns acc' ->
  exists codes', loaded_from (seen ++ map fst files) codes' acc'.
Proof.
  revert seen codes acc. induction files as [|[code df] files IH];
    intros seen codes [all_data stats] Hinv H; cbn [foldM] in H.
  - cbv [ret result snd] in H. injection H as <-. exists codes.
    simpl. rewrite app_nil_r. exact Hinv.
  - pose proof (load_step_spec all_data stats code df) as Hs.
    replace (seen ++ map fst ((code, df) :: files))
      with ((seen ++ [code]) ++ map fst files)
      by (rewrite <- app_assoc; reflexivity).
    destruct Hinv as (Hincl & Hall & Hkeys). cbn [fst snd] in *.
    destruct (result (process_driver_telemetry df code)) as [[[|r rows]|]|e] eqn:Hp;
      rewrite (bind_result _ _ _ Hs) in H.
    1,3,4: (apply (IH (seen ++ [code]) codes (all_data, stats)); [|exact H];
            split; [intros x Hx; apply in_or_app; left; apply Hincl, Hx|];
            split; assumption).
    destruct (process_rows_finite df code _ Hp) as [Hfin Hdrv].
    apply (IH (seen ++ [code]) (codes ++ [code])
              (all_data ++ [r :: rows], <[code := stat_of code (r :: rows)]> stats));
      [|exact H].
    split; [|split]; cbn [fst snd].
    + intros x Hx. apply in_app_or in Hx. apply in_or_app.
      destruct Hx as [Hx|Hx]; [left; apply Hincl, Hx | right; exact Hx].
    + apply Forall2_app.
      * eapply Forall2_impl; [exact Hall|]. cbv beta.
        intros c frame (Hne & Hf & Hd & st & Hst & Hpos & Hteam).
        split; [exact Hne|]. split; [exact Hf|]. split; [exact Hd|].
        destruct (String.eqb_spec code c) as [->|Hcc].
        -- eexists. rewrite lookup_insert_eq. split; [reflexivity|].
           split; [simpl; lia | reflexivity].
        -- exists st. rewrite lookup_insert_ne by exact Hcc. auto.
      * constructor; [|constructor].
        split; [discriminate|]. split; [exact Hfin|]. split; [exact Hdrv|].
        eexists. rewrite lookup_insert_eq. split; [reflexivity|].
        split; [simpl; lia | reflexivity].
    + intros d Hd. apply in_or_app.
      destruct (String.eqb_spec code d) as [->|Hcd]; [right; left; reflexivity|].
      left. apply Hkeys. rewrite lookup_insert_ne in Hd by exact Hcd. exact Hd.
Qed.

Lemma load_track_data_files race_location f files :
  exists all_data driver_stats,
    result (foldM load_step ([], ∅) (f :: files)) = Returns (all_data, driver_stats) /\
    result (load_track_data race_location (Some (f :: files)))
    = Returns (match all_data with
               | [] => (None, None)
               | _ :: _ => (Some (concat all_data), Some driver_stats)
               end).
Proof.
  destruct (foldM_load_returns (f :: files) ([], ∅)) as [[all_data stats] Hf].
  exists all_data, stats. split; [exact Hf|].
  unfold load_track_data.
  set (body := bind (print (LookingFor race_location)) _).
  assert (Hb : result body
               = Returns (match all_data with
                          | [] => (None, None)
                          | _ :: _ => (Some (concat all_data), Some stats)
                          end)).
  { unfold body. rewrite (bind_result (print (LookingFor race_location)) _ tt) by reflexivity.
    rewrite (bind_result (print (LoadingTelemetry _ _)) _ tt) by reflexivity.
    rewrite (bind_result _ _ _ Hf).
    destruct all_data; reflexivity. }
  destruct body as [out r]. simpl in Hb. subst r. reflexivity.
Qed.

(** X5: what [load_track_data] returns.  It never raises, and returns either
    no table and no statistics, or a table together with statistics.  A
    returned table is non-empty; each of its rows has ten finite values and
    the driver code of one of the files, and that driver has a statistics
    entry; every statistics entry counts at least one sample, names the
    driver's team, and belongs to a driver with a row in the table. *)
Theorem load_track_data_table race_location track_dir :
  exists track_data driver_stats,
    result (load_track_data race_location track_dir) = Returns (track_data, driver_stats) /\
    match track_data, driver_stats with
    | None, None => True
    | Some combined_data, Some stats =>
        combined_data <> [] /\
        (exists files, track_dir = Some files /\
           Forall (fun r => finite_row r /\ In (Driver r) (map fst files) /\
                            is_Some (stats !! Driver r))
                  combined_data) /\
        (forall d st, stats !! d = Some st ->
           (0 < samples st)%nat /\ team st = team_of d /\
           exists r, In r combined_data /\ Driver r = d)
    | _, _ => False
    end.
Proof.
  destruct track_dir as [[|f files]|].
  - exists None, None. split; [reflexivity | exact I].
  - destruct (load_track_data_files race_location f files) as (all_data & stats & Hf & Hr).
    destruct (foldM_load_invariant (f :: files) [] [] ([], ∅) (all_data, stats)) as [codes Hinv].
    { split; [intros x []|]. split; [constructor|].
      intros d [st Hd]. cbn [snd] in Hd. rewrite lookup_empty in Hd. discriminate Hd. }
    { exact Hf. }
    destruct Hinv as (Hincl & Hall & Hkeys). cbn [fst snd app] in *.
    destruct all_data as [|frame frames].
    + exists None, None. split; [exact Hr | exact I].
    + exists (Some (concat (frame :: frames))), (Some stats). split; [exact Hr|].
      split; [|split].
      * inversion Hall as [|c fr cs frs (Hne & _) _]; subst. simpl.
        destruct frame; [congruence | discriminate].
      * exists (f :: files). split; [reflexivity|].
        apply List.Forall_forall. intros r Hr'. apply in_concat in Hr'.
        destruct Hr' as (fr & Hfr & Hin).
        clear Hr Hf Hkeys. induction Hall as [|c fr' cs frs Hc _ IH]; [destruct Hfr|].
        destruct Hfr as [->|Hfr].
        -- destruct Hc as (_ & Hfin & Hdrv & st & Hst & _).
           rewrite List.Forall_forall in Hfin, Hdrv.
           rewrite (Hdrv r Hin). split; [apply Hfin, Hin|].
           split; [apply Hincl; left; reflexivity | eauto].
        -- apply IH; [|exact Hfr]. intros x Hx. apply Hincl. right. exact Hx.
      * intros d st Hd.
        assert (Hin : In d codes) by (apply Hkeys; eauto).
        clear Hr Hf Hkeys Hincl. induction Hall as [|c fr cs frs Hc _ IH]; [destruct Hin|].
        destruct Hin as [->|Hin].
        -- destruct Hc as (Hne & _ & Hdrv & st' & Hst & Hpos & Hteam).
           rewrite Hd in Hst. injection Hst as <-.
           split; [exact Hpos|]. split; [exact Hteam|].
           destruct fr as [|r fr]; [congruence|]. exists r.
           split; [left; reflexivity|]. inversion Hdrv; assumption.
        -- destruct (IH Hin) as (Hpos & Hteam & r & Hr & Hdr).
           split; [exact Hpos|]. split; [exact Hteam|]. exists r.
           split; [|exact Hdr]. simpl. apply in_or_app. right. exact Hr.
  - exists None, None. split; [reflexivity | exact I].
Qed.

Lemma foldM_load_distinct files seen codes acc acc' :
  List.NoDup (seen ++ map fst files) ->
  loaded_distinct seen codes acc ->
  result (foldM load_step acc files) = Returns acc' ->
  exists codes', loaded_distinct (seen ++ map fst files) codes' acc'.
Proof.
  revert seen codes acc. induction files as [|[code df] files IH];
    intros seen codes [all_data stats] Hnd Hinv H; cbn [foldM] in H.
  - cbv [ret result snd] in H. injection H as <-. exists codes.
    simpl. rewrite app_nil_r. exact Hinv.
  - pose proof (load_step_spec all_data stats code df) as Hs.
    replace (seen ++ map fst ((code, df) :: files))
      with ((seen ++ [code]) ++ map fst files) in *
      by (rewrite <- app_assoc; reflexivity).
    destruct Hinv as (Hincl & Hcodes & Hall & Hkeys). cbn [fst snd] in *.
    assert (Hfresh : ~ In code codes).
    { intros Hc. apply Hincl in Hc.
      rewrite <- app_assoc in Hnd. cbn [app] in Hnd.
      apply List.NoDup_remove_2 in Hnd. apply Hnd, in_or_app. left. exact Hc. }
    destruct (result (process_driver_telemetry df code)) as [[[|r rows]|]|e] eqn:Hp;
      rewrite (bind_result _ _ _ Hs) in H.
    1,3,4: (apply (IH (seen ++ [code]) codes (all_data, stats)); [exact Hnd| |exact H];
            split; [intros x Hx; apply in_or_app; left; apply Hincl, Hx|];
            split; [assumption|]; split; assumption).
    destruct (process_rows_finite df code _ Hp) as [_ Hdrv].
    apply (IH (seen ++ [code]) (codes ++ [code])
              (all_data ++ [r :: rows], <[code := stat_of code (r :: rows)]> stats));
      [exact Hnd| |exact H].
    split; [|split; [|split]]; cbn [fst snd].
    + intros x Hx. apply in_app_or in Hx. apply in_or_app.
      destruct Hx as [Hx|Hx]; [left; apply Hincl, Hx | right; exact Hx].
    + clear - Hcodes Hfresh. induction codes as [|c codes IHc]; simpl.
      * constructor; [intros []|constructor].
      * inversion Hcodes as [|? ? Hc Hcs]; subst. constructor.
        -- intros Hin. apply in_app_or in Hin. destruct Hin as [Hin|[->|[]]].
           ++ contradiction.
           ++ apply Hfresh. left. reflexivity.
        -- apply IHc; [exact Hcs|]. intros Hin. apply Hfresh. right. exact Hin.
    + apply Forall2_app.
      * assert (Hother : Forall (fun c => c <> code) codes).
        { apply List.Forall_forall. intros c Hc ->. contradiction. }
        clear - Hall Hother. revert Hother.
        induction Hall as [|c frame cs' frames Hc _ IHf]; intros Hother; constructor.
        -- destruct Hc as (Hne & Hd & Hst).
           split; [exact Hne|]. split; [exact Hd|].
           rewrite lookup_insert_ne; [exact Hst|].
           inversion Hother; subst. congruence.
        -- apply IHf. inversion Hother; assumption.
      * constructor; [|constructor].
        split; [discriminate|]. split; [exact Hdrv|].
        apply lookup_insert_eq.
    + intros d Hd. apply in_or_app.
      destruct (String.eqb_spec code d) as [->|Hcd]; [right; left; reflexivity|].
      left. apply Hkeys. rewrite lookup_insert_ne in Hd by exact Hcd. exact Hd.
Qed.

Lemma rows_of_foreign_frames (stats : gmap string driver_stat) codes frames d :
  ~ In d codes ->
  Forall2 (fun code frame =>
             frame <> [] /\ Forall (fun r => Driver r = code) frame /\
             stats !! code = Some (stat_of code frame))
          codes frames ->
  rows_of Driver d (concat frames) = [].
Proof.
  intros Hd Hall. induction Hall as [|c frame cs frs (_ & Hc & _) _ IH]; [reflexivity|].
  simpl. rewrite rows_of_app, IH by (intros Hin; apply Hd; right; exact Hin).
  rewrite rows_of_none; [reflexivity|].
  eapply List.Forall_impl; [|exact Hc]. cbv beta. intros r -> ->. apply Hd. left. reflexivity.
Qed.

Lemma rows_of_own_frame (stats : gmap string driver_stat) codes frames d :
  List.NoDup codes ->
  In d codes ->
  Forall2 (fun code frame =>
             frame <> [] /\ Forall (fun r => Driver r = code) frame /\
             stats !! code = Some (stat_of code frame))
          codes frames ->
  rows_of Driver d (concat frames) <> [] /\
  stats !! d = Some (stat_of d (rows_of Driver d (concat frames))).
Proof.
  intros Hnd Hd Hall. induction Hall as [|c frame cs frs (Hne & Hc & Hst) Hall IH];
    [destruct Hd|].
  inversion Hnd as [|? ? Hfresh Hnd']; subst.
  simpl. rewrite rows_of_app. destruct Hd as [->|Hd].
  - rewrite (rows_of_foreign_frames stats cs frs d Hfresh Hall), app_nil_r.
    rewrite (rows_of_all _ _ _ Hc). split; assumption.
  - rewrite rows_of_none; [exact (IH Hnd' Hd)|].
    eapply List.Forall_impl; [|exact Hc]. cbv beta. intros r -> ->. contradiction.
Qed.

(** X6: the statistics [load_track_data] returns describe the returned
    table.  When the files of the track directory carry distinct driver
    codes, a driver has a statistics entry exactly when the table holds rows
    of that driver, and the entry is the sample count, team and Speed,
    Throttle and Brake aggregates of exactly those rows. *)
Theorem load_track_data_stats race_location files combined_data driver_stats :
  List.NoDup (map fst files) ->
  result (load_track_data race_location (Some files))
  = Returns (Some combined_data, Some driver_stats) ->
  forall d,
    driver_stats !! d
    = match rows_of Driver d combined_data with
      | [] => None
      | _ :: _ => Some (stat_of d (rows_of Driver d combined_data))
      end.
Proof.
  intros Hnd H d. destruct files as [|f files]; [discriminate H|].
  destruct (load_track_data_files race_location f files) as (all_data & stats & Hf & Hr).
  rewrite Hr in H.
  destruct (foldM_load_distinct (f :: files) [] [] ([], ∅) (all_data, stats))
    as [codes Hinv].
  { exact Hnd. }
  { split; [intros x []|]. split; [constructor|]. split; [constructor|].
    intros d' [st Hd]. cbn [snd] in Hd. rewrite lookup_empty in Hd. discriminate Hd. }
  { exact Hf. }
  destruct Hinv as (_ & Hcodes & Hall & Hkeys). cbn [fst snd] in *.
  destruct all_data as [|frame frames]; [discriminate H|].
  assert (Hrows : rows_of Driver d combined_data
                  = rows_of Driver d (concat (frame :: frames))) by congruence.
  assert (Hstats : driver_stats = stats) by congruence.
  rewrite Hrows, Hstats. clear H Hr Hf Hrows Hstats.
  destruct (in_dec string_dec d codes) as [Hd|Hd].
  - destruct (rows_of_own_frame stats codes (frame :: frames) d Hcodes Hd Hall) as [Hne Hst].
    destruct (rows_of Driver d (concat (frame :: frames))); [congruence | exact Hst].
  - rewrite (rows_of_foreign_frames stats codes (frame :: frames) d Hd Hall).
    destruct (stats !! d) eqn:E; [|reflexivity].
    exfalso. apply Hd, Hkeys. eauto.
Qed.

Lemma scenario_files_loaded :
  result (load_track_data "Japan" (Some scenario_files))
  = Returns (Some track_rows, Some scenario_stats).
Proof. vm_compute. reflexivity. Qed.

Lemma load_track_data_stats_witness :
  scenario_stats !! "VER"%string
  = match rows_of Driver "VER"%string track_rows with
    | [] => None
    | _ :: _ => Some (stat_of "VER" (rows_of Driver "VER"%string track_rows))
    end.
Proof.
  apply (load_track_data_stats "Japan" scenario_files track_rows scenario_stats).
  - repeat constructor; simpl; intuition discriminate.
  - exact scenario_files_loaded.
Defined.

(** ** The order of floats *)

Lemma SFltb_trans x y z :
  SFltb x y = true -> SFltb y z = true -> SFltb x z = true.
Proof.
  unfold SFltb, SFcompare.
  destruct x as [sx|sx| |sx mx ex], y as [sy|sy| |sy my ey], z as [sz|sz| |sz mz ez];
    try discriminate; try reflexivity;
    repeat match goal with s : bool |- _ => destruct s end;
    try discriminate; try reflexivity.
  all: change (Pos.compare_cont Eq) with Pos.compare.
  all: destruct (Z.compare_spec ex ey), (Z.compare_spec ey ez), (Z.compare_spec ex ez);
    try discriminate; try reflexivity; try lia; subst.
  all: destruct (Pos.compare_spec mx my), (Pos.compare_spec my mz), (Pos.compare_spec mx mz);
    simpl; try discriminate; try reflexivity; try lia.
Qed.

Lemma SFltb_asym x y : SFltb x y = true -> SFltb y x = false.
Proof.
  unfold SFltb, SFcompare.
  destruct x as [sx|sx| |sx mx ex], y as [sy|sy| |sy my ey];
    try discriminate; try reflexivity;
    repeat match goal with s : bool |- _ => destruct s end;
    try discriminate; try reflexivity.
  all: change (Pos.compare_cont Eq) with Pos.compare.
  all: destruct (Z.compare_spec ex ey), (Z.compare_spec ey ex);
    try discriminate; try reflexivity; try lia; subst.
  all: destruct (Pos.compare_spec mx my), (Pos.compare_spec my mx);
    simpl; try discriminate; try reflexivity; try lia.
Qed.

Lemma ltb_trans (x y z : float) :
  (x <? y) = true -> (y <? z) = true -> (x <? z) = true.
Proof. rewrite !FloatAxioms.ltb_spec. apply SFltb_trans. Qed.

Lemma ltb_asym (x y : float) : (x <? y) = true -> (y <? x) = false.
Proof. rewrite !FloatAxioms.ltb_spec. apply SFltb_asym. Qed.

Lemma ltb_irrefl (x : float) : (x <? x) = false.
Proof.
  destruct (x <? x) eqn:E; [|reflexivity].
  rewrite <- E. apply ltb_asym, E.
Qed.

(** Raising the running maximum keeps it above what it was above. *)
Lemma ltb_raised (m s e : float) :
  (m <? s) = true -> (m <? e) = false -> (s <? e) = false.
Proof.
  intros Hms Hme. destruct (s <? e) eqn:E; [|reflexivity].
  rewrite (ltb_trans m s e Hms E) in Hme. discriminate Hme.
Qed.

(** ** The most similar pair *)

Lemma pairs_In n i j : In (i, j) (pairs n) <-> (i < j < n)%nat.
Proof.
  unfold pairs. rewrite in_flat_map. split.
  - intros (i' & Hi' & Hin). apply in_map_iff in Hin.
    destruct Hin as (j' & E & Hj'). injection E as -> ->.
    apply in_seq in Hi'. apply in_seq in Hj'. lia.
  - intros H. exists i. split; [apply in_seq; lia|].
    apply in_map_iff. exists j. split; [reflexivity | apply in_seq; lia].
Qed.

Lemma getitem2_square n (m : list (list float)) i j :
  square n m -> (i < n)%nat -> (j < n)%nat ->
  getitem2 m i j = ret (entry m i j 0).
Proof.
  intros [Hlen Hrows] Hi Hj. unfold getitem2, entry.
  destruct (nth_error m i) as [r|] eqn:Er;
    [|apply nth_error_None in Er; lia].
  rewrite (nth_error_nth _ _ _ Er).
  assert (Hr : length r = n).
  { rewrite List.Forall_forall in Hrows. apply Hrows. eapply nth_error_In, Er. }
  destruct (nth_error r j) as [x|] eqn:Ex;
    [|apply nth_error_None in Ex; lia].
  rewrite (nth_error_nth _ _ _ Ex). reflexivity.
Qed.

Lemma similar_fold (m : list (list float)) drivers ps seen st :
  square (length drivers) m ->
  (forall i j, In (i, j) ps -> (i < j < length drivers)%nat) ->
  most_similar_so_far m drivers seen st ->
  exists st',
    foldM (similar_step m drivers) st ps = ([], Returns st') /\
    most_similar_so_far m drivers (seen ++ ps) st'.
Proof.
  intros Hsq. revert seen st.
  induction ps as [|[i j] ps IH]; intros seen [mx pair] Hps Hinv; cbn [foldM].
  - exists (mx, pair). rewrite app_nil_r. split; [reflexivity | exact Hinv].
  - assert (Hij : (i < j < length drivers)%nat) by (apply Hps; left; reflexivity).
    unfold similar_step at 1. cbn [fst snd].
    rewrite (getitem2_square (length drivers) m i j Hsq) by lia.
    destruct Hinv as [Hmax Hpair].
    set (s := entry m i j 0).
    assert (Hstep : exists st1,
               bind (ret s)
                 (fun similarity =>
                    if mx <? similarity
                    then ret (similarity,
                              Some (nth i drivers EmptyString, nth j drivers EmptyString))
                    else ret (mx, pair))
               = ([], Returns st1) /\
               most_similar_so_far m drivers (seen ++ [(i, j)]) st1).
    { destruct (mx <? s) eqn:E.
      - eexists. unfold bind, ret. cbn. rewrite E. split; [reflexivity|].
        split.
        + intros i' j' Hin. apply in_app_or in Hin. destruct Hin as [Hin|[Heq|[]]].
          * apply (ltb_raised mx); [exact E | apply Hmax, Hin].
          * injection Heq as <- <-. apply ltb_irrefl.
        + exists i, j. split; [apply in_or_app; right; left; reflexivity|].
          split; [reflexivity|]. split; [reflexivity|]. split; [reflexivity|].
          destruct pair as [[a b]|].
          * destruct Hpair as (i0 & j0 & _ & _ & _ & _ & Hpos).
            apply (ltb_trans 0 mx s Hpos E).
          * rewrite <- Hpair. exact E.
      - eexists. unfold bind, ret. cbn. rewrite E. split; [reflexivity|].
        split.
        + intros i' j' Hin. apply in_app_or in Hin. destruct Hin as [Hin|[Heq|[]]].
          * apply Hmax, Hin.
          * injection Heq as <- <-. exact E.
        + destruct pair as [[a b]|]; [|exact Hpair].
          destruct Hpair as (i0 & j0 & Hin & Hrest).
          exists i0, j0. split; [apply in_or_app; left; exact Hin | exact Hrest]. }
    destruct Hstep as (st1 & Hs1 & Hinv1).
    destruct (IH (seen ++ [(i, j)]) st1) as (st' & Hf & Hinv').
    { intros i' j' Hin. apply Hps. right. exact Hin. }
    { exact Hinv1. }
    exists st'. split.
    + etransitivity; [apply (bind_eq _ _ [] st1 Hs1)|].
      cbv beta. rewrite Hf. reflexivity.
    + rewrite <- app_assoc in Hinv'. exact Hinv'.
Qed.

(** X7: the search under [# Find most similar pair].  On a square matrix of
    the driver count the loop never fails on an index and prints nothing.
    The value it ends with is exceeded by no entry above the diagonal.  When
    it names a pair, these are the drivers at two positions i < j, the value
    is the entry at (i, j) and it is greater than 0; when it names none the
    value is still the initial 0, so no entry above the diagonal is greater
    than 0. *)
Theorem find_most_similar_pair_maximal similarity_matrix drivers :
  square (length drivers) similarity_matrix ->
  exists max_similarity most_similar_pair,
    find_most_similar_pair similarity_matrix drivers
    = ([], Returns (max_similarity, most_similar_pair)) /\
    (forall i j, (i < j < length drivers)%nat ->
       (max_similarity <? entry similarity_matrix i j 0) = false) /\
    match most_similar_pair with
    | None => max_similarity = 0
    | Some (a, b) =>
        exists i j, (i < j < length drivers)%nat /\
          a = nth i drivers EmptyString /\ b = nth j drivers EmptyString /\
          max_similarity = entry similarity_matrix i j 0 /\
          (0 <? max_similarity) = true
    end.
Proof.
  intros Hsq. unfold find_most_similar_pair.
  destruct (similar_fold similarity_matrix drivers (pairs (length drivers)) [] (0, None) Hsq)
    as ([mx pair] & Hf & Hmax & Hpair).
  { intros i j. apply pairs_In. }
  { split; [intros i j []|reflexivity]. }
  exists mx, pair. split; [exact Hf|]. cbn [app] in *. split.
  - intros i j Hij. apply Hmax, pairs_In, Hij.
  - destruct pair as [[a b]|]; [|exact Hpair].
    destruct Hpair as (i & j & Hin & Hrest). exists i, j.
    split; [apply pairs_In, Hin | exact Hrest].
Qed.

Lemma find_most_similar_pair_maximal_witness :
  exists max_similarity most_similar_pair,
    find_most_similar_pair [[1; 0.5; 0.25]; [0.5; 1; 0.75]; [0.25; 0.75; 1]]
      ["VER"; "HAM"; "LEC"]%string
    = ([], Returns (max_similarity, most_similar_pair)) /\
    (forall i j, (i < j < 3)%nat ->
       (max_similarity
        <? entry [[1; 0.5; 0.25]; [0.5; 1; 0.75]; [0.25; 0.75; 1]] i j 0) = false) /\
    match most_similar_pair with
    | None => max_similarity = 0
    | Some (a, b) =>
        exists i j, (i < j < 3)%nat /\
          a = nth i ["VER"; "HAM"; "LEC"]%string EmptyString /\
          b = nth j ["VER"; "HAM"; "LEC"]%string EmptyString /\
          max_similarity
          = entry [[1; 0.5; 0.25]; [0.5; 1; 0.75]; [0.25; 0.75; 1]] i j 0 /\
          (0 <? max_similarity) = true
    end.
Proof.
  apply (find_most_similar_pair_maximal
           [[1; 0.5; 0.25]; [0.5; 1; 0.75]; [0.25; 0.75; 1]]
           ["VER"; "HAM"; "LEC"]%string).
  split; [reflexivity | repeat constructor].
Defined.

Lemma SFltb_negtrans x y z :
  y <> S754_nan ->
  SFltb x y = false -> SFltb y z = false -> SFltb x z = false.
Proof.
  unfold SFltb, SFcompare.
  destruct x as [sx|sx| |sx mx ex], y as [sy|sy| |sy my ey], z as [sz|sz| |sz mz ez];
    try discriminate; try reflexivity; try congruence;
    repeat match goal with s : bool |- _ => destruct s end;
    try discriminate; try reflexivity; try congruence.
  all: change (Pos.compare_cont Eq) with Pos.compare.
  all: intros _.
  all: destruct (Z.compare_spec ex ey), (Z.compare_spec ey ez), (Z.compare_spec ex ez);
    try discriminate; try reflexivity; try lia; subst.
  all: destruct (Pos.compare_spec mx my), (Pos.compare_spec my mz), (Pos.compare_spec mx mz);
    simpl; try discriminate; try reflexivity; try lia.
Qed.

Lemma is_nan_Prim2SF (x : float) : is_nan x = false -> Prim2SF x <> S754_nan.
Proof.
  unfold is_nan. rewrite FloatAxioms.eqb_spec. intros H E. rewrite E in H. discriminate H.
Qed.

Lemma ltb_negtrans (x y z : float) :
  is_nan y = false -> (x <? y) = false -> (y <? z) = false -> (x <? z) = false.
Proof.
  intros Hy. rewrite !FloatAxioms.ltb_spec. apply SFltb_negtrans, is_nan_Prim2SF, Hy.
Qed.

(** ** The rankings *)

Lemma insert_desc_Permutation key d l : Permutation (insert_desc key d l) (d :: l).
Proof.
  induction l as [|y l IH]; simpl; [reflexivity|].
  destruct (key d <? key y); [|reflexivity].
  rewrite IH. apply perm_swap.
Qed.

Lemma sorted_desc_Permutation key l : Permutation (sorted_desc key l) l.
Proof.
  induction l as [|d l IH]; simpl; [reflexivity|].
  rewrite insert_desc_Permutation, IH. reflexivity.
Qed.

Lemma insert_desc_descending key d l :
  Forall (fun y => is_nan (key y) = false) l ->
  descending key l -> descending key (insert_desc key d l).
Proof.
  unfold descending. intros Hnan Hl.
  induction Hl as [|y l Hl IH Hy]; simpl.
  - constructor; constructor.
  - inversion Hnan as [|? ? Hny Hnl]; subst.
    destruct (key d <? key y) eqn:E.
    + constructor; [apply IH, Hnl|].
      eapply Permutation_Forall; [symmetry; apply insert_desc_Permutation|].
      constructor; [apply ltb_asym, E | exact Hy].
    + constructor; [constructor; assumption|].
      constructor; [exact E|].
      eapply List.Forall_impl; [|exact Hy]. cbv beta. intros z Hz.
      apply (ltb_negtrans _ (key y)); assumption.
Qed.

Lemma sorted_desc_descending key l :
  Forall (fun y => is_nan (key y) = false) l -> descending key (sorted_desc key l).
Proof.
  induction 1 as [|d l Hd Hl IH]; simpl; [constructor|].
  apply insert_desc_descending; [|exact IH].
  eapply Permutation_Forall; [symmetry; apply sorted_desc_Permutation | exact Hl].
Qed.

Lemma sorted_desc_stable key l : descending key l -> sorted_desc key l = l.
Proof.
  unfold descending. induction 1 as [|d l Hl IH Hd]; simpl; [reflexivity|].
  rewrite IH. destruct l as [|y l]; [reflexivity|]. simpl.
  inversion Hd as [|? ? Hy _]; subst. rewrite Hy. reflexivity.
Qed.

Lemma dict_get_defined (p : list (string * float)) field :
  Forall (fun kv => is_nan (snd kv) = false) p -> is_nan (dict_get p field 0) = false.
Proof.
  induction 1 as [|[k v] p Hv _ IH]; simpl; [reflexivity|].
  destruct (String.eqb k field); [exact Hv | exact IH].
Qed.

Lemma by_field_defined driver_profiles field d :
  profiles_defined driver_profiles -> is_nan (by_field driver_profiles field d) = false.
Proof.
  intros H. unfold by_field. apply dict_get_defined.
  induction H as [|[k p] ps Hp _ IH]; simpl; [constructor|].
  destruct (String.eqb k d); [exact Hp | exact IH].
Qed.

Lemma filter_nil_iff {A} (f : A -> bool) l :
  List.filter f l = [] <-> forall x, In x l -> f x = false.
Proof.
  induction l as [|a l IH]; simpl; [tauto|].
  destruct (f a) eqn:E; split.
  - discriminate.
  - intros H. specialize (H a (or_introl eq_refl)). congruence.
  - intros H x [<-|Hx]; [exact E | apply IH; assumption].
  - intros H. apply IH. intros x Hx. apply H. right. exact Hx.
Qed.

Lemma filter_first {A} (f : A -> bool) l a t :
  List.filter f l = a :: t -> In a l /\ f a = true.
Proof.
  intros H. apply (filter_In f a l). rewrite H. left. reflexivity.
Qed.

(** X8: the two rankings.  When every driver has a profile and no profile
    value is NaN, the two lines list the first two drivers of the drivers
    ranked by throttle_aggression and by throttle_smoothness: each ranking
    is a rearrangement of the drivers in which no driver is followed by one
    with a greater value, and it is the driver list itself when that is
    already in such an order (ties keep the order of the list). *)
Theorem archetypes_ranked drivers driver_profiles :
  (forall d, In d drivers -> has_key driver_profiles d = true) ->
  profiles_defined driver_profiles ->
  exists aggressive smooth,
    archetypes drivers driver_profiles
    = ([MostAggressive (firstn 2 aggressive); Smoothest (firstn 2 smooth)], Returns tt) /\
    Permutation aggressive drivers /\
    descending (by_field driver_profiles "throttle_aggression") aggressive /\
    (descending (by_field driver_profiles "throttle_aggression") drivers ->
     aggressive = drivers) /\
    Permutation smooth drivers /\
    descending (by_field driver_profiles "throttle_smoothness") smooth /\
    (descending (by_field driver_profiles "throttle_smoothness") drivers ->
     smooth = drivers).
Proof.
  intros Hkeys Hdef.
  exists (sorted_desc (by_field driver_profiles "throttle_aggression") drivers),
         (sorted_desc (by_field driver_profiles "throttle_smoothness") drivers).
  assert (Hnan : forall field,
             Forall (fun y => is_nan (by_field driver_profiles field y) = false) drivers).
  { intros field. apply List.Forall_forall. intros d _. apply by_field_defined, Hdef. }
  split; [|repeat split].
  - unfold archetypes.
    assert (E : List.filter (fun d => negb (has_key driver_profiles d)) drivers = []).
    { apply filter_nil_iff. intros d Hd. rewrite (Hkeys d Hd). reflexivity. }
    rewrite E. reflexivity.
  - apply sorted_desc_Permutation.
  - apply sorted_desc_descending, Hnan.
  - apply sorted_desc_stable.
  - apply sorted_desc_Permutation.
  - apply sorted_desc_descending, Hnan.
  - apply sorted_desc_stable.
Qed.

Lemma archetypes_ranked_witness :
  exists aggressive smooth,
    archetypes ["VER"; "HAM"; "LEC"]%string three_profiles
    = ([MostAggressive (firstn 2 aggressive); Smoothest (firstn 2 smooth)], Returns tt) /\
    Permutation aggressive ["VER"; "HAM"; "LEC"]%string /\
    descending (by_field three_profiles "throttle_aggression") aggressive /\
    (descending (by_field three_profiles "throttle_aggression") ["VER"; "HAM"; "LEC"]%string ->
     aggressive = ["VER"; "HAM"; "LEC"]%string) /\
    Permutation smooth ["VER"; "HAM"; "LEC"]%string /\
    descending (by_field three_profiles "throttle_smoothness") smooth /\
    (descending (by_field three_profiles "throttle_smoothness") ["VER"; "HAM"; "LEC"]%string ->
     smooth = ["VER"; "HAM"; "LEC"]%string).
Proof.
  apply (archetypes_ranked ["VER"; "HAM"; "LEC"]%string three_profiles).
  - intros d [<-|[<-|[<-|[]]]]; reflexivity.
  - repeat constructor.
Defined.

Lemma archetypes_returns drivers driver_profiles :
  result (archetypes drivers driver_profiles) = Returns tt /\
  forall e, In (ErrorGeneratingInsights e) (output (archetypes drivers driver_profiles)) ->
    exists d, e = KeyError d /\ In d drivers /\ has_key driver_profiles d = false.
Proof.
  unfold archetypes.
  destruct (List.filter (fun d => negb (has_key driver_profiles d)) drivers) as [|d t] eqn:E.
  - split; [reflexivity|]. cbn. intros e [H|[H|[]]]; discriminate H.
  - apply filter_first in E. destruct E as [Hin Hd].
    split; [reflexivity|]. cbn. intros e [H|[]]. injection H as <-.
    exists d. split; [reflexivity|]. split; [exact Hin|].
    destruct (has_key driver_profiles d); [discriminate Hd | reflexivity].
Qed.

(** X9: [print_analysis_insights] on a square matrix of the driver count.
    No exception escapes it.  With fewer than two drivers it prints the
    driver count and the insufficient-data line only.  A most-similar line
    names the drivers at two positions i < j with the entry at (i, j), which
    is greater than 0 and exceeded by no entry above the diagonal.  An error
    line is printed only for a driver that has no profile (the KeyError of
    the ranking, caught). *)
Theorem print_analysis_insights_returns similarity_matrix drivers driver_profiles :
  square (length drivers) similarity_matrix ->
  let run := print_analysis_insights similarity_matrix drivers driver_profiles in
  result run = Returns tt /\
  ((length drivers < 2)%nat ->
   output run = [DriversAnalyzed (length drivers); InsufficientInsights]) /\
  (forall a b s, In (MostSimilar a b s) (output run) ->
     exists i j, (i < j < length drivers)%nat /\
       a = nth i drivers EmptyString /\ b = nth j drivers EmptyString /\
       s = entry similarity_matrix i j 0 /\ (0 <? s) = true /\
       forall i' j', (i' < j' < length drivers)%nat ->
         (s <? entry similarity_matrix i' j' 0) = false) /\
  (forall e, In (ErrorGeneratingInsights e) (output run) ->
     exists d, e = KeyError d /\ In d drivers /\ has_key driver_profiles d = false).
Proof.
  intros Hsq run. subst run. unfold print_analysis_insights.
  destruct ((length (concat similarity_matrix) =? 0)%nat || (length drivers <? 2)%nat) eqn:G.
  - split; [reflexivity|]. split; [reflexivity|]. cbn.
    split; [intros a b s [H|[H|[]]]; discriminate H|].
    intros e [H|[H|[]]]; discriminate H.
  - apply orb_false_iff in G. destruct G as [_ G]. apply Nat.ltb_ge in G.
    destruct (similar_fold similarity_matrix drivers (pairs (length drivers)) [] (0, None) Hsq)
      as ([mx pair] & Hf & Hmax & Hpair).
    { intros i j. apply pairs_In. }
    { split; [intros i j []|reflexivity]. }
    fold (find_most_similar_pair similarity_matrix drivers) in Hf.
    cbn [app fst snd] in Hmax, Hpair.
    destruct (archetypes_returns drivers driver_profiles) as [Har Hae].
    set (tail := match driver_profiles with
                 | [] => ret tt
                 | _ :: _ => archetypes drivers driver_profiles
                 end).
    assert (Ht : result tail = Returns tt /\
                 (forall a b s, ~ In (MostSimilar a b s) (output tail)) /\
                 forall e, In (ErrorGeneratingInsights e) (output tail) ->
                   exists d, e = KeyError d /\ In d drivers /\
                             has_key driver_profiles d = false).
    { subst tail. destruct driver_profiles as [|dp dps].
      - split; [reflexivity|]. split; [intros a b s []|intros e []].
      - split; [exact Har|]. split; [|exact Hae].
        intros a b s. unfold archetypes.
        destruct (List.filter _ drivers); cbn; intuition discriminate. }
    destruct Ht as (Htr & Htm & Hte). destruct tail as [tout tr].
    cbn [result output fst snd] in Htr, Htm, Hte. subst tr.
    rewrite Hf. destruct pair as [[a b]|]; cbn.
    + split; [reflexivity|]. split; [intros; lia|]. split.
      * intros a' b' s [H|[H|H]]; [discriminate H| |exfalso; eapply Htm, H].
        injection H as <- <- <-.
        destruct Hpair as (i & j & Hin & Ha & Hb & Hs & Hpos).
        exists i, j. split; [apply pairs_In, Hin|].
        repeat (split; [assumption|]).
        intros i' j' Hij. apply Hmax, pairs_In, Hij.
      * intros e [H|[H|H]]; [discriminate H|discriminate H|apply Hte, H].
    + split; [reflexivity|]. split; [intros; lia|]. split.
      * intros a' b' s [H|H]; [discriminate H|exfalso; eapply Htm, H].
      * intros e [H|H]; [discriminate H|apply Hte, H].
Qed.

Lemma print_analysis_insights_returns_witness :
  let run := print_analysis_insights [[1; 0.5; 0.25]; [0.5; 1; 0.75]; [0.25; 0.75; 1]]
               ["VER"; "HAM"; "LEC"]%string three_profiles in
  result run = Returns tt /\
  ((3 < 2)%nat -> output run = [DriversAnalyzed 3; InsufficientInsights]) /\
  (forall a b s, In (MostSimilar a b s) (output run) ->
     exists i j, (i < j < 3)%nat /\
       a = nth i ["VER"; "HAM"; "LEC"]%string EmptyString /\
       b = nth j ["VER"; "HAM"; "LEC"]%string EmptyString /\
       s = entry [[1; 0.5; 0.25]; [0.5; 1; 0.75]; [0.25; 0.75; 1]] i j 0 /\
       (0 <? s) = true /\
       forall i' j', (i' < j' < 3)%nat ->
         (s <? entry [[1; 0.5; 0.25]; [0.5; 1; 0.75]; [0.25; 0.75; 1]] i' j' 0) = false) /\
  (forall e, In (ErrorGeneratingInsights e) (output run) ->
     exists d, e = KeyError d /\ In d ["VER"; "HAM"; "LEC"]%string /\
               has_key three_profiles d = false).
Proof.
  apply (print_analysis_insights_returns
           [[1; 0.5; 0.25]; [0.5; 1; 0.75]; [0.25; 0.75; 1]]
           ["VER"; "HAM"; "LEC"]%string three_profiles).
  split; [reflexivity | repeat constructor].
Defined.

(** ** The orchestrators *)

Lemma insights_never_raise similarity_matrix drivers driver_profiles :
  similarity_matrix = [] \/ square (length drivers) similarity_matrix ->
  result (print_analysis_insights similarity_matrix drivers driver_profiles) = Returns tt.
Proof.
  intros Hsq. unfold print_analysis_insights.
  destruct ((length (concat similarity_matrix) =? 0)%nat || (length drivers <? 2)%nat) eqn:G;
    [reflexivity|].
  destruct Hsq as [->|Hsq]; [discriminate G|].
  destruct (similar_fold similarity_matrix drivers (pairs (length drivers)) [] (0, None) Hsq)
    as ([mx pair] & Hf & _).
  { intros i j. apply pairs_In. }
  { split; [intros i j []|reflexivity]. }
  fold (find_most_similar_pair similarity_matrix drivers) in Hf.
  rewrite (bind_result (print _) _ tt) by reflexivity.
  rewrite (bind_result _ _ (mx, pair)) by (rewrite Hf; reflexivity).
  rewrite (bind_result _ _ tt) by (destruct pair as [[a b]|]; reflexivity).
  destruct driver_profiles; [reflexivity|].
  apply archetypes_returns.
Qed.

Lemma analysis_shape clustered_data :
  exists S D,
    result (analyze_driving_style_similarity clustered_data)
    = Returns (S, D, unique (map driver_of clustered_data), build_profiles clustered_data) /\
    (S = [] \/ square (length (unique (map driver_of clustered_data))) S).
Proof.
  rewrite <- build_profiles_keys. unfold analyze_driving_style_similarity.
  destruct (length (build_profiles clustered_data) <? 2)%nat.
  - exists [], []. split; [reflexivity | left; reflexivity].
  - eexists _, _. split; [reflexivity|]. right. cbv zeta.
    replace (length (map fst (build_profiles clustered_data)))
      with (length (fit_transform
                      (nan_to_num (profile_matrix (build_profiles clustered_data))))).
    + apply cosine_similarity_square.
    + rewrite length_fit_transform, length_nan_to_num.
      unfold profile_matrix. rewrite !length_map. reflexivity.
Qed.

Section Pipeline.
Variable choice : nat -> nat -> list nat.
Variable dbscan : float -> nat -> list (list float) -> list Z.
Variable Figure : Type.
Variable render :
  list (list float) -> list (list float) -> list string ->
  list (string * list (string * float)) -> list ClusteredRow -> string ->
  M (Figure * list (list float)).

Lemma track_analysis_result clustered_data track_name output_dir :
  exists S D,
    result (analyze_driving_style_similarity clustered_data)
    = Returns (S, D, unique (map driver_of clustered_data), build_profiles clustered_data) /\
    (S = [] \/ square (length (unique (map driver_of clustered_data))) S) /\
    result (analyze_track_driving_styles Figure render clustered_data track_name output_dir)
    = match result (render S D (unique (map driver_of clustered_data))
                      (build_profiles clustered_data) clustered_data track_name) with
      | Returns (fig, pca_result) => Returns (fig, build_profiles clustered_data)
      | Raises e => Raises e
      end.
Proof using Type.
  destruct (analysis_shape clustered_data) as (S & D & Ha & Hsq).
  exists S, D. split; [exact Ha|]. split; [exact Hsq|].
  unfold analyze_track_driving_styles.
  rewrite (bind_result (print _) _ tt) by reflexivity.
  rewrite (bind_result _ _ _ Ha).
  destruct (result (render S D (unique (map driver_of clustered_data))
                      (build_profiles clustered_data) clustered_data track_name))
    as [[fig pca]|e] eqn:Er.
  - rewrite (bind_result _ _ _ Er).
    rewrite (bind_result _ _ tt)
      by (destruct output_dir as [dir|]; [destruct (String.eqb dir EmptyString)|];
          reflexivity).
    rewrite (bind_result _ _ tt) by (apply insights_never_raise, Hsq).
    reflexivity.
  - apply result_bind_raises, Er.
Qed.


Hypothesis choice_without_replacement : forall N n,
  (n <= N)%nat ->
  length (choice N n) = n /\ List.NoDup (choice N n) /\
  Forall (fun i => (i < N)%nat) (choice N n).
Hypothesis dbscan_labels : forall e m X, length (dbscan e m X) = length X.

End Pipeline.


Section AllTracksProperties.
Variable choice : nat -> nat -> list nat.
Variable dbscan : float -> nat -> list (list float) -> list Z.
Variable Figure : Type.
Variable render :
  list (list float) -> list (list float) -> list string ->
  list (string * list (string * float)) -> list ClusteredRow -> string ->
  M (Figure * list (list float)).
Variable track_dirs : string -> option (list (string * DataFrame)).
Variable output_dir : option string.
Variable show_plots : bool.

Local Abbreviation single :=
  (track_run choice dbscan Figure render track_dirs output_dir show_plots).
Local Abbreviation with_figure :=
  (has_figure choice dbscan Figure render track_dirs output_dir show_plots).

(** A single-track run that returns a figure had more than 100 rows. *)
Lemma figure_needs_data track fig profiles :
  result (single track) = Returns (Some fig, profiles) ->
  sufficient_track track_dirs track = true.
Proof using Type.
  unfold track_run, analyze_single_track, sufficient_track. intros H.
  apply bind_returns in H. destruct H as (u & _ & H).
  apply bind_returns in H. destruct H as ([track_data stats] & Hl & H).
  rewrite Hl. destruct track_data as [data|]; [|discriminate H].
  simpl. destruct (100 <? length data)%nat; [reflexivity | discriminate H].
Qed.

Lemma all_tracks_fold tracks acc :
  List.NoDup tracks ->
  (forall t, In t tracks -> ~ In t (map fst acc)) ->
  match result (foldM (all_tracks_step choice dbscan Figure render track_dirs
                         output_dir show_plots) acc tracks) with
  | Returns results =>
      map fst results
      = map fst acc
        ++ List.filter with_figure tracks /\
      forall t r, In (t, r) results ->
        In (t, r) acc \/ (In t tracks /\ result (single t) = Returns r)
  | Raises e => exists t, In t tracks /\ result (single t) = Raises e
  end.
Proof using Type.
  revert acc. induction tracks as [|track tracks IH]; intros acc Hnd Hfresh; cbn [foldM].
  - simpl. rewrite app_nil_r. split; [reflexivity | auto].
  - inversion Hnd as [|? ? Hnotin Hnd']; subst.
    unfold all_tracks_step at 1. fold (single track).
    assert (Hfig : with_figure track
                   = match result (single track) with
                     | Returns (Some _, _) => true
                     | _ => false
                     end) by reflexivity.
    cbn [List.filter].
    destruct (result (single track)) as [[[fig|] profiles]|e] eqn:Es; rewrite ?Hfig.
    + rewrite (bind_result _ _ (dict_set acc track (Some fig, profiles)))
        by (rewrite (bind_result _ _ _ Es); reflexivity).
      assert (Hset : dict_set acc track (Some fig, profiles)
                     = acc ++ [(track, (Some fig, profiles))])
        by (apply dict_set_fresh, Hfresh; left; reflexivity).
      rewrite Hset.
      specialize (IH (acc ++ [(track, (Some fig, profiles))]) Hnd').
      destruct (result (foldM _ (acc ++ [(track, (Some fig, profiles))]) tracks))
        as [results|e].
      * destruct IH as [Hkeys Hres].
        { intros t Ht. rewrite map_app. intros Hin. apply in_app_or in Hin.
          destruct Hin as [Hin|[<-|[]]]; [|contradiction].
          apply (Hfresh t); [right; exact Ht | exact Hin]. }
        split.
        -- rewrite Hkeys, map_app, <- app_assoc. reflexivity.
        -- intros t r Hin. destruct (Hres t r Hin) as [Hacc|[Ht Hr]].
           ++ apply in_app_or in Hacc. destruct Hacc as [Hacc|[E|[]]]; [left; exact Hacc|].
              injection E as <- <-. right. split; [left; reflexivity | exact Es].
           ++ right. split; [right; exact Ht | exact Hr].
      * destruct IH as (t & Ht & Hr).
        { intros t Ht. rewrite map_app. intros Hin. apply in_app_or in Hin.
          destruct Hin as [Hin|[<-|[]]]; [|contradiction].
          apply (Hfresh t); [right; exact Ht | exact Hin]. }
        exists t. split; [right; exact Ht | exact Hr].
    + rewrite (bind_result _ _ acc) by (rewrite (bind_result _ _ _ Es); reflexivity).
      specialize (IH acc Hnd').
      destruct (result (foldM _ acc tracks)) as [results|e].
      * destruct IH as [Hkeys Hres].
        { intros t Ht. apply Hfresh. right. exact Ht. }
        split; [exact Hkeys|].
        intros t r Hin. destruct (Hres t r Hin) as [Hacc|[Ht Hr]]; [left; exact Hacc|].
        right. split; [right; exact Ht | exact Hr].
      * destruct IH as (t & Ht & Hr).
        { intros t Ht. apply Hfresh. right. exact Ht. }
        exists t. split; [right; exact Ht | exact Hr].
    + rewrite (result_bind_raises _ _ e)
        by (apply result_bind_raises, Es).
      exists track. split; [left; reflexivity | exact Es].
Qed.

(** X12: [analyze_all_tracks_driving_styles].  When it returns, the keys of
    the results are, in the order of the track list, exactly the tracks
    whose single-track run returned a figure; each stored value is what that
    run returned, and each such track had more than 100 rows loaded; the
    closing banner is the last line printed.  It raises only an exception
    raised by the run of one of the four tracks, and then the banner is not
    printed: a failure in one track ends the whole session. *)
Theorem analyze_all_tracks_results :
  let run :=
    analyze_all_tracks_driving_styles choice dbscan Figure render track_dirs
      output_dir show_plots in
  match snd run with
  | Returns results =>
      map fst results
      = List.filter with_figure available_tracks /\
      (forall t r, In (t, r) results ->
         result (single t) = Returns r /\ sufficient_track track_dirs t = true) /\
      exists lines, fst run = lines ++ [AnalysisComplete]
  | Raises e =>
      (exists t, In t available_tracks /\ result (single t) = Raises e) /\
      ~ In AnalysisComplete (fst run)
  end.
Proof using Type.
  cbv zeta. unfold analyze_all_tracks_driving_styles.
  pose proof (all_tracks_fold available_tracks []) as H.
  destruct (foldM (all_tracks_step choice dbscan Figure render track_dirs
                     output_dir show_plots) [] available_tracks) as [out [results|e]];
    cbn [result fst snd] in *.
  - destruct H as [Hkeys Hres].
    { repeat constructor; simpl; intuition discriminate. }
    { intros t _ []. }
    split; [exact Hkeys|]. split; [|eauto].
    intros t r Hin. destruct (Hres t r Hin) as [[]|[Ht Hr]].
    split; [exact Hr|].
    assert (Hfig : with_figure t = true).
    { assert (Hk : In t (map fst results))
        by (apply in_map_iff; exists (t, r); split; [reflexivity | exact Hin]).
      rewrite Hkeys in Hk. apply filter_In in Hk. apply Hk. }
    unfold has_figure in Hfig. fold (single t) in Hfig. rewrite Hr in Hfig.
    destruct r as [[fig|] profiles]; [|discriminate Hfig].
    apply (figure_needs_data t fig profiles Hr).
  - split.
    + apply H; [repeat constructor; simpl; intuition discriminate | intros t _ []].
    + intros Hin. apply in_map_iff in Hin. destruct Hin as (m & E & _). discriminate E.
Qed.
End AllTracksProperties.

(** ** NaN and infinity handling before scaling *)

Lemma not_infinite (x : float) :
  is_nan x = false -> (x =? infinity) = false -> (x =? neg_infinity) = false ->
  is_finite x = true.
Proof.
  unfold is_finite, is_infinity. intros -> Hp Hn. cbn [orb].
  rewrite FloatAxioms.eqb_spec in *. rewrite abs_spec.
  change (Prim2SF infinity) with (S754_infinity false) in *.
  change (Prim2SF neg_infinity) with (S754_infinity true) in *.
  destruct (Prim2SF x) as [s|[|]| |s m e]; cbn in *; congruence.
Qed.

Lemma finite_not_infinite (x : float) :
  is_finite x = true ->
  is_nan x = false /\ (x =? infinity) = false /\ (x =? neg_infinity) = false.
Proof.
  unfold is_finite, is_infinity. intros H. apply negb_true_iff, orb_false_iff in H.
  destruct H as [Hn Hi]. split; [exact Hn|].
  rewrite !FloatAxioms.eqb_spec in *. rewrite abs_spec in Hi.
  change (Prim2SF infinity) with (S754_infinity false) in *.
  change (Prim2SF neg_infinity) with (S754_infinity true) in *.
  destruct (Prim2SF x) as [s|[|]| |s m e]; cbn in *; split; congruence.
Qed.

Lemma nan_to_num_rows (f : float -> float) (X : list (list float)) :
  Forall (Forall (fun x => f x = x)) X -> map (map f) X = X.
Proof.
  induction 1 as [|r X Hr _ IH]; simpl; [reflexivity|]. f_equal; [|exact IH].
  induction Hr as [|x r Hx _ IHr]; simpl; [reflexivity|]. rewrite Hx, IHr. reflexivity.
Qed.

Lemma nan_to_num_finite_id (X : list (list float)) :
  Forall (Forall (fun x => is_finite x = true)) X -> nan_to_num X = X.
Proof.
  intros H. unfold nan_to_num. apply nan_to_num_rows.
  eapply List.Forall_impl; [|exact H]. cbv beta. intros r Hr.
  eapply List.Forall_impl; [|exact Hr]. cbv beta. intros x Hx.
  destruct (finite_not_infinite x Hx) as (-> & -> & ->). reflexivity.
Qed.

(** X13: [np.nan_to_num] as the code calls it.  The matrix it returns has the
    shape of its argument and only finite entries, and a matrix whose
    entries are all finite is returned as it is. *)
Theorem nan_to_num_finite (X : list (list float)) :
  map (@length float) (nan_to_num X) = map (@length float) X /\
  Forall (Forall (fun x => is_finite x = true)) (nan_to_num X) /\
  (Forall (Forall (fun x => is_finite x = true)) X <-> nan_to_num X = X).
Proof.
  assert (Hfin : Forall (Forall (fun x => is_finite x = true)) (nan_to_num X)).
  { unfold nan_to_num. apply List.Forall_forall. intros r Hr.
    apply in_map_iff in Hr. destruct Hr as (r0 & <- & _).
    apply List.Forall_forall. intros y Hy.
    apply in_map_iff in Hy. destruct Hy as (x & <- & _).
    destruct (is_nan x) eqn:En; [reflexivity|].
    destruct (x =? infinity) eqn:Ep; [reflexivity|].
    destruct (x =? neg_infinity) eqn:Em; [reflexivity|].
    apply not_infinite; assumption. }
  split; [|split; [exact Hfin|split]].
  - unfold nan_to_num. rewrite map_map. apply map_ext. intros r. apply length_map.
  - apply nan_to_num_finite_id.
  - intros E. rewrite <- E. exact Hfin.
Qed.

Lemma features_of_finite rows :
  Forall finite_row rows -> features_of rows = map (fun r => values (feats r)) rows.
Proof.
  intros H. unfold features_of. apply nan_to_num_finite_id.
  apply List.Forall_forall. intros v Hv. apply in_map_iff in Hv.
  destruct Hv as (r & <- & Hr). rewrite List.Forall_forall in H. apply H, Hr.
Qed.

(** X14: on tables of finite rows the NaN and infinity handling of
    [cluster_track_data] changes nothing.  When every value of the input
    table is finite (as [load_track_data] returns it), every value of the
    returned table is finite and the labels are those DBSCAN gives, with the
    parameters of the track, to the standardized features of the returned
    rows themselves. *)
Theorem finite_table_clustered_as_is choice dbscan data track_name cap table :
  Forall finite_row data ->
  result (cluster_track_data choice dbscan data track_name cap) = Returns table ->
  Forall (fun cr => finite_row (row cr)) table /\
  let params := dict_get TRACK_CLUSTERING_PARAMS track_name DEFAULT_CLUSTERING_PARAMS in
  map Cluster table
  = dbscan (eps params) (min_samples params)
      (fit_transform (map (fun cr => values (feats (row cr))) table)).
Proof.
  intros Hfin H.
  destruct (cluster_track_data_inv choice dbscan _ _ _ _ H) as (sampled & Hall & Hrow & Hcl).
  assert (Hrows : Forall finite_row (map row table)).
  { rewrite Hrow. apply List.Forall_forall. intros r Hr.
    apply in_concat in Hr. destruct Hr as (s & Hs & Hr).
    rewrite List.Forall_forall in Hfin. apply Hfin.
    clear - Hall Hs Hr. induction Hall as [|d s' ds ss Hd _ IH]; [destruct Hs|].
    destruct Hs as [->|Hs]; [|exact (IH Hs)].
    apply driver_sample_rows in Hd. rewrite List.Forall_forall in Hd. apply Hd, Hr. }
  split.
  - apply List.Forall_forall. intros cr Hcr.
    rewrite List.Forall_forall in Hrows. apply Hrows, in_map, Hcr.
  - cbv zeta. rewrite Hcl, <- Hrow. unfold labels_of. cbv zeta.
    rewrite (features_of_finite _ Hrows), map_map. reflexivity.
Qed.

Lemma finite_rows_check rows :
  forallb (fun r => all_finite (feats r)) rows = true -> Forall finite_row rows.
Proof.
  rewrite forallb_forall, List.Forall_forall. intros H r Hr.
  apply all_finite_spec, H, Hr.
Qed.

Lemma finite_table_clustered_as_is_witness :
  Forall (fun cr => finite_row (row cr)) track_table /\
  let params := dict_get TRACK_CLUSTERING_PARAMS "Japan" DEFAULT_CLUSTERING_PARAMS in
  map Cluster track_table
  = all_noise (eps params) (min_samples params)
      (fit_transform (map (fun cr => values (feats (row cr))) track_table)).
Proof.
  apply (finite_table_clustered_as_is first_rows all_noise track_rows "Japan" 3 track_table).
  - apply finite_rows_check. vm_compute. reflexivity.
  - exact track_table_returned.
Defined.

(** ** The radar chart *)

Lemma mapM_raises {A B} (f : A -> M B) l e :
  result (mapM f l) = Raises e -> exists a, In a l /\ result (f a) = Raises e.
Proof.
  induction l as [|a l IH]; cbn [mapM]; [discriminate|]. intros H.
  destruct (result (f a)) as [b|e'] eqn:Ea.
  - rewrite (bind_result _ _ b Ea) in H.
    destruct (result (mapM f l)) as [bs|e''] eqn:El.
    + rewrite (bind_result _ _ bs El) in H. discriminate H.
    + rewrite (result_bind_raises _ _ e'' El) in H. injection H as ->.
      destruct (IH eq_refl) as (a' & Hin & Ha'). exists a'. split; [right; exact Hin | exact Ha'].
  - rewrite (result_bind_raises _ _ e' Ea) in H. injection H as ->.
    exists a. split; [left; reflexivity | exact Ea].
Qed.

Lemma length_mapM {A B} (f : A -> M B) l bs :
  result (mapM f l) = Returns bs -> length bs = length l.
Proof.
  intros H. apply mapM_returns in H. symmetry.
  induction H; simpl; [reflexivity | f_equal; assumption].
Qed.

Lemma profile_of_result driver_profiles d :
  result (profile_of driver_profiles d)
  = if has_key driver_profiles d then Returns (dict_get driver_profiles d [])
    else Raises (KeyError d).
Proof. unfold profile_of. destruct (has_key driver_profiles d); reflexivity. Qed.

Lemma all_values_result drivers driver_profiles metric :
  match result (all_values drivers driver_profiles metric) with
  | Returns _ => True
  | Raises e => exists d, e = KeyError d /\ In d drivers /\ has_key driver_profiles d = false
  end.
Proof.
  unfold all_values. set (c := mapM _ drivers).
  destruct (result c) as [found|e] eqn:E; subst c.
  - rewrite (bind_result _ _ found E). exact I.
  - rewrite (result_bind_raises _ _ e E).
    apply mapM_raises in E. destruct E as (d & Hd & Hr).
    exists d. pose proof (profile_of_result driver_profiles d) as Hp.
    destruct (has_key driver_profiles d).
    + rewrite (bind_result _ _ _ Hp) in Hr.
      destruct (_ && _) in Hr; discriminate Hr.
    + rewrite (result_bind_raises _ _ _ Hp) in Hr. injection Hr as <-. auto.
Qed.

Lemma radar_value_result drivers driver_profiles driver metric :
  In driver drivers ->
  match result (radar_value drivers driver_profiles driver metric) with
  | Returns v => has_key driver_profiles driver = true /\ is_finite v = true
  | Raises e => exists d, e = KeyError d /\ In d drivers /\ has_key driver_profiles d = false
  end.
Proof.
  intros Hin. unfold radar_value.
  pose proof (profile_of_result driver_profiles driver) as Hp.
  destruct (has_key driver_profiles driver) eqn:Hk.
  - rewrite (bind_result _ _ _ Hp).
    set (profile := dict_get driver_profiles driver []).
    assert (Hfin : forall n, is_finite (if is_nan n || is_infinity n then 0.5 else n) = true).
    { intros n. destruct (is_nan n || is_infinity n) eqn:E; [reflexivity|].
      unfold is_finite. rewrite E. reflexivity. }
    destruct (has_key profile metric).
    + pose proof (all_values_result drivers driver_profiles metric) as Ha.
      destruct (result (all_values drivers driver_profiles metric)) as [vs|e] eqn:Ev.
      * assert (Hn : exists n,
                   result (bind (all_values drivers driver_profiles metric)
                             (fun all_values =>
                                match all_values with
                                | x :: (_ :: _) as rest =>
                                    ret (if negb (py_max x rest =? py_min x rest)
                                         then (dict_get profile metric nan - py_min x rest)
                                              / (py_max x rest - py_min x rest)
                                         else 0.5)
                                | _ => ret 0.5
                                end)) = Returns n).
        { rewrite (bind_result _ _ vs Ev). destruct vs as [|x [|y vs]]; eexists; reflexivity. }
        destruct Hn as [n Hn]. rewrite (bind_result _ _ n Hn).
        split; [reflexivity | apply Hfin].
      * rewrite (result_bind_raises _ _ e); [exact Ha|].
        apply result_bind_raises, Ev.
    + rewrite (bind_result _ _ 0.5) by reflexivity. split; reflexivity.
  - rewrite (result_bind_raises _ _ _ Hp). exists driver. auto.
Qed.

Lemma Forall2_pick {A B} (R : A -> B -> Prop) l l' a :
  Forall2 R l l' -> In a l -> exists b, In b l' /\ R a b.
Proof.
  induction 1 as [|x y l l' Hxy _ IH]; intros Hin; [destruct Hin|].
  destruct Hin as [->|Hin].
  - exists y. split; [left; reflexivity | exact Hxy].
  - destruct (IH Hin) as (b & Hb & Hab). exists b. split; [right; exact Hb | exact Hab].
Qed.

Lemma Forall2_Forall_r {A B} (R : A -> B -> Prop) (P : B -> Prop) l l' :
  Forall2 R l l' -> (forall a b, In a l -> R a b -> P b) -> Forall P l'.
Proof.
  induction 1 as [|x y l l' Hxy _ IH]; intros HP; constructor.
  - apply (HP x y); [left; reflexivity | exact Hxy].
  - apply IH. intros a b Ha. apply HP. right. exact Ha.
Qed.

(** X15: the values of the radar chart.  When the computation returns, every
    driver has a profile, there is one row per driver with one value per
    radar metric, and every value is finite (an undefined or infinite
    normalized value having been replaced by 0.5).  It fails only with the
    KeyError of a driver that has no profile. *)
Theorem radar_data_finite drivers driver_profiles :
  match result (radar_data drivers driver_profiles) with
  | Returns data =>
      (forall d, In d drivers -> has_key driver_profiles d = true) /\
      length data = length drivers /\
      Forall (fun r => length r = length radar_metrics /\
                       Forall (fun v => is_finite v = true) r) data
  | Raises e =>
      exists d, e = KeyError d /\ In d drivers /\ has_key driver_profiles d = false
  end.
Proof.
  unfold radar_data. set (c := mapM _ drivers).
  destruct (result c) as [data|e] eqn:E; subst c.
  - pose proof (length_mapM _ _ _ E) as Hlen. apply mapM_returns in E.
    split; [|split; [exact Hlen|]].
    + intros d Hd.
      destruct (Forall2_pick _ _ _ d E Hd) as (r & _ & Hr).
      apply mapM_returns in Hr.
      inversion Hr as [|m v ms vs Hv _]; subst.
      pose proof (radar_value_result drivers driver_profiles d "throttle_aggression" Hd) as H.
      rewrite Hv in H. apply H.
    + apply (Forall2_Forall_r _ _ _ _ E). intros d r Hd Hr.
      split; [apply (length_mapM _ _ _ Hr)|].
      apply mapM_returns in Hr.
      apply (Forall2_Forall_r _ _ _ _ Hr). intros m v _ Hv.
      pose proof (radar_value_result drivers driver_profiles d m Hd) as H.
      rewrite Hv in H. apply H.
  - apply mapM_raises in E. destruct E as (d & Hd & Hr).
    apply mapM_raises in Hr. destruct Hr as (m & _ & Hr).
    pose proof (radar_value_result drivers driver_profiles d m Hd) as H.
    rewrite Hr in H. exact H.
Qed.

(** ** The driver code of a file name *)

Lemma append_cons x (a b : string) : String x a +:+ b = String x (a +:+ b).
Proof. reflexivity. Qed.





Lemma split_nonempty sep s : split sep s <> [].
Proof.
  destruct s as [|a s]; simpl; [discriminate|].
  destruct (Ascii.eqb a sep); [discriminate|].
  destruct (split sep s); discriminate.
Qed.

Lemma split_without sep s : without sep s -> split sep s = [s].
Proof.
  unfold without. induction s as [|a s IH]; simpl; [reflexivity|]. intros H.
  destruct (Ascii.eqb_spec a sep) as [->|_]; [tauto|].
  rewrite IH by tauto. reflexivity.
Qed.

Lemma split_append sep (a b : string) :
  split sep (a +:+ String sep b) = split sep a ++ split sep b.
Proof.
  induction a as [|x a IH]; [|rewrite append_cons]; simpl.
  - rewrite Ascii.eqb_refl. reflexivity.
  - destruct (Ascii.eqb x sep); [rewrite IH; reflexivity|].
    rewrite IH. pose proof (split_nonempty sep a) as Hne.
    destruct (split sep a); [congruence | reflexivity].
Qed.

Lemma last_app_nonempty {A} (l l' : list A) d : l' <> [] -> List.last (l ++ l') d = List.last l' d.
Proof.
  intros Hne. induction l as [|x l IH]; [reflexivity|].
  simpl. destruct (l ++ l') eqn:E; [|exact IH].
  apply app_eq_nil in E. tauto.
Qed.

Lemma basename_plain x : without "/"%char x -> basename x = x.
Proof. intros H. unfold basename. rewrite split_without by exact H. reflexivity. Qed.

Lemma basename_in_directory dir x :
  without "/"%char x -> basename (dir +:+ String "/"%char x) = x.
Proof.
  intros H. unfold basename. rewrite split_append.
  rewrite last_app_nonempty by apply split_nonempty.
  rewrite split_without by exact H. reflexivity.
Qed.

Lemma replace_csv_cons a s :
  Ascii.eqb a "."%char = false -> replace_csv (String a s) = String a (replace_csv s).
Proof.
  intros H. cbn [replace_csv]. destruct s as [|b [|c [|d rest]]]; try reflexivity.
  rewrite H. reflexivity.
Qed.

Lemma replace_csv_without s : without "."%char s -> replace_csv s = s.
Proof.
  unfold without. induction s as [|a s IH]; [reflexivity|]. intros H.
  rewrite replace_csv_cons.
  - rewrite IH; [reflexivity|]. intros Hin. apply H. right. exact Hin.
  - destruct (Ascii.eqb_spec a "."%char) as [->|_]; [|reflexivity].
    exfalso. apply H. left. reflexivity.
Qed.








(** X17: every file the loader lists has a driver code.  The loader keeps the
    entries of the track directory whose name ends in [.csv], and of a
    subdirectory the entries ending in [.csv] joined to the subdirectory's
    name; a directory entry holds no slash.  For each such file name the
    loop assigns a driver code, so it never meets an unassigned one; and a
    name that does not end in [.csv] would get none. *)
Theorem listed_file_has_code item subitem :
  without "/"%char item -> without "/"%char subitem ->
  (endswith item ".csv" = true <-> exists code, driver_code_of item = Some code) /\
  (endswith subitem ".csv" = true <->
   exists code, driver_code_of (item +:+ String "/"%char subitem) = Some code).
Proof.
  intros Hitem Hsub.
  assert (Hcode : forall filename base,
             basename filename = base ->
             (endswith base ".csv" = true <-> exists code, driver_code_of filename = Some code)).
  { intros filename base Hb. unfold driver_code_of. cbv zeta. rewrite Hb.
    destruct (endswith base ".csv").
    - split; [intros _|reflexivity].
      destruct (is_code (replace_csv base)); [eauto|].
      destruct (List.filter is_code (split "-"%char (replace_csv base))); eauto.
    - split; [discriminate | intros [code H]; discriminate H]. }
  split.
  - apply Hcode, basename_plain, Hitem.
  - apply Hcode, basename_in_directory, Hsub.
Qed.

Lemma listed_file_has_code_witness :
  (endswith "Japan-quali-HAM.csv" ".csv" = true <->
   exists code, driver_code_of "Japan-quali-HAM.csv" = Some code) /\
  (endswith "LEC.csv" ".csv" = true <->
   exists code,
     driver_code_of ("Japan-quali-HAM.csv" +:+ String "/"%char "LEC.csv") = Some code).
Proof.
  apply (listed_file_has_code "Japan-quali-HAM.csv" "LEC.csv").
  - unfold without. simpl. intuition discriminate.
  - unfold without. simpl. intuition discriminate.
Defined.

(** ** Teams *)

Lemma find_team_None teams d :
  ~ In d (concat (map snd teams)) -> find_team teams d = None.
Proof.
  induction teams as [|[team drivers] teams IH]; simpl; [reflexivity|]. intros H.
  destruct (existsb (String.eqb d) drivers) eqn:E.
  - exfalso. apply H, in_or_app. left. apply existsb_exists in E.
    destruct E as (x & Hx & Hd). apply String.eqb_eq in Hd. subst x. exact Hx.
  - apply IH. intros Hin. apply H, in_or_app. right. exact Hin.
Qed.

Ltac known_driver :=
  split; [split; [intros H; discriminate H
                 |intros H; exfalso;
                  first [ apply (H "Williams"%string ["ALB"; "SAI"]%string); simpl; tauto
                        | apply (H "Mercedes"%string ["ANT"; "RUS"]%string); simpl; tauto
                        | apply (H "Ferrari"%string ["HAM"; "LEC"]%string); simpl; tauto
                        | apply (H "RedBull"%string ["VER"; "TSU"]%string); simpl; tauto
                        | apply (H "McLaren"%string ["PIA"; "NOR"]%string); simpl; tauto ]]
         |split; [intros _; cbv; tauto
                 |split; [intros H;
                          first [ discriminate H
                                | exists "Williams"%string, "ALB"%string; simpl; tauto
                                | exists "Mercedes"%string, "ANT"%string; simpl; tauto
                                | exists "Ferrari"%string, "HAM"%string; simpl; tauto
                                | exists "RedBull"%string, "VER"%string; simpl; tauto
                                | exists "McLaren"%string, "PIA"%string; simpl; tauto ]
                         |intros (team & first & H); simpl in H;
                          first [ reflexivity
                                | exfalso; intuition discriminate ]]]].

(** X18: team lookup and the line style of the radar chart.  [get_driver_team]
    always returns; the team it returns is Unknown exactly when no team of
    TEAMS lists the driver, and otherwise a team that lists the driver.
    [is_second_driver], called with the team of the driver as the chart
    does, holds exactly for the driver listed second in a team; a driver of
    no team is never second. *)
Theorem team_lookup driver_code :
  result (get_driver_team driver_code) = Returns (team_of driver_code) /\
  (team_of driver_code = "Unknown"%string <->
   forall team drivers, In (team, drivers) TEAMS -> ~ In driver_code drivers) /\
  (team_of driver_code <> "Unknown"%string ->
   In driver_code (dict_get TEAMS (team_of driver_code) [])) /\
  (is_second_driver driver_code (team_of driver_code) = true <->
   exists team first, In (team, [first; driver_code]) TEAMS).
Proof.
  split; [rewrite get_driver_team_spec; reflexivity|].
  destruct (in_dec string_dec driver_code (concat (map snd TEAMS))) as [Hin|Hout].
  - simpl in Hin.
    repeat (destruct Hin as [<-|Hin]; [known_driver|]). destruct Hin.
  - assert (Hteam : team_of driver_code = "Unknown"%string).
    { unfold team_of. rewrite (find_team_None TEAMS driver_code Hout). reflexivity. }
    rewrite Hteam. split; [|split].
    + split; [|reflexivity]. intros _ team drivers Ht Hd. apply Hout.
      apply in_concat. exists drivers. split; [|exact Hd].
      apply in_map_iff. exists (team, drivers). auto.
    + congruence.
    + split; [intros H; discriminate H|].
      intros (team & first & H). exfalso. apply Hout.
      apply in_concat. exists [first; driver_code]. split; [|right; left; reflexivity].
      apply in_map_iff. exists (team, [first; driver_code]). auto.
Qed.

(** ** What the analysis reads *)

Lemma map_factor {A B C} (g : A -> B) (h : B -> C) (l l' : list A) :
  map g l = map g l' -> map (fun a => h (g a)) l = map (fun a => h (g a)) l'.
Proof.
  intros H. rewrite <- (List.map_map g h l), <- (List.map_map g h l'), H. reflexivity.
Qed.

Lemma ccol_analysed f (t t' : list ClusteredRow) :
  map analysed t = map analysed t' -> ccol f t = ccol f t'.
Proof.
  intros H. unfold ccol.
  apply (map_factor analysed (fun p : Features * string => f (fst p)) t t' H).
Qed.

Lemma filter_analysed (p : Features * string -> bool) (t t' : list ClusteredRow) :
  map analysed t = map analysed t' ->
  map analysed (List.filter (fun r => p (analysed r)) t)
  = map analysed (List.filter (fun r => p (analysed r)) t').
Proof. intros H. rewrite <- !filter_map_comm, H. reflexivity. Qed.

Lemma driver_profile_analysed (dd dd' : list ClusteredRow) :
  map analysed dd = map analysed dd' -> driver_profile dd = driver_profile dd'.
Proof.
  intros H.
  assert (Hlow : map analysed (low_speed_data dd) = map analysed (low_speed_data dd')).
  { unfold low_speed_data. rewrite (ccol_analysed Speed dd dd' H).
    apply (filter_analysed
             (fun p => Speed (fst p) <? quantile 3 10 (ccol Speed dd')) dd dd' H). }
  assert (Hhigh : map analysed (high_speed_data dd) = map analysed (high_speed_data dd')).
  { unfold high_speed_data. rewrite (ccol_analysed Speed dd dd' H).
    apply (filter_analysed
             (fun p => quantile 7 10 (ccol Speed dd') <? Speed (fst p)) dd dd' H). }
  unfold driver_profile. cbv zeta.
  rewrite !(ccol_analysed _ dd dd' H).
  rewrite (ccol_analysed Throttle _ _ Hlow), (ccol_analysed Throttle _ _ Hhigh).
  replace (length (low_speed_data dd)) with (length (low_speed_data dd'))
    by (rewrite <- (length_map analysed), <- Hlow; apply length_map).
  replace (length (high_speed_data dd)) with (length (high_speed_data dd'))
    by (rewrite <- (length_map analysed), <- Hhigh; apply length_map).
  reflexivity.
Qed.

Lemma build_profiles_analysed (t t' : list ClusteredRow) :
  map analysed t = map analysed t' -> build_profiles t = build_profiles t'.
Proof.
  intros H. rewrite !build_profiles_eq.
  assert (Hd : map driver_of t = map driver_of t').
  { apply (map_factor analysed (fun p : Features * string => snd p) t t' H). }
  rewrite Hd. apply map_ext. intros d. f_equal. apply driver_profile_analysed.
  unfold rows_of.
  apply (filter_analysed (fun p => String.eqb (snd p) d) t t' H).
Qed.

(** X19: the similarity analysis reads only the features and the driver of
    each row.  Two tables that agree on these give the same profiles,
    matrices and output: neither the cluster labels that DBSCAN assigned nor
    the team column has any influence on the analysis. *)
Theorem analysis_ignores_labels (table table' : list ClusteredRow) :
  map analysed table = map analysed table' ->
  analyze_driving_style_similarity table = analyze_driving_style_similarity table'.
Proof.
  intros H. unfold analyze_driving_style_similarity.
  rewrite (build_profiles_analysed table table' H). reflexivity.
Qed.

Lemma analysis_ignores_labels_witness :
  analyze_driving_style_similarity track_table
  = analyze_driving_style_similarity (unlabelled track_table).
Proof.
  apply (analysis_ignores_labels track_table (unlabelled track_table)).
  unfold unlabelled. rewrite map_map. reflexivity.
Defined.

(** ** The order of the balanced table *)

Lemma filter_idem {A} (f : A -> bool) l :
  List.filter f (List.filter f l) = List.filter f l.
Proof.
  induction l as [|a l IH]; [reflexivity|]. cbn [List.filter].
  destruct (f a) eqn:E; [cbn [List.filter]; rewrite E, IH; reflexivity | exact IH].
Qed.

Section Regrouping.
Variable choice : nat -> nat -> list nat.
Variable dbscan : float -> nat -> list (list float) -> list Z.

Hypothesis choice_without_replacement : forall N n,
  (n <= N)%nat ->
  length (choice N n) = n /\ List.NoDup (choice N n) /\
  Forall (fun i => (i < N)%nat) (choice N n).

Lemma driver_sample_kept data cap d s :
  result (driver_sample choice data cap d) = Returns s ->
  map Driver s = repeat d (Nat.min (length (rows_of Driver d data)) (Z.to_nat cap)) /\
  ((Z.of_nat (length (rows_of Driver d data)) <= cap)%Z -> s = rows_of Driver d data).
Proof using choice_without_replacement.
  intros H.
  assert (Hd : map Driver s = repeat d (length s)).
  { pose proof (driver_sample_rows choice data cap d s H) as Hrows.
    clear H. induction Hrows as [|r s [_ Hr] _ IH]; simpl; [reflexivity|].
    rewrite Hr, IH. reflexivity. }
  rewrite Hd. clear Hd. unfold driver_sample, sample in H.
  set (dd := rows_of Driver d data) in *.
  destruct (Z.ltb_spec cap (Z.of_nat (length dd))) as [Hlt|Hge].
  - destruct (Z.ltb_spec cap 0); [discriminate H|].
    destruct (Z.ltb_spec (Z.of_nat (length dd)) cap); [discriminate H|].
    cbv [ret result snd] in H. injection H as <-.
    destruct (choice_without_replacement (length dd) (Z.to_nat cap)) as (Hl & _ & Hb);
      [lia|].
    rewrite take_length, Hl by exact Hb. split; [f_equal; lia | lia].
  - cbv [ret result snd] in H. injection H as <-.
    split; [f_equal; lia | reflexivity].
Qed.

Lemma sampled_frames data cap ds ss :
  Forall2 (fun d s => result (driver_sample choice data cap d) = Returns s) ds ss ->
  map Driver (concat ss)
  = flat_map (fun d => repeat d (Nat.min (length (rows_of Driver d data)) (Z.to_nat cap))) ds /\
  ((forall d, (Z.of_nat (length (rows_of Driver d data)) <= cap)%Z) ->
   concat ss = flat_map (fun d => rows_of Driver d data) ds).
Proof using choice_without_replacement.
  induction 1 as [|d s ds ss Hs _ [IH1 IH2]]; [split; reflexivity|].
  destruct (driver_sample_kept data cap d s Hs) as [Hk1 Hk2].
  split.
  - simpl. rewrite map_app, Hk1, IH1. reflexivity.
  - intros Hcap. simpl. rewrite (Hk2 (Hcap d)), (IH2 Hcap). reflexivity.
Qed.

(** X20: the order of the table [cluster_track_data] returns.  With a sampler
    that draws without replacement, the rows of a returned table are grouped
    by driver, the drivers in the order of their first appearance in the
    input and each with as many rows as the input has for that driver, up to
    the cap.  When no driver has more rows than the cap, the returned rows
    are all the input rows, regrouped by driver in this way with the rows of
    each driver in their input order. *)
Theorem cluster_track_data_grouped data track_name cap table :
  result (cluster_track_data choice dbscan data track_name cap) = Returns table ->
  map driver_of table
  = flat_map (fun d => repeat d (Nat.min (length (rows_of Driver d data)) (Z.to_nat cap)))
             (unique (map Driver data)) /\
  ((forall d, (Z.of_nat (length (rows_of Driver d data)) <= cap)%Z) ->
   map row table = flat_map (fun d => rows_of Driver d data) (unique (map Driver data))).
Proof using choice_without_replacement.
  intros H.
  destruct (cluster_track_data_inv choice dbscan _ _ _ _ H) as (sampled & Hall & Hrow & _).
  assert (Hdrv : map driver_of table = map Driver (concat sampled)).
  { rewrite <- Hrow, map_map. reflexivity. }
  rewrite Hdrv, Hrow. apply sampled_frames, Hall.
Qed.

Lemma unique_repeat d k rest :
  unique (repeat d (S k) ++ rest)
  = d :: List.filter (fun y => negb (String.eqb y d)) (unique rest).
Proof using Type.
  induction k as [|k IH]; [reflexivity|].
  change (repeat d (S (S k)) ++ rest) with (d :: (repeat d (S k) ++ rest)).
  cbn [unique]. rewrite IH. cbn [List.filter]. rewrite String.eqb_refl. cbn [negb].
  f_equal. apply filter_idem.
Qed.

Lemma unique_runs (n : string -> nat) ds :
  List.NoDup ds -> (forall d, In d ds -> (0 < n d)%nat) ->
  unique (flat_map (fun d => repeat d (n d)) ds) = ds.
Proof using Type.
  induction 1 as [|d ds Hfresh _ IH]; intros Hn; [reflexivity|].
  cbn [flat_map]. destruct (n d) as [|k] eqn:E.
  - specialize (Hn d (or_introl eq_refl)). lia.
  - rewrite unique_repeat, IH by (intros x Hx; apply Hn; right; exact Hx).
    f_equal. apply filter_all. intros y Hy.
    destruct (String.eqb_spec y d) as [->|_]; [contradiction | reflexivity].
Qed.

Lemma balanced_drivers data track_name cap table :
  (0 < cap)%Z ->
  result (cluster_track_data choice dbscan data track_name cap) = Returns table ->
  unique (map driver_of table) = unique (map Driver data).
Proof using choice_without_replacement.
  intros Hcap H.
  destruct (cluster_track_data_inv choice dbscan _ _ _ _ H) as (sampled & Hall & Hrow & _).
  assert (Hdrv : map driver_of table = map Driver (concat sampled)).
  { rewrite <- Hrow, map_map. reflexivity. }
  rewrite Hdrv, (proj1 (sampled_frames data cap _ _ Hall)).
  apply unique_runs; [apply unique_NoDup|].
  intros d Hd. apply (proj1 (unique_In _ _)) in Hd.
  pose proof (rows_of_nonempty Driver d data Hd) as Hne.
  destruct (rows_of Driver d data); [congruence|]. cbn [length]. lia.
Qed.

(** X21: balancing loses no driver.  With a sampler that draws without
    replacement and a positive cap, the drivers of a returned table are the
    drivers of the input table, in the order of their first appearance; so
    the analysis of the returned table gives a profile to exactly these
    drivers, in this order. *)
Theorem balancing_keeps_drivers data track_name cap table :
  (0 < cap)%Z ->
  result (cluster_track_data choice dbscan data track_name cap) = Returns table ->
  unique (map driver_of table) = unique (map Driver data) /\
  map fst (build_profiles table) = unique (map Driver data).
Proof using choice_without_replacement.
  intros Hcap H.
  pose proof (balanced_drivers data track_name cap table Hcap H) as Hu.
  split; [exact Hu|]. rewrite build_profiles_keys. exact Hu.
Qed.
End Regrouping.

Lemma cluster_track_data_grouped_witness :
  map driver_of track_table
  = flat_map (fun d => repeat d (Nat.min (length (rows_of Driver d track_rows))
                                         (Z.to_nat 3)))
             (unique (map Driver track_rows)) /\
  ((forall d, (Z.of_nat (length (rows_of Driver d track_rows)) <= 3)%Z) ->
   map row track_table
   = flat_map (fun d => rows_of Driver d track_rows) (unique (map Driver track_rows))).
Proof.
  apply (cluster_track_data_grouped first_rows all_noise first_rows_without_replacement
           track_rows "Japan" 3 track_table).
  exact track_table_returned.
Defined.

Lemma balancing_keeps_drivers_witness :
  unique (map driver_of track_table) = unique (map Driver track_rows) /\
  map fst (build_profiles track_table) = unique (map Driver track_rows).
Proof.
  apply (balancing_keeps_drivers first_rows all_noise first_rows_without_replacement
           track_rows "Japan" 3 track_table).
  - lia.
  - exact track_table_returned.
Defined.

(** ** Two drivers, over the real numbers *)

Local Open Scope R_scope.








Local Close Scope R_scope.

(** ** From the files of a track to the profiles *)

Lemma foldM_load_order files codes acc acc' :
  frames_of codes (fst acc) ->
  result (foldM load_step acc files) = Returns acc' ->
  frames_of (codes ++ map fst (List.filter yields_rows files)) (fst acc').
Proof.
  revert codes acc. induction files as [|[code df] files IH];
    intros codes [all_data stats] Hinv H; cbn [foldM] in H.
  - cbv [ret result snd] in H. injection H as <-. simpl. rewrite app_nil_r. exact Hinv.
  - pose proof (load_step_spec all_data stats code df) as Hs.
    cbn [List.filter]. unfold yields_rows at 1. cbn [fst snd] in *.
    destruct (result (process_driver_telemetry df code)) as [[[|r rows]|]|e] eqn:Hp;
      rewrite (bind_result _ _ _ Hs) in H.
    1,3,4: exact (IH codes (all_data, stats) Hinv H).
    destruct (process_rows_finite df code _ Hp) as [_ Hdrv].
    cbn [map fst].
    replace (codes ++ code :: map fst (List.filter yields_rows files))
      with ((codes ++ [code]) ++ map fst (List.filter yields_rows files))
      by (rewrite <- app_assoc; reflexivity).
    apply (IH (codes ++ [code])
              (all_data ++ [r :: rows], <[code := stat_of code (r :: rows)]> stats));
      [|exact H].
    apply Forall2_app; [exact Hinv|]. constructor; [|constructor].
    split; [discriminate | exact Hdrv].
Qed.

Lemma unique_frames codes frames :
  List.NoDup codes -> frames_of codes frames ->
  unique (map Driver (concat frames)) = codes.
Proof.
  intros Hnd Hall. induction Hall as [|c f cs fs [Hne Hc] _ IH]; [reflexivity|].
  inversion Hnd as [|? ? Hfresh Hnd']; subst.
  assert (Hf : map Driver f = repeat c (length f)).
  { clear Hne. induction Hc as [|r f Hr _ IHf]; simpl; [reflexivity|].
    rewrite Hr, IHf. reflexivity. }
  cbn [concat]. rewrite map_app, Hf.
  destruct f as [|r f]; [congruence|]. cbn [length].
  rewrite unique_repeat, (IH Hnd'). f_equal. apply filter_all. intros y Hy.
  destruct (String.eqb_spec y c) as [->|_]; [contradiction | reflexivity].
Qed.

Lemma NoDup_filter_codes (files : list (string * DataFrame)) (f : string * DataFrame -> bool) :
  List.NoDup (map fst files) -> List.NoDup (map fst (List.filter f files)).
Proof.
  induction files as [|file files IH]; simpl; intros H; [constructor|].
  inversion H as [|? ? Hfresh Hnd]; subst.
  destruct (f file); [|exact (IH Hnd)].
  simpl. constructor; [|exact (IH Hnd)].
  intros Hin. apply Hfresh. apply in_map_iff in Hin. destruct Hin as (x & Hx & Hin).
  apply in_map_iff. exists x. split; [exact Hx|]. apply filter_In in Hin. apply Hin.
Qed.

Lemma loaded_drivers_in_order race_location files combined_data driver_stats :
  List.NoDup (map fst files) ->
  result (load_track_data race_location (Some files))
  = Returns (Some combined_data, Some driver_stats) ->
  unique (map Driver combined_data) = map fst (List.filter yields_rows files).
Proof.
  intros Hnd H. destruct files as [|f files]; [discriminate H|].
  destruct (load_track_data_files race_location f files) as (all_data & stats & Hf & Hr).
  rewrite Hr in H.
  assert (Hall : frames_of ([] ++ map fst (List.filter yields_rows (f :: files)))
                   (fst (all_data, stats))).
  { apply (foldM_load_order (f :: files) [] ([], ∅) (all_data, stats)); [|exact Hf].
    constructor. }
  cbn [fst app] in Hall.
  destruct all_data as [|frame frames]; [discriminate H|].
  assert (E : combined_data = concat (frame :: frames)) by congruence.
  rewrite E. apply unique_frames; [|exact Hall].
  apply NoDup_filter_codes, Hnd.
Qed.

Section FilesToProfiles.
Variable choice : nat -> nat -> list nat.
Variable dbscan : float -> nat -> list (list float) -> list Z.
Variable Figure : Type.
Variable render :
  list (list float) -> list (list float) -> list string ->
  list (string * list (string * float)) -> list ClusteredRow -> string ->
  M (Figure * list (list float)).

Hypothesis choice_without_replacement : forall N n,
  (n <= N)%nat ->
  length (choice N n) = n /\ List.NoDup (choice N n) /\
  Forall (fun i => (i < N)%nat) (choice N n).

(** X23: from the files of a track to the profiles.  With a sampler that
    draws without replacement and files of distinct driver codes, whenever a
    single-track run returns a figure and profiles, there is one profile for
    each file that gave at least one valid row, under the driver code of the
    file and in the order of the files; no such driver is lost on the way
    through loading, balancing and the analysis, and none is added. *)
Theorem profiles_follow_files track_name files output_dir show_plots fig driver_profiles :
  List.NoDup (map fst files) ->
  result (analyze_single_track choice dbscan Figure render track_name (Some files)
            output_dir show_plots)
  = Returns (Some fig, Some driver_profiles) ->
  map fst driver_profiles = map fst (List.filter yields_rows files).
Proof using choice_without_replacement.
  intros Hnd H. unfold analyze_single_track in H.
  apply bind_returns in H. destruct H as (u & _ & H).
  apply bind_returns in H. destruct H as ([track_data stats] & Hl & H).
  destruct track_data as [data|].
  2:{ apply bind_returns in H. destruct H as (u' & _ & H). discriminate H. }
  destruct (100 <? length data)%nat.
  2:{ apply bind_returns in H. destruct H as (u' & _ & H). discriminate H. }
  apply bind_returns in H. destruct H as (u' & _ & H).
  apply bind_returns in H. destruct H as (table & Ht & H).
  apply bind_returns in H. destruct H as ([fig' profiles'] & Ha & H).
  apply bind_returns in H. destruct H as (u'' & _ & H).
  cbv [ret result snd] in H. injection H as _ <-.
  destruct (track_analysis_result Figure render table track_name output_dir)
    as (S & D & _ & _ & Hr).
  rewrite Ha in Hr.
  assert (Hp : profiles' = build_profiles table).
  { destruct (result (render S D (unique (map driver_of table)) (build_profiles table)
                        table track_name)) as [[f pca]|e]; [|discriminate Hr].
    injection Hr as _ ->. reflexivity. }
  rewrite Hp, build_profiles_keys.
  rewrite (balanced_drivers choice dbscan choice_without_replacement data track_name
             default_n_samples_per_driver table) by (reflexivity || exact Ht).
  destruct stats as [stats|].
  - apply (loaded_drivers_in_order track_name files data stats Hnd Hl).
  - exfalso. destruct files as [|f files]; [discriminate Hl|].
    destruct (load_track_data_files track_name f files) as (all_data & st & _ & Hr').
    rewrite Hr' in Hl. destruct all_data; discriminate Hl.
Qed.
End FilesToProfiles.

Lemma lap_run_returns :
  result (analyze_single_track first_rows all_noise unit no_figure "Japan"
            (Some lap_files) None false)
  = Returns (Some tt, Some lap_profiles).
Proof. vm_compute. reflexivity. Qed.

Lemma profiles_follow_files_witness :
  map fst lap_profiles = map fst (List.filter yields_rows lap_files).
Proof.
  apply (profiles_follow_files first_rows all_noise unit no_figure
           first_rows_without_replacement "Japan" lap_files None false tt lap_profiles).
  - repeat constructor; simpl; intuition discriminate.
  - exact lap_run_returns.
Defined.

(** X24: when [load_track_data] returns nothing.  The call returns
    (None, None) exactly when the track directory does not exist or none of
    its CSV files gives a valid row (in particular when it holds no CSV
    file); in every other case it returns a table and statistics. *)
Theorem load_track_data_none race_location track_dir :
  result (load_track_data race_location track_dir) = Returns (None, None) <->
  match track_dir with
  | None => True
  | Some files => List.filter yields_rows files = []
  end.
Proof.
  destruct track_dir as [[|f files]|]; [split; reflexivity| |split; reflexivity].
  destruct (load_track_data_files race_location f files) as (all_data & stats & Hf & Hr).
  rewrite Hr.
  assert (Hall : frames_of ([] ++ map fst (List.filter yields_rows (f :: files)))
                   (fst (all_data, stats))).
  { apply (foldM_load_order (f :: files) [] ([], ∅) (all_data, stats)); [|exact Hf].
    constructor. }
  cbn [fst app] in Hall. unfold frames_of in Hall.
  destruct all_data as [|frame frames].
  - split; [intros _|reflexivity].
    destruct (List.filter yields_rows (f :: files)); [reflexivity | inversion Hall].
  - split; [intros H; discriminate H|]. intros E. rewrite E in Hall. inversion Hall.
Qed.

Section Session.
Variable choice : nat -> nat -> list nat.
Variable dbscan : float -> nat -> list (list float) -> list Z.
Variable Figure : Type.
Variable render :
  list (list float) -> list (list float) -> list string ->
  list (string * list (string * float)) -> list ClusteredRow -> string ->
  M (Figure * list (list float)).
Variable track_dirs : string -> option (list (string * DataFrame)).
Variable output_dir : option string.
Variable show_plots : bool.

Hypothesis choice_without_replacement : forall N n,
  (n <= N)%nat ->
  length (choice N n) = n /\ List.NoDup (choice N n) /\
  Forall (fun i => (i < N)%nat) (choice N n).
Hypothesis dbscan_labels : forall e m X, length (dbscan e m X) = length X.
Hypothesis render_returns : forall S D drivers driver_profiles clustered_data track_name,
  exists v, result (render S D drivers driver_profiles clustered_data track_name) = Returns v.


End Session.


